(** * m4a2wav: the batch conversion worker and the converted-files cache

    A shallow embedding of [ConversionThread] and of the handlers of
    [MainWindow] that touch the conversion state (src/mawa.py; the worker
    of src/m4a2wav.py is the same text), with the Python library calls the
    worker makes modelled next to it.

    What is taken from outside the repository:
    - [os.path] is [posixpath]; paths are byte strings.
    - [int / int], [float * int] and [int(float)] are the binary64
      operations, on [spec_float] of the Standard Library.
    - pydub is a record of functions: how bytes decode and encode, and when
      a file cannot be opened. A missing source raises [FileNotFoundError].
    - Qt delivers the signals of a thread to the GUI thread in the order
      they were emitted, one handler at a time, and a disabled button sends
      no click.
    - An exception that leaves [run] ends the thread and nothing else: the
      GUI thread goes on.
    - [QThread] has a signal [finished()] of its own, which Qt emits when a
      thread has ended. [ConversionThread] redeclares [finished], and
      [start_conversion] connects [conversion_finished] through that name.
      Whether this connection also receives Qt's own emission is decided
      inside PySide, not in the source: the application model takes it as
      the parameter [qt_finished], and what is proved of the application
      holds for both of its values unless the statement says otherwise. *)

From Stdlib Require Import ZArith Lia Bool Ascii String List Sorted.
From Stdlib Require Import Floats.SpecFloat.
From stdpp Require Import base strings list gmap.

Local Open Scope Z_scope.

(** ** Python [str] operations used by [os.path] *)

Module PyStr.

(** [s.rfind(c)] for a one-character [c]: the highest index, or -1. *)
Fixpoint rfind (c : ascii) (s : string) : Z :=
  match s with
  | EmptyString => -1
  | String a s' =>
      let r := rfind c s' in
      if 0 <=? r then r + 1
      else if Ascii.eqb a c then 0 else -1
  end.

Fixpoint drop (n : nat) (s : string) : string :=
  match n, s with
  | O, _ => s
  | S _, EmptyString => EmptyString
  | S n', String _ s' => drop n' s'
  end.

Fixpoint take (n : nat) (s : string) : string :=
  match n, s with
  | O, _ => EmptyString
  | S _, EmptyString => EmptyString
  | S n', String a s' => String a (take n' s')
  end.

Definition len (s : string) : Z := Z.of_nat (String.length s).

(** A slice bound as Python normalises it: negative counts from the end,
    and the result is clamped to [0, len s]. *)
Definition clamp (s : string) (i : Z) : nat :=
  Z.to_nat (Z.min (len s) (if i <? 0 then Z.max 0 (len s + i) else i)).

(** [s[i:]] and [s[:j]] and [s[i:j]]. *)
Definition slice_from (i : Z) (s : string) : string := drop (clamp s i) s.
Definition slice_to (j : Z) (s : string) : string := take (clamp s j) s.
Definition slice (i j : Z) (s : string) : string :=
  take (clamp s j - clamp s i) (drop (clamp s i) s).

Definition startswith (s : string) (c : ascii) : bool :=
  match s with
  | String a _ => Ascii.eqb a c
  | EmptyString => false
  end.

Fixpoint endswith (s : string) (c : ascii) : bool :=
  match s with
  | EmptyString => false
  | String a EmptyString => Ascii.eqb a c
  | String _ s' => endswith s' c
  end.

(** [str.lower], on the ASCII letters. *)
Definition lower_ascii (a : ascii) : ascii :=
  let n := nat_of_ascii a in
  if ((65 <=? n) && (n <=? 90))%nat then ascii_of_nat (n + 32) else a.

Fixpoint lower (s : string) : string :=
  match s with
  | EmptyString => EmptyString
  | String a s' => String (lower_ascii a) (lower s')
  end.

(** [s.endswith(suffix)] for a string suffix. *)
Definition endswith_str (s suffix : string) : bool :=
  String.eqb (drop (String.length s - String.length suffix) s) suffix
  && (String.length suffix <=? String.length s)%nat.

End PyStr.

(** ** [os.path] as [posixpath] implements it *)

Module PosixPath.
Import PyStr.

Definition sep : ascii := "/"%char.
Definition extsep : ascii := "."%char.

(** [basename(p)]: [i = p.rfind(sep) + 1; return p[i:]]. *)
Definition basename (p : string) : string :=
  let i := rfind sep p + 1 in
  slice_from i p.

(** The [while filenameIndex < dotIndex] loop of [genericpath._splitext]:
    [true] when it returns from inside (a character that is not a dot was
    found), [false] when it runs to [dotIndex]. [todo] is
    [dotIndex - filenameIndex]. *)
Fixpoint splitext_loop (p : string) (filenameIndex : Z) (todo : nat) : bool :=
  match todo with
  | O => false
  | S todo' =>
      if negb (String.eqb (slice filenameIndex (filenameIndex + 1) p)
                          (String extsep EmptyString))
      then true
      else splitext_loop p (filenameIndex + 1) todo'
  end.

(** [splitext(p)], with [altsep = None]. *)
Definition splitext (p : string) : string * string :=
  let sepIndex := rfind sep p in
  let dotIndex := rfind extsep p in
  if (sepIndex <? dotIndex)
     && splitext_loop p (sepIndex + 1) (Z.to_nat (dotIndex - (sepIndex + 1)))
  then (slice_to dotIndex p, slice_from dotIndex p)
  else (p, slice_to 0 p).

(** [join(a, b)] with one component [b]. *)
Definition join (a b : string) : string :=
  if startswith b sep then b
  else if String.eqb a EmptyString || endswith a sep then a +:+ b
  else a +:+ String sep b.

End PosixPath.

(** ** Python exceptions that can reach the worker *)

Inductive exn : Type :=
  | FileNotFoundError     (* the source path does not exist *)
  | PermissionError       (* a path could not be opened *)
  | CouldntDecodeError    (* the decoder rejected the input *)
  | OSError               (* any other failure of a write, such as a full disk *)
  | ZeroDivisionError
  | OverflowError
  | ValueError.

(** ** Python [int] and [float] arithmetic of the progress value

    [float] is IEEE binary64; [spec_float] of the Standard Library is its
    executable specification. *)

Module PyFloat.

Definition prec : Z := 53.
Definition emax : Z := 1024.

(** [float(z)] for an [int] that converts exactly or by one rounding. *)
Definition of_int (z : Z) : spec_float := binary_normalize prec emax z 0 false.

(** [a / b] on two [int]s: the quotient correctly rounded to a float
    ([long_true_divide]); the mantissas are the integers themselves. *)
Definition truediv (a b : Z) : exn + spec_float :=
  match b, a with
  | Z0, _ => inl ZeroDivisionError
  | _, Z0 => inr (S754_zero (b <? 0))
  | _, _ =>
      match SFdiv prec emax
              (S754_finite (a <? 0) (Z.to_pos (Z.abs a)) 0)
              (S754_finite (b <? 0) (Z.to_pos (Z.abs b)) 0) with
      | S754_infinity _ => inl OverflowError
      | q => inr q
      end
  end.

(** [x * n] for a float [x] and a small [int] [n]. *)
Definition mul_int (x : spec_float) (n : Z) : spec_float :=
  SFmul prec emax x (of_int n).

(** [int(x)]: truncation towards zero. *)
Definition to_int (x : spec_float) : exn + Z :=
  match x with
  | S754_zero _ => inr 0
  | S754_finite s m e =>
      let a := match e with
               | Zneg p => Z.pos m / 2 ^ Z.pos p
               | _ => Z.pos m * 2 ^ e
               end in
      inr (if s then - a else a)
  | S754_infinity _ => inl OverflowError
  | S754_nan => inl ValueError
  end.

(** [int(k / n * 100)] *)
Definition percent (k n : Z) : exn + Z :=
  match truediv k n with
  | inl e => inl e
  | inr q => to_int (mul_int q 100)
  end.

(** The value [percent] gives when it raises nothing. *)
Definition percent_value (k n : Z) : Z :=
  match percent k n with
  | inr p => p
  | inl _ => 0
  end.

End PyFloat.

(** ** The world the worker acts on *)

(** A file's bytes, and a decoded audio clip. *)
Definition Content : Type := list Z.
Record AudioSegment : Type := { raw_data : list Z }.

(** The file system: path to bytes. *)
Abbreviation Fs := (gmap string Content).

(** What pydub (and ffmpeg and the operating system behind it) may do: how
    bytes decode, how a clip encodes, and when opening a file for reading or
    writing fails. A failed write may leave the file system changed. *)
Record Pydub : Type := {
  decode : string -> Content -> exn + AudioSegment;
  encode : string -> AudioSegment -> Content;
  read_error : Fs -> string -> option exn;
  write_error : Fs -> string -> Content -> option (exn * Fs)
}.

(** The three signals of [ConversionThread]. *)
Module Signal.
Inductive t : Type :=
  | progress (value : Z)
  | file_converted (original_file converted_file : string)
  | finished.

(** The values of the [progress] signals in a trace, in order. *)
Definition progress_values (trace : list t) : list Z :=
  omap (fun s => match s with progress v => Some v | _ => None end) trace.

(** The [file_converted] signals in a trace, in order. *)
Definition conversions (trace : list t) : list (string * string) :=
  omap (fun s => match s with
                 | file_converted o c => Some (o, c)
                 | _ => None
                 end) trace.
End Signal.

Module ConversionThread.

(** The attributes [__init__] sets. *)
Record t : Type := { input_files : list string; output_dir : string }.

(** [ConversionThread(input_files, output_dir)] *)
Definition init (input_files : list string) (output_dir : string) : t :=
  {| input_files := input_files; output_dir := output_dir |}.

(** The worker's view of the world while [run] executes: the thread
    object, the file system, the signals emitted so far (oldest first) and,
    as a ghost log, the paths handed to [AudioSegment.from_file]. *)
Record State : Type := {
  self : t;
  fs : Fs;
  emitted : list Signal.t;
  opened : list string
}.

(** Computations that read and write the state and may raise. *)
Definition M (A : Type) : Type := State -> (exn + A) * State.

#[export] Instance M_ret : MRet M := fun A a st => (inr a, st).
#[export] Instance M_bind : MBind M := fun A B f m st =>
  match m st with
  | (inl e, st') => (inl e, st')
  | (inr a, st') => f a st'
  end.

Definition raise {A} (e : exn) : M A := fun st => (inl e, st).
Definition gets {A} (f : State -> A) : M A := fun st => (inr (f st), st).
Definition lift {A} (r : exn + A) : M A := fun st => (r, st).

Definition emit (s : Signal.t) : M unit := fun st =>
  (inr tt, {| self := self st; fs := fs st;
              emitted := emitted st ++ [s]; opened := opened st |}).

Definition set_fs (fs' : Fs) : M unit := fun st =>
  (inr tt, {| self := self st; fs := fs';
              emitted := emitted st; opened := opened st |}).

Definition log_open (path : string) : M unit := fun st =>
  (inr tt, {| self := self st; fs := fs st;
              emitted := emitted st; opened := opened st ++ [path] |}).

(** [for i, x in enumerate(l): body], counting from [i]. *)
Fixpoint for_enumerate {A} (body : Z -> A -> M unit) (i : Z) (l : list A)
  : M unit :=
  match l with
  | [] => mret tt
  | x :: l' => body i x ;; for_enumerate body (i + 1) l'
  end.

Section Run.
Variable lib : Pydub.

(** [AudioSegment.from_file(path, format=format)] *)
Definition from_file (path format : string) : M AudioSegment :=
  log_open path ;;
  files ← gets fs;
  match files !! path with
  | None => raise FileNotFoundError
  | Some bytes =>
      match read_error lib files path with
      | Some e => raise e
      | None => lift (decode lib format bytes)
      end
  end.

(** [audio.export(path, format=format)] *)
Definition export (audio : AudioSegment) (path format : string) : M unit :=
  files ← gets fs;
  let bytes := encode lib format audio in
  match write_error lib files path bytes with
  | Some (e, files') => set_fs files' ;; raise e
  | None => set_fs (<[path := bytes]> files)
  end.

(** The path the worker writes a source file's conversion to. *)
Definition output_file_of (output_dir input_file : string) : string :=
  PosixPath.join output_dir
    (fst (PosixPath.splitext (PosixPath.basename input_file)) +:+ ".wav").

(** One iteration of the loop in [run]. *)
Definition convert (total_files : Z) (i : Z) (input_file : string) : M unit :=
  dir ← gets (fun st => output_dir (self st));
  let output_file := output_file_of dir input_file in
  audio ← from_file input_file "m4a";
  export audio output_file "wav" ;;
  value ← lift (PyFloat.percent (i + 1) total_files);
  emit (Signal.progress value) ;;
  emit (Signal.file_converted input_file output_file).

(** [ConversionThread.run] *)
Definition run : M unit :=
  files ← gets (fun st => input_files (self st));
  let total_files := Z.of_nat (length files) in
  for_enumerate (convert total_files) 0 files ;;
  emit Signal.finished.

(** What the pydub calls of one iteration do to the file system: the
    new file system, or the exception raised and the file system it
    leaves. *)
Definition transcode (files : Fs) (input_file output_file : string)
  : exn * Fs + Fs :=
  match files !! input_file with
  | None => inl (FileNotFoundError, files)
  | Some bytes =>
      match read_error lib files input_file with
      | Some e => inl (e, files)
      | None =>
          match decode lib "m4a" bytes with
          | inl e => inl (e, files)
          | inr audio =>
              let out := encode lib "wav" audio in
              match write_error lib files output_file out with
              | Some (e, files') => inl (e, files')
              | None => inr (<[output_file := out]> files)
              end
          end
      end
  end.

(** The signals of one completed iteration, in emission order. *)
Definition job_signals (dir : string) (total_files i : Z)
    (input_file : string) : list Signal.t :=
  [Signal.progress (PyFloat.percent_value (i + 1) total_files);
   Signal.file_converted input_file (output_file_of dir input_file)].

Fixpoint batch_signals (dir : string) (total_files i : Z)
    (inputs : list string) : list Signal.t :=
  match inputs with
  | [] => []
  | x :: rest =>
      job_signals dir total_files i x
        ++ batch_signals dir total_files (i + 1) rest
  end.

(** The pydub calls of a whole batch, in order, up to the first one
    that raises: how many iterations completed, the file system left,
    and the exception if there was one. *)
Fixpoint transcode_all (dir : string) (files : Fs) (inputs : list string)
  : nat * Fs * option exn :=
  match inputs with
  | [] => (O, files, None)
  | x :: rest =>
      match transcode files x (output_file_of dir x) with
      | inr files' =>
          let '(n, files'', r) := transcode_all dir files' rest in
          (S n, files'', r)
      | inl (e, files') => (O, files', Some e)
      end
  end.

End Run.

(** The state a freshly started thread runs from. *)
Definition start (th : t) (files : Fs) : State :=
  {| self := th; fs := files; emitted := []; opened := [] |}.

End ConversionThread.

(** ** A small instance, used in the examples

    Any non-empty file decodes to its own bytes, a clip encodes to its
    samples, and opening never fails. *)
Definition plain_pydub : Pydub := {|
  decode := fun _ bytes =>
    match bytes with
    | [] => inl CouldntDecodeError
    | _ => inr {| raw_data := bytes |}
    end;
  encode := fun _ audio => raw_data audio;
  read_error := fun _ _ => None;
  write_error := fun _ _ _ => None
|}.

(** ** The main window: the state the conversion touches, and its handlers

    The sample buffer, the waveform view and the plot of src/mawa.py are
    not tracked; the calls that fill them ([sf.read], [display_waveform]) are
    the last ones of their handlers, after every update recorded here. *)

Module MainWindow.

(** An entry of the [QListWidget]: its text, the path stored under
    [UserRole], and the converted flag stored under [UserRole + 1]. *)
Record Item : Type := { text : string; path : string; converted : bool }.

Record t : Type := {
  input_files : list string;
  output_dir : string;
  converted_files : gmap string string;
  file_list : list Item;
  select_button : bool;          (* enabled? *)
  output_dir_button : bool;      (* enabled? *)
  progress_bar : Z;
  status_label : string;
  preview_label : string;
  media_source : option string   (* the file loaded in the player *)
}.

(** [MainWindow.__init__] *)
Definition init : t := {|
  input_files := [];
  output_dir := "";
  converted_files := ∅;
  file_list := [];
  select_button := true;
  output_dir_button := true;
  progress_bar := 0;
  status_label := "Ready";
  preview_label := "No file selected for preview";
  media_source := None
|}.

Definition set_input_files (v : list string) (w : t) : t :=
  {| input_files := v; output_dir := output_dir w;
     converted_files := converted_files w; file_list := file_list w;
     select_button := select_button w;
     output_dir_button := output_dir_button w;
     progress_bar := progress_bar w; status_label := status_label w;
     preview_label := preview_label w; media_source := media_source w |}.

Definition set_output_dir (v : string) (w : t) : t :=
  {| input_files := input_files w; output_dir := v;
     converted_files := converted_files w; file_list := file_list w;
     select_button := select_button w;
     output_dir_button := output_dir_button w;
     progress_bar := progress_bar w; status_label := status_label w;
     preview_label := preview_label w; media_source := media_source w |}.

Definition set_converted_files (v : gmap string string) (w : t) : t :=
  {| input_files := input_files w; output_dir := output_dir w;
     converted_files := v; file_list := file_list w;
     select_button := select_button w;
     output_dir_button := output_dir_button w;
     progress_bar := progress_bar w; status_label := status_label w;
     preview_label := preview_label w; media_source := media_source w |}.

Definition set_file_list (v : list Item) (w : t) : t :=
  {| input_files := input_files w; output_dir := output_dir w;
     converted_files := converted_files w; file_list := v;
     select_button := select_button w;
     output_dir_button := output_dir_button w;
     progress_bar := progress_bar w; status_label := status_label w;
     preview_label := preview_label w; media_source := media_source w |}.

Definition set_buttons (v : bool) (w : t) : t :=
  {| input_files := input_files w; output_dir := output_dir w;
     converted_files := converted_files w; file_list := file_list w;
     select_button := v; output_dir_button := v;
     progress_bar := progress_bar w; status_label := status_label w;
     preview_label := preview_label w; media_source := media_source w |}.

Definition set_progress_bar (v : Z) (w : t) : t :=
  {| input_files := input_files w; output_dir := output_dir w;
     converted_files := converted_files w; file_list := file_list w;
     select_button := select_button w;
     output_dir_button := output_dir_button w;
     progress_bar := v; status_label := status_label w;
     preview_label := preview_label w; media_source := media_source w |}.

Definition set_status_label (v : string) (w : t) : t :=
  {| input_files := input_files w; output_dir := output_dir w;
     converted_files := converted_files w; file_list := file_list w;
     select_button := select_button w;
     output_dir_button := output_dir_button w;
     progress_bar := progress_bar w; status_label := v;
     preview_label := preview_label w; media_source := media_source w |}.

Definition set_preview_label (v : string) (w : t) : t :=
  {| input_files := input_files w; output_dir := output_dir w;
     converted_files := converted_files w; file_list := file_list w;
     select_button := select_button w;
     output_dir_button := output_dir_button w;
     progress_bar := progress_bar w; status_label := status_label w;
     preview_label := v; media_source := media_source w |}.

Definition set_media_source (v : option string) (w : t) : t :=
  {| input_files := input_files w; output_dir := output_dir w;
     converted_files := converted_files w; file_list := file_list w;
     select_button := select_button w;
     output_dir_button := output_dir_button w;
     progress_bar := progress_bar w; status_label := status_label w;
     preview_label := preview_label w; media_source := v |}.

(** [add_file_to_list] *)
Definition add_file_to_list (file_path : string) (w : t) : t :=
  set_file_list
    (file_list w ++ [{| text := PosixPath.basename file_path;
                        path := file_path; converted := false |}]) w.

(** [start_conversion]: the window afterwards, and the thread it
    constructs and starts. *)
Definition start_conversion (files : list string) (w : t)
  : t * ConversionThread.t :=
  (set_progress_bar 0 (set_status_label "Converting..." (set_buttons false w)),
   ConversionThread.init files (output_dir w)).

Definition is_m4a (file_path : string) : bool :=
  PyStr.endswith_str (PyStr.lower file_path) ".m4a".

(** [dropEvent], on the local paths of the dropped urls. The result lists
    the threads started (none or one). *)
Definition dropEvent (urls : list string) (w : t)
  : t * list ConversionThread.t :=
  let new_files := List.filter is_m4a urls in
  let w1 := fold_left (fun acc f => add_file_to_list f acc) new_files w in
  match new_files with
  | [] => (w1, [])
  | _ :: _ =>
      if String.eqb (output_dir w1) "" then (w1, [])
      else
        let w2 := set_input_files (input_files w1 ++ new_files) w1 in
        let '(w3, th) := start_conversion new_files w2 in
        (w3, [th])
  end.

Definition mem (x : string) (l : list string) : bool :=
  existsb (String.eqb x) l.

(** The body of the loop in [select_files]. *)
Definition select_one (acc : t) (file : string) : t :=
  if mem file (input_files acc) then acc
  else add_file_to_list file
         (set_input_files (input_files acc ++ [file]) acc).

(** [select_files], for the list [files] the dialog returned. The button
    that triggers it does nothing while it is disabled. *)
Definition select_files (files : list string) (w : t)
  : t * list ConversionThread.t :=
  if negb (select_button w) then (w, [])
  else
    match files with
    | [] => (w, [])
    | _ :: _ =>
        let w1 := fold_left select_one files w in
        if String.eqb (output_dir w1) "" then (w1, [])
        else
          let '(w2, th) := start_conversion files w1 in
          (w2, [th])
    end.

(** [select_output_dir], for the directory the dialog returned (empty
    when the dialog was cancelled). *)
Definition select_output_dir (dir : string) (w : t) : t :=
  if negb (output_dir_button w) then w else set_output_dir dir w.

(** [update_progress] *)
Definition update_progress (value : Z) (w : t) : t := set_progress_bar value w.

(** [update_file_list_item]: the first entry with that path is marked. *)
Fixpoint mark_converted (file_path : string) (items : list Item) : list Item :=
  match items with
  | [] => []
  | it :: rest =>
      if String.eqb (path it) file_path
      then {| text := PosixPath.basename file_path +:+ " (Converted)";
              path := path it; converted := true |} :: rest
      else it :: mark_converted file_path rest
  end.

Definition update_file_list_item (file_path : string) (w : t) : t :=
  set_file_list (mark_converted file_path (file_list w)) w.

(** [load_media] *)
Definition load_media (file_path : string) (w : t) : t :=
  set_media_source (Some file_path) w.

(** The slot [file_converted]. *)
Definition file_converted (original_file converted_file : string) (w : t) : t :=
  let w1 := set_converted_files
              (<[original_file := converted_file]> (converted_files w)) w in
  let w2 := update_file_list_item original_file w1 in
  let w3 := set_preview_label
              ("Preview: " +:+ PosixPath.basename converted_file) w2 in
  load_media converted_file w3.

(** [conversion_finished] *)
Definition conversion_finished (w : t) : t :=
  set_buttons true
    (set_status_label "Conversion complete!" (set_progress_bar 100 w)).

(** [list.remove(x)] when [x] is in the list: the first occurrence goes. *)
Fixpoint remove_first (x : string) (l : list string) : list string :=
  match l with
  | [] => []
  | y :: l' => if String.eqb y x then l' else y :: remove_first x l'
  end.

(** [remove_selected_file], with the row of the current item if any. *)
Definition remove_selected_file (current : option nat) (w : t) : t :=
  match current with
  | None => w
  | Some row =>
      match file_list w !! row with
      | None => w
      | Some it =>
          let file_path := path it in
          let w1 := if mem file_path (input_files w)
                    then set_input_files
                           (remove_first file_path (input_files w)) w
                    else w in
          let w2 := set_file_list
                      (List.firstn row (file_list w1)
                         ++ List.skipn (S row) (file_list w1)) w1 in
          match converted_files w2 !! file_path with
          | Some _ =>
              set_converted_files (delete file_path (converted_files w2)) w2
          | None => w2
          end
      end
  end.

(** The path of the entry [remove_selected_file] acts on, if it acts. *)
Definition removed_path (current : option nat) (w : t) : option string :=
  match current with
  | None => None
  | Some row => path <$> (file_list w !! row)
  end.

(** [reconvert_selected_file] *)
Definition reconvert_selected_file (current : option nat) (w : t)
  : t * list ConversionThread.t :=
  match current ≫= (fun row => file_list w !! row) with
  | None => (w, [])
  | Some it =>
      if String.eqb (output_dir w) "" then (w, [])
      else
        let '(w1, th) := start_conversion [path it] w in
        (w1, [th])
  end.

(** [preview_converted_file], for a click on the entry in [row]. *)
Definition preview_converted_file (row : nat) (w : t) : t :=
  match file_list w !! row with
  | None => w
  | Some it =>
      match converted_files w !! path it with
      | Some converted_file =>
          load_media converted_file
            (set_preview_label
               ("Preview: " +:+ PosixPath.basename converted_file) w)
      | None => w
      end
  end.

(** The lookup [preview_converted_file] makes. *)
Definition lookup (file_path : string) (w : t) : option string :=
  converted_files w !! file_path.

(** The slot a signal of the worker is connected to. *)
Definition handle (s : Signal.t) (w : t) : t :=
  match s with
  | Signal.progress value => update_progress value w
  | Signal.file_converted o c => file_converted o c w
  | Signal.finished => conversion_finished w
  end.

(** The GUI thread handling a trace of signals, oldest first. *)
Definition handle_all (trace : list Signal.t) (w : t) : t :=
  fold_left (fun acc s => handle s acc) trace w.

End MainWindow.

(** ** The application: one GUI thread, the worker threads it has started

    Every [start_conversion] constructs a [QThread] and starts it. The
    threads share the file system; the signals they emit are queued to the
    GUI thread, which handles them one at a time in the order they were
    posted. A worker advances by one loop iteration per step. When a step
    ends the thread, by returning from [run] or by an exception, Qt's own
    [finished()] is posted after the signals of the step if [qt_finished]
    says that it reaches the connected slot. *)

Module App.

(** Where a started thread is in [run]: about to execute iteration [i]
    (or, past the last one, about to emit [finished]); returned; or
    ended by an exception nothing caught. *)
Inductive Pc : Type :=
  | Running (i : nat)
  | Returned
  | Crashed (e : exn).

Record Worker : Type := { thread : ConversionThread.t; pc : Pc }.

Record t : Type := {
  window : MainWindow.t;
  workers : list Worker;      (* in the order they were started *)
  files : Fs;
  mailbox : list Signal.t     (* queued for the GUI thread, oldest first *)
}.

Definition init (files : Fs) : t :=
  {| window := MainWindow.init; workers := []; files := files; mailbox := [] |}.

Definition is_running (w : Worker) : bool :=
  match pc w with
  | Running _ => true
  | _ => false
  end.

(** The workers that are inside [run] at this instant. *)
Definition running (s : t) : list Worker := List.filter is_running (workers s).

Definition spawn (th : ConversionThread.t) : Worker :=
  {| thread := th; pc := Running 0 |}.

(** What the user or the scheduler does next. *)
Inductive Action : Type :=
  | Drop (urls : list string)
  | SelectFiles (chosen : list string)
  | SelectOutputDir (dir : string)
  | Remove (current : option nat)
  | Reconvert (current : option nat)
  | Preview (row : nat)
  | Deliver                      (* the GUI thread handles a queued signal *)
  | Work (n : nat).              (* the n-th started thread advances *)

(** The actions the GUI thread takes, as opposed to a worker's step. *)
Definition is_gui (a : Action) : bool :=
  match a with Work _ => false | _ => true end.

(** What reaches [conversion_finished] from Qt itself when a thread has
    ended. *)
Definition thread_exit (qt_finished : bool) : list Signal.t :=
  if qt_finished then [Signal.finished] else [].

Section Step.
Variable lib : Pydub.
Variable qt_finished : bool.

(** One step of a worker on the shared file system: the worker
    afterwards, the file system, and the signals [run] emitted in it. What
    Qt posts when the step ends the thread is not among them: [step] adds
    it, as [exit_signals]. *)
Definition worker_step (w : Worker) (fs0 : Fs)
  : Worker * Fs * list Signal.t :=
  match pc w with
  | Running i =>
      let st := ConversionThread.start (thread w) fs0 in
      let inputs := ConversionThread.input_files (thread w) in
      match inputs !! i with
      | Some input_file =>
          let '(r, st') :=
            ConversionThread.convert lib (Z.of_nat (length inputs))
              (Z.of_nat i) input_file st in
          ({| thread := ConversionThread.self st';
              pc := match r with
                    | inr _ => Running (S i)
                    | inl e => Crashed e
                    end |},
           ConversionThread.fs st', ConversionThread.emitted st')
      | None =>
          let '(_, st') := ConversionThread.emit Signal.finished st in
          ({| thread := ConversionThread.self st'; pc := Returned |},
           ConversionThread.fs st', ConversionThread.emitted st')
      end
  | _ => (w, fs0, [])
  end.

(** Qt's signal for a step that took the thread from running to
    ended. *)
Definition exit_signals (w w' : Worker) : list Signal.t :=
  if is_running w && negb (is_running w') then thread_exit qt_finished
  else [].

Definition gui (f : MainWindow.t -> MainWindow.t * list ConversionThread.t)
    (s : t) : t :=
  let '(w', started) := f (window s) in
  {| window := w'; workers := workers s ++ map spawn started;
     files := files s; mailbox := mailbox s |}.

Definition step (a : Action) (s : t) : t :=
  match a with
  | Drop urls => gui (MainWindow.dropEvent urls) s
  | SelectFiles chosen => gui (MainWindow.select_files chosen) s
  | SelectOutputDir dir =>
      gui (fun w => (MainWindow.select_output_dir dir w, [])) s
  | Remove current =>
      gui (fun w => (MainWindow.remove_selected_file current w, [])) s
  | Reconvert current => gui (MainWindow.reconvert_selected_file current) s
  | Preview row =>
      gui (fun w => (MainWindow.preview_converted_file row w, [])) s
  | Deliver =>
      match mailbox s with
      | [] => s
      | sig :: rest =>
          {| window := MainWindow.handle sig (window s);
             workers := workers s; files := files s; mailbox := rest |}
      end
  | Work n =>
      match workers s !! n with
      | None => s
      | Some w =>
          let '(w', fs', sigs) := worker_step w (files s) in
          {| window := window s; workers := <[n := w']> (workers s);
             files := fs';
             mailbox := mailbox s ++ sigs ++ exit_signals w w' |}
      end
  end.

(** A schedule, executed from left to right. *)
Definition exec (schedule : list Action) (s : t) : t :=
  fold_left (fun acc a => step a acc) schedule s.

(** Whether action [a], taken in [s], rewrites or deletes the cache
    entry of [p]: a [file_converted] for [p] is handled, or the list
    entry of [p] is removed. *)
Definition touches (p : string) (a : Action) (s : t) : Prop :=
  match a with
  | Deliver =>
      match mailbox s with
      | Signal.file_converted o _ :: _ => o = p
      | _ => False
      end
  | Remove current => MainWindow.removed_path current (window s) = Some p
  | _ => False
  end.

(** No action of the schedule touches the entry of [p]. *)
Fixpoint untouched (p : string) (schedule : list Action) (s : t) : Prop :=
  match schedule with
  | [] => True
  | a :: rest => ~ touches p a s /\ untouched p rest (step a s)
  end.

(** The signals an action posts to the GUI thread, each with the index of
    the thread it comes from. *)
Definition posts (a : Action) (s : t) : list (nat * Signal.t) :=
  match a with
  | Work n =>
      match workers s !! n with
      | None => []
      | Some w =>
          let '(w', _, sigs) := worker_step w (files s) in
          map (pair n) (sigs ++ exit_signals w w')
      end
  | _ => []
  end.

(** The signals posted during a schedule, in posting order. *)
Fixpoint posted (schedule : list Action) (s : t) : list (nat * Signal.t) :=
  match schedule with
  | [] => []
  | a :: rest => posts a s ++ posted rest (step a s)
  end.

(** The signal an action hands to its slot, if it does. *)
Definition handles (a : Action) (s : t) : list Signal.t :=
  match a with
  | Deliver =>
      match mailbox s with
      | sig :: _ => [sig]
      | [] => []
      end
  | _ => []
  end.

(** The signals the GUI thread handles during a schedule, in order. *)
Fixpoint handled (schedule : list Action) (s : t) : list Signal.t :=
  match schedule with
  | [] => []
  | a :: rest => handles a s ++ handled rest (step a s)
  end.

(** A worker stepped on its own until it stops, for at most [fuel]
    steps: its final state, the file system, all signals [run] emitted. *)
Fixpoint worker_steps (fuel : nat) (w : Worker) (fs0 : Fs)
  : Worker * Fs * list Signal.t :=
  match fuel with
  | O => (w, fs0, [])
  | S fuel' =>
      let '(w1, fs1, sigs1) := worker_step w fs0 in
      let '(w2, fs2, sigs2) := worker_steps fuel' w1 fs1 in
      (w2, fs2, sigs1 ++ sigs2)
  end.

End Step.

End App.

(** ** The events of the specification, for comparison

    These definitions follow the words of the specification, not the
    source: its event vocabulary, the signal of the worker that carries each
    event, and the event sequence of its two-file scenario. *)

Module Spec.

Inductive ErrorKind : Type :=
  | SourceUnavailable
  | TranscodeFailed
  | WriteFailed.

Inductive Event : Type :=
  | JobStarted (sourcePath : string)
  | JobSucceeded (sourcePath destinationPath : string)
  | JobFailed (sourcePath : string) (kind : ErrorKind)
  | BatchProgress (completedCount totalCount : Z)
  | BatchFinished.

(** The signal that carries an event. The worker has no signal for the
    start of a job or for a failure. *)
Definition signal_of (e : Event) : option Signal.t :=
  match e with
  | JobSucceeded o c => Some (Signal.file_converted o c)
  | BatchProgress k n => Some (Signal.progress (PyFloat.percent_value k n))
  | BatchFinished => Some Signal.finished
  | JobStarted _ | JobFailed _ _ => None
  end.

(** The scenario of section 8: a.m4a converts, b.m4a is missing. *)
Definition scenario_events : list Event :=
  [JobStarted "a.m4a"; JobSucceeded "a.m4a" "/out/a.wav"; BatchProgress 1 2;
   JobStarted "b.m4a"; JobFailed "b.m4a" SourceUnavailable;
   BatchProgress 2 2; BatchFinished].

End Spec.

(** ** Rounding in [spec_float]: what the shifts and the final rounding compute *)

Module FloatFacts.
Import PyFloat.

(** The position of [N / D] between the integers around it. *)
Definition loc_of (N D : Z) : location :=
  if N mod D =? 0 then loc_Exact else loc_Inexact (2 * (N mod D) ?= D).

(** A shift record that stands for the rational [N / D]. *)
Definition locates (N D : Z) (mrs : shr_record) : Prop :=
  shr_m mrs = N / D /\ loc_of_shr_record mrs = loc_of N D.

(** [N / D] rounded to the nearest integer, ties to even. *)
Definition rne (N D : Z) : Z :=
  let q := N / D in
  match 2 * (N mod D) ?= D with
  | Lt => q
  | Eq => if Z.even q then q else q + 1
  | Gt => q + 1
  end.

(** The exponent [SFdiv] divides at, for integer operands. *)
Definition div_exp (k n : Z) : Z :=
  Z.min (fexp prec emax (Zdigits2 k - Zdigits2 n)) 0.

(** The shift [shr_fexp] applies to a mantissa [m] at exponent [e]. *)
Definition shift_of (m e : Z) : Z :=
  Z.max 0 (fexp prec emax (Zdigits2 m + e) - e).

(** The result of [binary_round_aux] on the rational [N / D] at exponent
    [ex], written with integer arithmetic only. *)
Definition round_result (sx : bool) (N D ex : Z) : spec_float :=
  let n1 := shift_of (N / D) ex in
  let m1 := rne N (D * 2 ^ n1) in
  let e1 := ex + n1 in
  let n2 := shift_of m1 e1 in
  match m1 / 2 ^ n2 with
  | Z0 => S754_zero sx
  | Zpos m => if e1 + n2 <=? emax - prec
              then S754_finite sx m (e1 + n2) else S754_infinity sx
  | Zneg _ => S754_nan
  end.

(** Values are compared as integers: a float stands for its value times
    [2 ^ scale]. The smallest exponent a product by [float(100)] is rounded
    from is [emin - 46 = -1120]. *)
Definition scale : Z := 1120.

Definition scaled (f : spec_float) : Z :=
  match f with
  | S754_finite false m e => Z.pos m * 2 ^ (e + scale)
  | _ => 0
  end.

(** The exponent, on the scaled side, a quotient with integer part [q] is
    rounded at: 53 significant bits, and nothing finer than the subnormal
    step. *)
Definition grain (q : Z) : Z :=
  Z.max (Zdigits2 q - prec) (emin prec emax + scale).

(** Round-to-nearest-even of the scaled rational [N / D]. *)
Definition round_scaled (N D : Z) : Z :=
  let g := grain (N / D) in
  rne N (D * 2 ^ g) * 2 ^ g.

End FloatFacts.

(** ** src/m4a2wav.py: the handler that differs

    The window of src/m4a2wav.py has the handlers of [MainWindow] except
    [reconvert_selected_file], and it keeps no sample buffer. Its
    [remove_selected_file] calls [list.remove] without the membership test
    that src/mawa.py makes first. *)

Module M4a2wav.

(** [l.remove(x)]: the first occurrence goes; [ValueError] when there is
    none. *)
Definition list_remove (x : string) (l : list string) : exn + list string :=
  if MainWindow.mem x l then inr (MainWindow.remove_first x l)
  else inl ValueError.

(** [remove_selected_file], with the row of the current item if any. The
    call that may raise is the first update, so a raise leaves the window as
    it was. *)
Definition remove_selected_file (current : option nat) (w : MainWindow.t)
  : exn + MainWindow.t :=
  match current with
  | None => inr w
  | Some row =>
      match MainWindow.file_list w !! row with
      | None => inr w
      | Some it =>
          let file_path := MainWindow.path it in
          match list_remove file_path (MainWindow.input_files w) with
          | inl e => inl e
          | inr rest =>
              let w1 := MainWindow.set_input_files rest w in
              let w2 := MainWindow.set_file_list
                          (List.firstn row (MainWindow.file_list w1)
                             ++ List.skipn (S row) (MainWindow.file_list w1))
                          w1 in
              inr match MainWindow.converted_files w2 !! file_path with
                  | Some _ =>
                      MainWindow.set_converted_files
                        (delete file_path (MainWindow.converted_files w2)) w2
                  | None => w2
                  end
          end
      end
  end.

End M4a2wav.

(** ** The sample cursor of src/mawa.py

    [load_media] reads the frames of the file into [current_audio_data] and
    resets [current_audio_pos]; a timer calls [update_visualization] every 50
    ms, which plots the next chunk while the player is playing. *)

Module PyList.

(** A slice bound as Python normalises it, for a sequence of length
    [n]. *)
Definition clamp (n : nat) (i : Z) : nat :=
  Z.to_nat (Z.min (Z.of_nat n)
              (if i <? 0 then Z.max 0 (Z.of_nat n + i) else i)).

(** [l[i:j]] *)
Definition slice {A : Type} (i j : Z) (l : list A) : list A :=
  take (clamp (length l) j - clamp (length l) i)
    (drop (clamp (length l) i) l).

End PyList.

Module Visualization.

Record t (A : Type) : Type := {
  current_audio_data : option (list A);
  current_audio_pos : Z
}.
Arguments current_audio_data {A} _.
Arguments current_audio_pos {A} _.

(** The two attributes as [MainWindow.__init__] sets them. *)
Definition init {A : Type} : t A :=
  {| current_audio_data := None; current_audio_pos := 0 |}.

(** The end of [load_media], for the frames [sf.read] returned. *)
Definition load_media {A : Type} (data : list A) (v : t A) : t A :=
  {| current_audio_data := Some data; current_audio_pos := 0 |}.

Definition chunk_size : Z := 1000.

(** [update_visualization]: the attributes afterwards, and the chunk
    handed to [audio_curve.setData] if one was. *)
Definition update_visualization {A : Type} (playing : bool) (v : t A)
  : t A * option (list A) :=
  match current_audio_data v with
  | Some data =>
      if playing then
        let n := Z.of_nat (length data) in
        let end_pos := Z.min (current_audio_pos v + chunk_size) n in
        let chunk := PyList.slice (current_audio_pos v) end_pos data in
        ({| current_audio_data := Some data;
            current_audio_pos := if n <=? end_pos then 0 else end_pos |},
         Some chunk)
      else (v, None)
  | None => (v, None)
  end.

(** The sample index of a player position in milliseconds:
    [int(position / 1000 * 44100)]. *)
Definition sample_index (position : Z) : exn + Z :=
  match PyFloat.truediv position 1000 with
  | inl e => inl e
  | inr q => PyFloat.to_int (PyFloat.mul_int q 44100)
  end.

(** [position_changed]; the slider it also moves is not tracked. *)
Definition position_changed {A : Type} (position : Z) (v : t A)
  : exn + t A :=
  match sample_index position with
  | inl e => inl e
  | inr pos => inr {| current_audio_data := current_audio_data v;
                      current_audio_pos := pos |}
  end.

(** [n] timer ticks in a row while the player is playing, with no
    [position_changed] between them: the attributes afterwards and the
    chunks plotted, oldest first. *)
Fixpoint ticks {A : Type} (n : nat) (v : t A) : t A * list (list A) :=
  match n with
  | O => (v, [])
  | S n' =>
      let '(v1, chunk) := update_visualization true v in
      let '(v2, chunks) := ticks n' v1 in
      (v2, match chunk with Some c => c :: chunks | None => chunks end)
  end.

End Visualization.

(** ** Invariants of the application *)

Module Invariant.

(** What every handler guarantees of a thread it starts: a batch and a
    directory. *)
Definition has_work (th : ConversionThread.t) : Prop :=
  ConversionThread.input_files th <> []
  /\ ConversionThread.output_dir th <> ""%string.

(** No file is tracked more often than it is listed. *)
Definition listed (w : MainWindow.t) : Prop :=
  forall p : string,
    (length (List.filter (String.eqb p) (MainWindow.input_files w))
     <= length (List.filter (String.eqb p)
                  (map MainWindow.path (MainWindow.file_list w))))%nat.

End Invariant.

(** * Proofs *)

(** ** The library models on small inputs *)

Example basename_ex : PosixPath.basename "/music/a.m4a" = "a.m4a"%string.
Proof. reflexivity. Qed.

Example splitext_ex : PosixPath.splitext "a.tar.m4a" = ("a.tar", ".m4a")%string.
Proof. reflexivity. Qed.

Example splitext_hidden : PosixPath.splitext ".m4a" = (".m4a", "")%string.
Proof. reflexivity. Qed.

Example join_ex : PosixPath.join "/out" "a.wav" = "/out/a.wav"%string.
Proof. reflexivity. Qed.

Example percent_1_2 : PyFloat.percent 1 2 = inr 50.
Proof. vm_compute. reflexivity. Qed.

Example percent_1_3 : PyFloat.percent 1 3 = inr 33.
Proof. vm_compute. reflexivity. Qed.

(** The float product is not the exact one: 29/100*100 is just below 29. *)
Example percent_29_100 : PyFloat.percent 29 100 = inr 28.
Proof. vm_compute. reflexivity. Qed.

Example percent_7_7 : PyFloat.percent 7 7 = inr 100.
Proof. vm_compute. reflexivity. Qed.

(** ** Digits and shifts *)

Section FloatLemmas.
Import PyFloat FloatFacts.

Lemma digits2_pos_size (p : positive) : digits2_pos p = Pos.size p.
Proof. induction p; simpl; congruence. Qed.

Lemma Zdigits2_log2 (m : Z) : 0 < m -> Zdigits2 m = Z.log2 m + 1.
Proof.
  destruct m as [|p|p]; try lia. intros _. simpl.
  rewrite digits2_pos_size.
  destruct p; simpl; lia.
Qed.

Lemma Zdigits2_bounds (m : Z) :
  0 < m -> 2 ^ (Zdigits2 m - 1) <= m < 2 ^ Zdigits2 m.
Proof.
  intros H. rewrite Zdigits2_log2 by lia.
  replace (Z.log2 m + 1 - 1) with (Z.log2 m) by lia.
  pose proof (Z.log2_spec m H). replace (Z.log2 m + 1) with (Z.succ (Z.log2 m)) by lia.
  lia.
Qed.

Lemma Zdigits2_nonneg (m : Z) : 0 <= m -> 0 <= Zdigits2 m.
Proof. destruct m; simpl; lia. Qed.

Lemma Zdigits2_le (m d : Z) : 0 <= m -> 0 <= d -> m < 2 ^ d -> Zdigits2 m <= d.
Proof.
  intros Hm Hd H. destruct (Z.eq_dec m 0) as [->|]; [simpl; lia|].
  rewrite Zdigits2_log2 by lia.
  assert (Z.log2 m < d) by (apply Z.log2_lt_pow2; lia). lia.
Qed.

Lemma Zdigits2_ge (m d : Z) : 0 < m -> 2 ^ (d - 1) <= m -> d <= Zdigits2 m.
Proof.
  intros Hm H. rewrite Zdigits2_log2 by lia.
  destruct (Z_lt_le_dec (d - 1) 0) as [Hn|Hn].
  - pose proof (Z.log2_nonneg m). lia.
  - assert (d - 1 <= Z.log2 m) by (apply Z.log2_le_pow2; lia). lia.
Qed.

Lemma loc_of_shr_record_of_loc (m : Z) (l : location) :
  loc_of_shr_record (shr_record_of_loc m l) = l
  /\ shr_m (shr_record_of_loc m l) = m.
Proof. destruct l as [|[]]; simpl; auto. Qed.

Lemma shr_1_m (mrs : shr_record) :
  0 <= shr_m mrs -> shr_m (shr_1 mrs) = shr_m mrs / 2.
Proof.
  destruct mrs as [m r s]. simpl. intros Hm.
  destruct m as [|[p|p|]|p]; simpl; try reflexivity; try lia.
  - rewrite Pos2Z.inj_xI. apply Z.div_unique with (r := 1); lia.
  - rewrite Pos2Z.inj_xO. apply Z.div_unique with (r := 0); lia.
Qed.

Lemma shr_1_r (mrs : shr_record) :
  0 <= shr_m mrs -> shr_r (shr_1 mrs) = Z.odd (shr_m mrs).
Proof.
  destruct mrs as [m r s]. simpl. intros Hm.
  destruct m as [|[p|p|]|p]; simpl; try reflexivity; lia.
Qed.

Lemma shr_1_s (mrs : shr_record) :
  shr_s (shr_1 mrs) = shr_r mrs || shr_s mrs.
Proof.
  destruct mrs as [m r s]. simpl.
  destruct m as [|[p|p|]|[p|p|]]; reflexivity.
Qed.

Lemma loc_exact_iff (mrs : shr_record) :
  loc_of_shr_record mrs = loc_Exact <-> shr_r mrs || shr_s mrs = false.
Proof. destruct mrs as [m [] []]; simpl; split; congruence. Qed.

Lemma loc_of_exact_iff (N D : Z) : loc_of N D = loc_Exact <-> N mod D = 0.
Proof.
  unfold loc_of. destruct (Z.eqb_spec (N mod D) 0); split; congruence.
Qed.

Lemma shr_1_locates (N D : Z) (mrs : shr_record) :
  0 <= N -> 0 < D -> locates N D mrs -> locates N (2 * D) (shr_1 mrs).
Proof.
  intros HN HD [Hm Hl].
  assert (Hq : 0 <= N / D) by (apply Z.div_pos; lia).
  pose proof (Z.div_mod N D ltac:(lia)) as Hdm.
  pose proof (Z.mod_pos_bound N D HD) as Hr.
  pose proof (Z.div_mod (N / D) 2 ltac:(lia)) as Hdm2.
  pose proof (Z.mod_pos_bound (N / D) 2 ltac:(lia)) as Hr2.
  assert (Hdiv : N / (2 * D) = N / D / 2).
  { symmetry. apply Z.div_unique with (r := (N / D) mod 2 * D + N mod D); nia. }
  assert (Hmod : N mod (2 * D) = (N / D) mod 2 * D + N mod D).
  { symmetry. apply Z.mod_unique with (q := N / D / 2); nia. }
  split.
  - rewrite shr_1_m by lia. rewrite Hm. auto.
  - assert (Hs : shr_s (shr_1 mrs) = negb (N mod D =? 0)).
    { rewrite shr_1_s.
      destruct (Z.eqb_spec (N mod D) 0) as [E|E]; simpl.
      - apply loc_exact_iff. rewrite Hl. apply loc_of_exact_iff. auto.
      - destruct (shr_r mrs || shr_s mrs) eqn:Ho; auto.
        apply loc_exact_iff in Ho. rewrite Hl in Ho.
        apply loc_of_exact_iff in Ho. lia. }
    assert (Hr' : shr_r (shr_1 mrs) = Z.odd (N / D)).
    { rewrite shr_1_r by lia. rewrite Hm. auto. }
    destruct (shr_1 mrs) as [m' r' s']. simpl in *. subst r' s'.
    unfold loc_of. rewrite Hmod.
    rewrite Zmod_odd in *.
    destruct (Z.odd (N / D)); destruct (Z.eqb_spec (N mod D) 0) as [E|E]; simpl.
    + rewrite E.
      destruct (Z.eqb_spec (1 * D + 0) 0); [lia|].
      f_equal. symmetry. apply Z.compare_eq_iff. lia.
    + destruct (Z.eqb_spec (1 * D + N mod D) 0); [lia|].
      f_equal. symmetry. apply Z.compare_gt_iff. lia.
    + rewrite E. reflexivity.
    + destruct (Z.eqb_spec (0 * D + N mod D) 0); [lia|].
      f_equal. symmetry. apply Z.compare_lt_iff. lia.
Qed.

Lemma iter_pos_shr_1_locates (p : positive) :
  forall (N D : Z) (mrs : shr_record),
    0 <= N -> 0 < D -> locates N D mrs ->
    locates N (D * 2 ^ Z.pos p) (SpecFloat.iter_pos shr_1 p mrs).
Proof.
  induction p as [p IH|p IH|]; intros N D mrs HN HD H; simpl.
  - replace (D * 2 ^ Z.pos p~1) with (2 * D * 2 ^ Z.pos p * 2 ^ Z.pos p).
    + apply IH; [lia| |apply IH; [lia|lia|apply shr_1_locates; auto]].
      pose proof (Z.pow_pos_nonneg 2 (Z.pos p)). nia.
    + rewrite (Pos2Z.inj_xI p).
      replace (2 * Z.pos p + 1) with (Z.pos p + Z.pos p + 1) by lia.
      rewrite !Z.pow_add_r by lia. change (2 ^ 1) with 2. ring.
  - replace (D * 2 ^ Z.pos p~0) with (D * 2 ^ Z.pos p * 2 ^ Z.pos p).
    + apply IH; [lia| |apply IH; auto].
      pose proof (Z.pow_pos_nonneg 2 (Z.pos p)). nia.
    + rewrite (Pos2Z.inj_xO p).
      replace (2 * Z.pos p) with (Z.pos p + Z.pos p) by lia.
      rewrite !Z.pow_add_r by lia. ring.
  - change (2 ^ 1) with 2. replace (D * 2) with (2 * D) by ring.
    apply shr_1_locates; auto.
Qed.

Lemma shr_fexp_locates (m e : Z) (l : location) (N D : Z) :
  0 <= N -> 0 < D -> m = N / D -> l = loc_of N D ->
  exists mrs',
    shr_fexp prec emax m e l = (mrs', e + shift_of m e)
    /\ locates N (D * 2 ^ shift_of m e) mrs'.
Proof.
  intros HN HD Hm Hl.
  pose proof (loc_of_shr_record_of_loc m l) as [Hl' Hm'].
  assert (Hloc : locates N D (shr_record_of_loc m l)).
  { split; congruence. }
  unfold shr_fexp, shr, shift_of.
  destruct (fexp prec emax (Zdigits2 m + e) - e) as [|p|p] eqn:Hz.
  - exists (shr_record_of_loc m l). simpl.
    rewrite Z.add_0_r, Z.mul_1_r. auto.
  - exists (SpecFloat.iter_pos shr_1 p (shr_record_of_loc m l)).
    rewrite Z.max_r by lia. split; [reflexivity|].
    apply iter_pos_shr_1_locates; auto.
  - exists (shr_record_of_loc m l).
    rewrite Z.max_l by lia. simpl.
    rewrite Z.add_0_r, Z.mul_1_r. auto.
Qed.

Lemma round_nearest_even_rne (N D : Z) (mrs : shr_record) :
  0 < D -> locates N D mrs ->
  round_nearest_even (shr_m mrs) (loc_of_shr_record mrs) = rne N D.
Proof.
  intros HD [-> ->]. unfold loc_of, rne, round_nearest_even.
  destruct (Z.eqb_spec (N mod D) 0) as [E|E].
  - rewrite E. simpl. destruct D; try lia; reflexivity.
  - destruct (2 * (N mod D) ?= D); reflexivity.
Qed.

Lemma rne_bounds (N D : Z) : 0 < D -> N / D <= rne N D <= N / D + 1.
Proof.
  intros HD. unfold rne.
  destruct (2 * (N mod D) ?= D); [destruct (Z.even (N / D))| |]; lia.
Qed.

(** [binary_round_aux] on a located rational is [round_result]. *)
Lemma binary_round_aux_spec (sx : bool) (N D ex : Z) :
  0 <= N -> 0 < D ->
  binary_round_aux prec emax sx (N / D) ex (loc_of N D)
  = round_result sx N D ex.
Proof.
  intros HN HD. unfold binary_round_aux, round_result.
  destruct (shr_fexp_locates (N / D) ex (loc_of N D) N D HN HD eq_refl eq_refl)
    as (mrs1 & -> & Hloc1).
  set (n1 := shift_of (N / D) ex) in *.
  assert (Hn1 : 0 <= n1) by (unfold n1, shift_of; lia).
  assert (HD1 : 0 < D * 2 ^ n1).
  { pose proof (Z.pow_pos_nonneg 2 n1). nia. }
  rewrite (round_nearest_even_rne N (D * 2 ^ n1)) by auto.
  set (m1 := rne N (D * 2 ^ n1)).
  assert (Hm1 : 0 <= m1).
  { pose proof (rne_bounds N (D * 2 ^ n1) HD1).
    assert (0 <= N / (D * 2 ^ n1)) by (apply Z.div_pos; lia). unfold m1. lia. }
  destruct (shr_fexp_locates m1 (ex + n1) loc_Exact m1 1 Hm1 ltac:(lia))
    as (mrs2 & -> & [Hm2 _]).
  - rewrite Z.div_1_r. reflexivity.
  - unfold loc_of. rewrite Z.mod_1_r. reflexivity.
  - rewrite Hm2. rewrite Z.mul_1_l. reflexivity.
Qed.

Lemma Zdigits2_mono (a b : Z) : 0 <= a <= b -> Zdigits2 a <= Zdigits2 b.
Proof.
  intros [Ha Hab]. destruct (Z.eq_dec a 0) as [->|Hne].
  - simpl. apply Zdigits2_nonneg. lia.
  - rewrite !Zdigits2_log2 by lia.
    pose proof (Z.log2_le_mono a b Hab). lia.
Qed.

Lemma Zdigits2_succ (m : Z) : 0 <= m -> Zdigits2 (m + 1) <= Zdigits2 m + 1.
Proof.
  intros Hm. destruct (Z.eq_dec m 0) as [->|Hne]; [simpl; lia|].
  pose proof (Zdigits2_bounds m ltac:(lia)) as [_ Hu].
  pose proof (Zdigits2_nonneg m Hm).
  apply Zdigits2_le; try lia.
  rewrite Z.pow_add_r by lia. change (2 ^ 1) with 2. lia.
Qed.

Lemma Zdigits2_div_pow2 (m n : Z) :
  0 <= n -> 0 < m / 2 ^ n -> Zdigits2 (m / 2 ^ n) = Zdigits2 m - n.
Proof.
  intros Hn Hq.
  assert (Hp : 0 < 2 ^ n) by (apply Z.pow_pos_nonneg; lia).
  assert (Hm : 0 < m).
  { destruct (Z_lt_le_dec 0 m); auto.
    assert (m / 2 ^ n <= 0) by (apply Z.div_le_upper_bound; lia). lia. }
  rewrite !Zdigits2_log2 by lia.
  rewrite <- Z.shiftr_div_pow2 in * by lia.
  rewrite Z.log2_shiftr by lia.
  assert (n <= Z.log2 m).
  { destruct (Z_lt_le_dec (Z.log2 m) n) as [Hlt|]; [|lia].
    rewrite Z.shiftr_eq_0 in Hq; lia. }
  lia.
Qed.

Lemma Zdigits2_div_pow2_le (m n : Z) :
  0 <= n -> 0 <= m -> Zdigits2 (m / 2 ^ n) + n <= Z.max (Zdigits2 m) n.
Proof.
  intros Hn Hm.
  assert (Hp : 0 < 2 ^ n) by (apply Z.pow_pos_nonneg; lia).
  assert (Hq : 0 <= m / 2 ^ n) by (apply Z.div_pos; lia).
  destruct (Z.eq_dec (m / 2 ^ n) 0) as [E|E].
  - rewrite E. simpl. lia.
  - rewrite Zdigits2_div_pow2 by lia. lia.
Qed.

(** A value below [2 ^ B] rounds to zero or to a finite float below
    [2 ^ (B + 1)], whatever the sign: neither infinity nor NaN. *)
Lemma round_result_bound (sx : bool) (N D ex B : Z) :
  0 <= N -> 0 < D -> Zdigits2 (N / D) + ex <= B -> ex <= B ->
  -1021 <= B <= 1023 -> ex <= 970 ->
  match round_result sx N D ex with
  | S754_zero s => s = sx
  | S754_finite s m e =>
      s = sx /\ Zdigits2 (Z.pos m) + e <= B + 1 /\ e <= 971
  | _ => False
  end.
Proof.
  intros HN HD Hd Hex HB Hex'.
  unfold round_result.
  set (q := N / D) in *.
  assert (Hq : 0 <= q) by (apply Z.div_pos; lia).
  set (n1 := shift_of q ex).
  assert (Hn1 : 0 <= n1) by (unfold n1, shift_of; lia).
  assert (Hp1 : 0 < 2 ^ n1) by (apply Z.pow_pos_nonneg; lia).
  set (m1 := rne N (D * 2 ^ n1)).
  assert (HD1 : 0 < D * 2 ^ n1) by nia.
  pose proof (rne_bounds N (D * 2 ^ n1) HD1) as Hb1. fold m1 in Hb1.
  assert (Hqq : N / (D * 2 ^ n1) = q / 2 ^ n1).
  { unfold q. rewrite Z.div_div by lia. reflexivity. }
  rewrite Hqq in Hb1.
  assert (Hq' : 0 <= q / 2 ^ n1) by (apply Z.div_pos; lia).
  assert (Hm1 : 0 <= m1) by lia.
  assert (He1 : ex + n1 <= B /\ ex + n1 <= 970).
  { unfold n1, shift_of, fexp, emin, prec, emax. lia. }
  assert (Hdm1 : Zdigits2 m1 + (ex + n1) <= B + 1).
  { assert (Zdigits2 m1 <= Zdigits2 (q / 2 ^ n1) + 1).
    { etransitivity; [apply Zdigits2_mono with (b := q / 2 ^ n1 + 1); lia|].
      apply Zdigits2_succ; lia. }
    pose proof (Zdigits2_div_pow2_le q n1 Hn1 Hq). lia. }
  set (e1 := ex + n1) in *.
  set (n2 := shift_of m1 e1).
  assert (Hn2 : 0 <= n2) by (unfold n2, shift_of; lia).
  assert (He2 : e1 + n2 <= 971).
  { unfold n2, shift_of, fexp, emin, prec, emax. lia. }
  assert (Hp2 : 0 < 2 ^ n2) by (apply Z.pow_pos_nonneg; lia).
  destruct (m1 / 2 ^ n2) as [|m|m] eqn:Em.
  - reflexivity.
  - unfold emax, prec. destruct (Z.leb_spec (e1 + n2) (1024 - 53)); [|lia].
    split; [reflexivity|]. split; [|lia].
    rewrite <- Em. rewrite Zdigits2_div_pow2 by lia. lia.
  - assert (0 <= m1 / 2 ^ n2) by (apply Z.div_pos; lia). lia.
Qed.

Lemma new_location_loc_of (nb N : Z) :
  0 < nb -> new_location nb (N mod nb) = loc_of N nb.
Proof.
  intros Hnb. pose proof (Z.mod_pos_bound N nb Hnb) as Hr.
  unfold new_location, new_location_even, new_location_odd, loc_of.
  destruct (Z.even nb) eqn:Ev; [reflexivity|].
  destruct (Z.eqb_spec (N mod nb) 0); [reflexivity|].
  f_equal.
  assert (Hodd : Z.odd nb = true) by (rewrite <- Z.negb_even, Ev; reflexivity).
  apply Z.odd_spec in Hodd as [c Hc].
  destruct (Z.compare_spec (2 * (N mod nb) + 1) nb);
    symmetry; [apply Z.compare_lt_iff|apply Z.compare_lt_iff
              |apply Z.compare_gt_iff]; lia.
Qed.

Lemma SFdiv_int_spec (k n : positive) :
  SFdiv prec emax (S754_finite false k 0) (S754_finite false n 0)
  = round_result false
      (Z.pos k * 2 ^ (- div_exp (Z.pos k) (Z.pos n))) (Z.pos n)
      (div_exp (Z.pos k) (Z.pos n)).
Proof.
  unfold SFdiv, SFdiv_core_binary.
  rewrite !Z.add_0_r. change (0 - 0) with 0.
  fold (div_exp (Z.pos k) (Z.pos n)).
  set (e' := div_exp (Z.pos k) (Z.pos n)).
  assert (He : e' <= 0) by (unfold e', div_exp; lia).
  set (m' := match 0 - e' with
             | 0 => Z.pos k
             | Z.pos _ => Z.shiftl (Z.pos k) (0 - e')
             | Z.neg _ => 0
             end).
  assert (Hm' : m' = Z.pos k * 2 ^ (- e')).
  { unfold m'. replace (0 - e') with (- e') by lia.
    destruct (- e') as [|p|p] eqn:E; try lia.
    rewrite Z.shiftl_mul_pow2 by lia. reflexivity. }
  assert (Hdm : Z.div_eucl m' (Z.pos n) = (m' / Z.pos n, m' mod Z.pos n)).
  { unfold Z.div, Z.modulo. destruct (Z.div_eucl m' (Z.pos n)); reflexivity. }
  rewrite Hdm. simpl xorb.
  rewrite new_location_loc_of by lia.
  assert (0 <= m') by (rewrite Hm'; pose proof (Z.pow_pos_nonneg 2 (- e')); nia).
  rewrite binary_round_aux_spec by lia.
  rewrite Hm'. reflexivity.
Qed.

Lemma truediv_pos (k n : Z) :
  0 < k -> 0 < n ->
  truediv k n =
  match round_result false (k * 2 ^ (- div_exp k n)) n (div_exp k n) with
  | S754_infinity _ => inl OverflowError
  | q => inr q
  end.
Proof.
  intros Hk Hn. destruct k as [|k|k]; try lia. destruct n as [|n|n]; try lia.
  unfold truediv. simpl Z.abs. simpl Z.to_pos.
  change (Z.pos k <? 0) with false. change (Z.pos n <? 0) with false.
  rewrite SFdiv_int_spec. reflexivity.
Qed.

(** [k / n] for [0 < k <= n] is a float between 0 and 2. *)
Lemma truediv_le_one (k n : Z) :
  0 < k <= n ->
  truediv k n = inr (S754_zero false)
  \/ exists m e, truediv k n = inr (S754_finite false m e)
                 /\ Zdigits2 (Z.pos m) + e <= 2 /\ e <= 971.
Proof.
  intros [Hk Hkn]. rewrite truediv_pos by lia.
  set (e' := div_exp k n).
  assert (He : e' <= 0) by (unfold e', div_exp; lia).
  assert (He' : -1074 <= e').
  { unfold e', div_exp, fexp, emin, prec, emax. lia. }
  assert (Hp : 0 < 2 ^ (- e')) by (apply Z.pow_pos_nonneg; lia).
  pose proof (round_result_bound false (k * 2 ^ (- e')) n e' 1) as Hb.
  assert (Hd : Zdigits2 (k * 2 ^ (- e') / n) + e' <= 1).
  { assert (k * 2 ^ (- e') / n <= 2 ^ (- e')).
    { apply Z.div_le_upper_bound; nia. }
    assert (0 <= k * 2 ^ (- e') / n) by (apply Z.div_pos; nia).
    assert (Zdigits2 (k * 2 ^ (- e') / n) <= - e' + 1); [|lia].
    apply Zdigits2_le; try lia.
    rewrite Z.pow_add_r by lia. change (2 ^ 1) with 2. lia. }
  specialize (Hb ltac:(nia) ltac:(lia) Hd ltac:(lia) ltac:(lia) ltac:(lia)).
  destruct (round_result false (k * 2 ^ (- e')) n e') as [s|s| |s m e];
    try contradiction.
  - left. subst s. reflexivity.
  - right. destruct Hb as (-> & H1 & H2). exists m, e. auto.
Qed.

Lemma of_int_100 : of_int 100 = S754_finite false 7036874417766400 (-46).
Proof. reflexivity. Qed.

Lemma mul_int_100_finite (m : positive) (e : Z) :
  mul_int (S754_finite false m e) 100
  = round_result false (Z.pos m * 7036874417766400) 1 (e - 46).
Proof.
  unfold mul_int. rewrite of_int_100. unfold SFmul. simpl xorb.
  rewrite Pos2Z.inj_mul.
  pose proof (binary_round_aux_spec false
                (Z.pos m * 7036874417766400) 1 (e - 46)) as H.
  rewrite Z.div_1_r in H. unfold loc_of in H. rewrite Z.mod_1_r in H.
  simpl (0 =? 0) in H. replace (e + -46) with (e - 46) by lia.
  apply H; lia.
Qed.

Lemma to_int_defined (x : spec_float) :
  match x with S754_zero _ | S754_finite _ _ _ => True | _ => False end ->
  exists p, to_int x = inr p.
Proof. destruct x; simpl; intros H; try contradiction; eauto. Qed.

(** The progress value of the worker is always defined: for a count
    [k] between 1 and the total [n], [int(k / n * 100)] raises nothing. *)
Lemma percent_defined (k n : Z) :
  0 < k <= n -> exists p, percent k n = inr p.
Proof.
  intros H. unfold percent.
  destruct (truediv_le_one k n H) as [->|(m & e & -> & Hd & He)].
  - exists 0. reflexivity.
  - apply to_int_defined. rewrite mul_int_100_finite.
    pose proof (round_result_bound false
                  (Z.pos m * 7036874417766400) 1 (e - 46) 9) as Hb.
    rewrite Z.div_1_r in Hb.
    assert (Hm : Zdigits2 (Z.pos m * 7036874417766400) <= Zdigits2 (Z.pos m) + 53).
    { pose proof (Zdigits2_bounds (Z.pos m) ltac:(lia)) as [_ Hu].
      pose proof (Zdigits2_nonneg (Z.pos m) ltac:(lia)).
      apply Zdigits2_le; try lia.
      rewrite Z.pow_add_r by lia.
      assert (7036874417766400 < 2 ^ 53) by reflexivity. nia. }
    assert (H1 : 1 <= Zdigits2 (Z.pos m)).
    { apply Zdigits2_ge; simpl; lia. }
    specialize (Hb ltac:(lia) ltac:(lia) ltac:(lia) ltac:(lia) ltac:(lia)
                   ltac:(lia)).
    destruct (round_result false (Z.pos m * 7036874417766400) 1 (e - 46));
      auto.
Qed.

Lemma truediv_self (n : Z) :
  0 < n -> truediv n n = inr (S754_finite false 4503599627370496 (-52)).
Proof.
  intros Hn. rewrite truediv_pos by lia.
  assert (He : div_exp n n = -53).
  { unfold div_exp. rewrite Z.sub_diag. reflexivity. }
  rewrite He. change (- -53) with 53.
  unfold round_result.
  rewrite (Z.mul_comm n (2 ^ 53)), Z.div_mul by lia.
  change (shift_of (2 ^ 53) (-53)) with 1.
  assert (Hr : rne (2 ^ 53 * n) (n * 2 ^ 1) = 2 ^ 52).
  { replace (2 ^ 53 * n) with (2 ^ 52 * (n * 2 ^ 1))
      by (change (2 ^ 53) with (2 ^ 52 * 2); change (2 ^ 1) with 2; ring).
    unfold rne. change (2 ^ 1) with 2.
    rewrite Z.mod_mul, Z.div_mul by lia.
    destruct (Z.compare_spec (2 * 0) (n * 2)); try lia; reflexivity. }
  rewrite Hr. reflexivity.
Qed.

(** The last job of a batch reports exactly 100. *)
Lemma percent_self (n : Z) : 0 < n -> percent n n = inr 100.
Proof.
  intros Hn. unfold percent. rewrite truediv_self by lia. reflexivity.
Qed.

End FloatLemmas.

(** ** Rounding is monotone *)

Section RoundingMonotone.
Import PyFloat FloatFacts.

Lemma rne_scale (N D k : Z) : 0 < D -> 0 < k -> rne (N * k) (D * k) = rne N D.
Proof.
  intros HD Hk. unfold rne.
  rewrite Z.div_mul_cancel_r by lia.
  rewrite Zmult_mod_distr_r.
  replace (2 * (N mod D * k)) with (2 * (N mod D) * k) by ring.
  rewrite <- Zmult_compare_compat_r by lia. reflexivity.
Qed.

Lemma div_cross_mono (N1 D1 N2 D2 : Z) :
  0 < D1 -> 0 < D2 -> N1 * D2 <= N2 * D1 -> N1 / D1 <= N2 / D2.
Proof.
  intros H1 H2 H.
  apply Z.div_le_lower_bound; [lia|].
  pose proof (Z.mul_div_le N1 D1 H1) as Hf.
  assert (D1 * (D2 * (N1 / D1)) <= D1 * N2) by nia.
  apply Zmult_le_reg_r with (p := D1); [lia|]. nia.
Qed.

Lemma rne_mono (N1 D1 N2 D2 : Z) :
  0 < D1 -> 0 < D2 -> N1 * D2 <= N2 * D1 -> rne N1 D1 <= rne N2 D2.
Proof.
  intros H1 H2 H.
  pose proof (div_cross_mono N1 D1 N2 D2 H1 H2 H) as Hq.
  pose proof (rne_bounds N1 D1 H1) as Hb1.
  pose proof (rne_bounds N2 D2 H2) as Hb2.
  destruct (Z_lt_le_dec (N1 / D1) (N2 / D2)) as [Hlt|Hge]; [lia|].
  assert (Eq : N1 / D1 = N2 / D2) by lia.
  pose proof (Z.div_mod N1 D1 ltac:(lia)) as E1.
  pose proof (Z.div_mod N2 D2 ltac:(lia)) as E2.
  pose proof (Z.mod_pos_bound N1 D1 H1) as R1.
  pose proof (Z.mod_pos_bound N2 D2 H2) as R2.
  assert (Hr : N1 mod D1 * D2 <= N2 mod D2 * D1) by nia.
  unfold rne in *. rewrite <- Eq in *.
  destruct (Z.compare_spec (2 * (N1 mod D1)) D1) as [C1|C1|C1];
    destruct (Z.compare_spec (2 * (N2 mod D2)) D2) as [C2|C2|C2];
    try destruct (Z.even (N1 / D1)); try lia; exfalso; nia.
Qed.

Lemma rne_le_int (N D c : Z) : 0 < D -> N <= c * D -> rne N D <= c.
Proof.
  intros HD H.
  pose proof (Z.div_mod N D ltac:(lia)) as E.
  pose proof (Z.mod_pos_bound N D HD) as R.
  assert (Hq : N / D <= c) by (apply Z.div_le_upper_bound; lia).
  unfold rne.
  destruct (Z.compare_spec (2 * (N mod D)) D) as [C|C|C];
    try destruct (Z.even (N / D)); try lia;
    (destruct (Z.eq_dec (N / D) c) as [Ec|Ec]; [exfalso; nia|lia]).
Qed.

Lemma rne_ge_int (N D c : Z) : 0 < D -> c * D <= N -> c <= rne N D.
Proof.
  intros HD H. pose proof (rne_bounds N D HD).
  assert (c <= N / D) by (apply Z.div_le_lower_bound; lia). lia.
Qed.

Lemma pow2_pos (n : Z) : 0 <= n -> 0 < 2 ^ n.
Proof. intros H. apply Z.pow_pos_nonneg; lia. Qed.

Lemma pow2_le (a b : Z) : a <= b -> 2 ^ a <= 2 ^ b.
Proof. intros H. apply Z.pow_le_mono_r; lia. Qed.

Lemma Zdigits2_upper (m : Z) : 0 <= m -> m < 2 ^ Zdigits2 m.
Proof.
  intros H. destruct (Z.eq_dec m 0) as [->|Hne]; [reflexivity|].
  apply Zdigits2_bounds. lia.
Qed.

Lemma grain_eq (q : Z) : grain q = Z.max (Zdigits2 q - 53) 46.
Proof. reflexivity. Qed.

Lemma round_scaled_mono (N1 D1 N2 D2 : Z) :
  0 <= N1 -> 0 < D1 -> 0 < D2 -> N1 * D2 <= N2 * D1 ->
  round_scaled N1 D1 <= round_scaled N2 D2.
Proof.
  intros HN1 H1 H2 H.
  assert (HN2 : 0 <= N2) by nia.
  pose proof (div_cross_mono N1 D1 N2 D2 H1 H2 H) as Hq.
  assert (Hq1 : 0 <= N1 / D1) by (apply Z.div_pos; lia).
  pose proof (Zdigits2_mono (N1 / D1) (N2 / D2) ltac:(lia)) as Hd.
  unfold round_scaled. rewrite !grain_eq.
  set (q1 := N1 / D1) in *. set (q2 := N2 / D2) in *.
  set (d1 := Zdigits2 q1) in *. set (d2 := Zdigits2 q2) in *.
  set (g1 := Z.max (d1 - 53) 46). set (g2 := Z.max (d2 - 53) 46).
  assert (Hg1 : 46 <= g1) by (unfold g1; lia).
  assert (Hg2 : 46 <= g2) by (unfold g2; lia).
  pose proof (pow2_pos g1 ltac:(lia)) as P1.
  pose proof (pow2_pos g2 ltac:(lia)) as P2.
  assert (Hd1 : 0 <= d1) by (apply Zdigits2_nonneg; lia).
  destruct (Z.eq_dec g1 g2) as [Eg|Ng].
  - rewrite <- Eg.
    apply Z.mul_le_mono_nonneg_r; [lia|].
    apply rne_mono; nia.
  - assert (Hlt : g1 < g2) by (unfold g1, g2 in *; lia).
    assert (Eg2 : g2 = d2 - 53) by (unfold g1, g2 in *; lia).
    assert (Hd12 : d1 < d2) by (unfold g1, g2 in *; lia).
    pose proof (Z.mul_div_le N2 D2 H2) as Hf2. fold q2 in Hf2.
    pose proof (Z.mul_div_le N1 D1 H1) as Hf1. fold q1 in Hf1.
    pose proof (Z.mul_succ_div_gt N1 D1 H1) as Hc1. fold q1 in Hc1.
    assert (Hq2 : 0 < q2).
    { destruct (Z.eq_dec q2 0) as [E0|]; [|lia].
      unfold d2 in Eg2. rewrite E0 in Eg2. simpl in Eg2. lia. }
    pose proof (Zdigits2_bounds q2 Hq2) as [Hlo2 _]. fold d2 in Hlo2.
    pose proof (Zdigits2_upper q1 Hq1) as Hup1. fold d1 in Hup1.
    assert (E52 : 2 ^ (d2 - 1) = 2 ^ 52 * 2 ^ g2).
    { rewrite <- Z.pow_add_r by lia. f_equal. lia. }
    transitivity (2 ^ 52 * 2 ^ g2).
    + (* the smaller value stays below the next power of two *)
      destruct (Z_le_gt_dec g1 d1) as [Hge|Hgt].
      * assert (Hr : rne N1 (D1 * 2 ^ g1) <= 2 ^ (d1 - g1)).
        { apply rne_le_int; [nia|].
          replace (2 ^ (d1 - g1) * (D1 * 2 ^ g1)) with (2 ^ d1 * D1).
          - nia.
          - replace d1 with ((d1 - g1) + g1) at 1 by lia.
            rewrite Z.pow_add_r by lia. ring. }
        assert (2 ^ (d1 - g1) * 2 ^ g1 = 2 ^ d1).
        { rewrite <- Z.pow_add_r by lia. f_equal. lia. }
        pose proof (pow2_le d1 (d2 - 1) ltac:(lia)).
        pose proof (pow2_pos (d1 - g1) ltac:(lia)).
        nia.
      * assert (Hr : rne N1 (D1 * 2 ^ g1) <= 1).
        { apply rne_le_int; [nia|].
          pose proof (pow2_le d1 g1 ltac:(lia)). nia. }
        pose proof (pow2_le g1 g2 ltac:(lia)).
        assert (1 <= 2 ^ 52) by (apply Z.leb_le; reflexivity).
        assert (0 <= rne N1 (D1 * 2 ^ g1)).
        { pose proof (rne_bounds N1 (D1 * 2 ^ g1) ltac:(nia)).
          assert (0 <= N1 / (D1 * 2 ^ g1)) by (apply Z.div_pos; nia). lia. }
        nia.
    + apply Z.mul_le_mono_nonneg_r; [lia|].
      apply rne_ge_int; [nia|].
      rewrite Z.mul_assoc, (Z.mul_comm (2 ^ 52)), <- Z.mul_assoc, <- E52. nia.
Qed.

Lemma Zdigits2_mul_pow2 (N D t : Z) :
  0 < D -> 0 <= t -> 0 < N / D ->
  Zdigits2 (N * 2 ^ t / D) = Zdigits2 (N / D) + t.
Proof.
  intros HD Ht Hq.
  pose proof (Zdigits2_bounds (N / D) Hq) as [Hlo Hhi].
  set (d := Zdigits2 (N / D)) in *.
  assert (Hd : 1 <= d).
  { destruct (Z_lt_le_dec d 1) as [Hlt|]; [|lia].
    assert (2 ^ d <= 2 ^ 0) by (apply pow2_le; lia).
    change (2 ^ 0) with 1 in *. lia. }
  pose proof (pow2_pos t Ht) as Pt.
  pose proof (pow2_pos (d - 1) ltac:(lia)) as Pd.
  assert (HloN : 2 ^ (d - 1) * D <= N).
  { pose proof (Z.mul_div_le N D HD). nia. }
  assert (HhiN : N < 2 ^ d * D).
  { pose proof (Z.mul_succ_div_gt N D HD). nia. }
  assert (E1 : 2 ^ (d + t - 1) = 2 ^ (d - 1) * 2 ^ t).
  { rewrite <- Z.pow_add_r by lia. f_equal. lia. }
  assert (E2 : 2 ^ (d + t) = 2 ^ d * 2 ^ t).
  { rewrite <- Z.pow_add_r by lia. reflexivity. }
  assert (L : 2 ^ (d + t - 1) <= N * 2 ^ t / D).
  { apply Z.div_le_lower_bound; [lia|]. rewrite E1. nia. }
  assert (U : N * 2 ^ t / D < 2 ^ (d + t)).
  { apply Z.div_lt_upper_bound; [lia|]. rewrite E2. nia. }
  pose proof (pow2_pos (d + t - 1) ltac:(lia)).
  apply Z.le_antisymm.
  - apply Zdigits2_le; lia.
  - apply Zdigits2_ge; lia.
Qed.

Lemma Zdigits2_small (N D t : Z) :
  0 < D -> 0 <= t -> 0 <= N < D -> Zdigits2 (N * 2 ^ t / D) <= t.
Proof.
  intros HD Ht HN. pose proof (pow2_pos t Ht).
  apply Zdigits2_le; [apply Z.div_pos; nia|lia|].
  apply Z.div_lt_upper_bound; nia.
Qed.

Lemma fexp_eq (x : Z) : fexp prec emax x = Z.max (x - 53) (-1074).
Proof. reflexivity. Qed.

Lemma shift_of_eq (m e : Z) :
  shift_of m e = Z.max 0 (Z.max (Zdigits2 m + e - 53) (-1074) - e).
Proof. reflexivity. Qed.

(** [round_result] on a rational with enough digits, below the overflow
    threshold: the float it returns, read as a scaled integer, is
    [round_scaled] of the scaled rational. *)
Lemma round_result_scaled (N D ex : Z) :
  0 <= N -> 0 < D -> - scale <= ex ->
  ex <= fexp prec emax (Zdigits2 (N / D) + ex) ->
  Zdigits2 (N / D) + ex <= 1000 ->
  scaled (round_result false N D ex) = round_scaled (N * 2 ^ (ex + scale)) D
  /\ match round_result false N D ex with
     | S754_zero _ => True
     | S754_finite s m e => s = false /\ -1074 <= e
     | _ => False
     end.
Proof.
  intros HN HD Hex Hcanon Hmag.
  unfold scale in *. rewrite fexp_eq in Hcanon.
  set (q := N / D) in *.
  assert (Hq : 0 <= q) by (apply Z.div_pos; lia).
  set (dq := Zdigits2 q) in *.
  assert (Hdq : 0 <= dq) by (apply Zdigits2_nonneg; lia).
  set (E := Z.max (dq + ex - 53) (-1074)) in *.
  assert (HE : -1074 <= E <= 947) by (unfold E; lia).
  assert (A1 : shift_of q ex = E - ex).
  { rewrite shift_of_eq. fold dq. fold E. lia. }
  set (n1 := E - ex) in *.
  assert (Hn1 : 0 <= n1) by (unfold n1; lia).
  pose proof (pow2_pos n1 Hn1) as Pn1.
  set (m1 := rne N (D * 2 ^ n1)).
  assert (HD1 : 0 < D * 2 ^ n1) by nia.
  (* the rounded mantissa has at most 53 bits, or is exactly 2^53 *)
  assert (Hm1 : 0 <= m1 <= 2 ^ 53).
  { pose proof (rne_bounds N (D * 2 ^ n1) HD1) as Hb. fold m1 in Hb.
    assert (Hqq : N / (D * 2 ^ n1) = q / 2 ^ n1).
    { unfold q. rewrite Z.div_div by lia. reflexivity. }
    rewrite Hqq in Hb.
    assert (0 <= q / 2 ^ n1) by (apply Z.div_pos; lia).
    assert (q / 2 ^ n1 < 2 ^ 53).
    { pose proof (Zdigits2_div_pow2_le q n1 Hn1 Hq) as Hl. fold dq in Hl.
      pose proof (Zdigits2_upper (q / 2 ^ n1) ltac:(lia)) as Hu.
      assert (Zdigits2 (q / 2 ^ n1) <= 53) by (unfold n1, E in *; lia).
      pose proof (pow2_le (Zdigits2 (q / 2 ^ n1)) 53 ltac:(lia)). lia. }
    lia. }
  (* the scaled side *)
  assert (A2 : grain (N * 2 ^ (ex + 1120) / D) = E + 1120).
  { rewrite grain_eq.
    destruct (Z.eq_dec q 0) as [E0|N0].
    - assert (dq = 0) by (unfold dq; rewrite E0; reflexivity).
      assert (HND : 0 <= N < D).
      { split; [lia|]. apply Z.div_small_iff in E0; lia. }
      pose proof (Zdigits2_small N D (ex + 1120) HD ltac:(lia) HND).
      unfold E in *. lia.
    - rewrite Zdigits2_mul_pow2 by (fold q; lia). fold q. fold dq.
      unfold E. lia. }
  assert (A3 : rne (N * 2 ^ (ex + 1120)) (D * 2 ^ (E + 1120)) = m1).
  { replace (D * 2 ^ (E + 1120)) with (D * 2 ^ n1 * 2 ^ (ex + 1120)).
    - apply rne_scale; [lia|apply pow2_pos; lia].
    - rewrite <- Z.mul_assoc, <- Z.pow_add_r by lia. do 2 f_equal.
      unfold n1. lia. }
  assert (RHS : round_scaled (N * 2 ^ (ex + 1120)) D = m1 * 2 ^ (E + 1120)).
  { unfold round_scaled. rewrite A2, A3. reflexivity. }
  rewrite RHS.
  (* the float side *)
  unfold round_result. fold q. rewrite A1. fold m1.
  replace (ex + n1) with E by (unfold n1; lia).
  destruct (Z.eq_dec m1 (2 ^ 53)) as [Etop|Ntop].
  - rewrite Etop.
    assert (A4 : shift_of (2 ^ 53) E = 1).
    { rewrite shift_of_eq. change (Zdigits2 (2 ^ 53)) with 54. lia. }
    rewrite A4. change (2 ^ 53 / 2 ^ 1) with (Z.pos 4503599627370496).
    cbv iota beta.
    destruct (Z.leb_spec (E + 1) (emax - prec)) as [_|Hbad];
      [|unfold emax, prec in Hbad; lia].
    simpl scaled. unfold scale. split; [|split; [reflexivity|lia]].
    replace (E + 1 + 1120) with (1 + (E + 1120)) by lia.
    rewrite Z.pow_add_r by lia. change (2 ^ 53) with (4503599627370496 * 2 ^ 1).
    ring.
  - assert (Hlt : m1 < 2 ^ 53) by lia.
    assert (A4 : shift_of m1 E = 0).
    { rewrite shift_of_eq.
      assert (Zdigits2 m1 <= 53) by (apply Zdigits2_le; lia). lia. }
    rewrite A4. change (2 ^ 0) with 1. rewrite Z.div_1_r, Z.add_0_r.
    destruct m1 as [|p|p] eqn:Em; [| |lia].
    + simpl. split; [reflexivity|exact I].
    + destruct (Z.leb_spec E (emax - prec)) as [_|Hbad];
        [|unfold emax, prec in Hbad; lia].
      simpl scaled. unfold scale. split; [reflexivity|].
      split; [reflexivity|lia].
Qed.

Lemma round_scaled_nonneg (N D : Z) : 0 <= N -> 0 < D -> 0 <= round_scaled N D.
Proof.
  intros HN HD. unfold round_scaled. rewrite grain_eq.
  set (g := Z.max _ 46). pose proof (pow2_pos g ltac:(unfold g; lia)).
  pose proof (rne_bounds N (D * 2 ^ g) ltac:(nia)).
  assert (0 <= N / (D * 2 ^ g)) by (apply Z.div_pos; nia). nia.
Qed.

Lemma div_exp_eq (k n : Z) :
  0 < k <= n ->
  div_exp k n = Z.max (Zdigits2 k - Zdigits2 n - 53) (-1074).
Proof.
  intros H. unfold div_exp. rewrite fexp_eq.
  pose proof (Zdigits2_mono k n ltac:(lia)). lia.
Qed.

(** [k / n] as a scaled integer. *)
Lemma truediv_scaled (k n : Z) :
  0 < k <= n ->
  exists f, truediv k n = inr f
            /\ scaled f = round_scaled (k * 2 ^ scale) n
            /\ match f with
               | S754_zero s => s = false
               | S754_finite s m e =>
                   s = false /\ -1074 <= e /\ Zdigits2 (Z.pos m) + e <= 2
               | _ => False
               end.
Proof.
  intros H. pose proof (truediv_le_one k n H) as Hle.
  rewrite truediv_pos in * by lia.
  pose proof (div_exp_eq k n H) as He.
  set (e' := div_exp k n) in *.
  set (d1 := Zdigits2 k) in *. set (d2 := Zdigits2 n) in *.
  assert (Hd1 : 1 <= d1) by (apply Zdigits2_ge; simpl; lia).
  pose proof (Zdigits2_mono k n ltac:(lia)) as Hd12. fold d1 d2 in Hd12.
  assert (Hs : 53 <= - e' <= 1074) by lia.
  pose proof (pow2_pos (- e') ltac:(lia)) as Ps.
  set (q := k * 2 ^ (- e') / n).
  assert (Hq : 0 <= q) by (apply Z.div_pos; nia).
  assert (Hqle : q <= 2 ^ (- e')) by (apply Z.div_le_upper_bound; nia).
  assert (Hdq : Zdigits2 q + e' <= 1).
  { assert (Zdigits2 q <= - e' + 1); [|lia].
    apply Zdigits2_le; try lia.
    rewrite Z.pow_add_r by lia. change (2 ^ 1) with 2. lia. }
  assert (Hcanon : e' <= fexp prec emax (Zdigits2 q + e')).
  { rewrite fexp_eq.
    destruct (Z.eq_dec e' (-1074)) as [->|Hne]; [lia|].
    assert (Es : - e' = 53 + d2 - d1) by lia.
    assert (2 ^ 52 <= q).
    { apply Z.div_le_lower_bound; [lia|].
      pose proof (Zdigits2_bounds k ltac:(lia)) as [Hk _]. fold d1 in Hk.
      pose proof (Zdigits2_upper n ltac:(lia)) as Hn. fold d2 in Hn.
      rewrite Es.
      replace (53 + d2 - d1) with (52 + d2 - (d1 - 1)) by lia.
      assert (E3 : 2 ^ (d1 - 1) * 2 ^ (52 + d2 - (d1 - 1)) = 2 ^ 52 * 2 ^ d2).
      { rewrite <- !Z.pow_add_r by lia. f_equal. lia. }
      pose proof (pow2_pos (52 + d2 - (d1 - 1)) ltac:(lia)).
      pose proof (pow2_pos (d1 - 1) ltac:(lia)).
      nia. }
    assert (53 <= Zdigits2 q) by (apply Zdigits2_ge; [lia|assumption]).
    lia. }
  destruct (round_result_scaled (k * 2 ^ (- e')) n e'
              ltac:(nia) ltac:(lia) ltac:(unfold scale; lia) Hcanon
              ltac:(fold q; lia)) as [Hsc Hshape].
  assert (Hk : k * 2 ^ (- e') * 2 ^ (e' + scale) = k * 2 ^ scale).
  { rewrite <- Z.mul_assoc, <- Z.pow_add_r by (unfold scale; lia).
    do 2 f_equal. lia. }
  rewrite Hk in Hsc.
  destruct (round_result false (k * 2 ^ (- e')) n e') as [s|s| |s m e];
    try contradiction.
  - exists (S754_zero s). split; [reflexivity|]. split; [exact Hsc|].
    destruct Hle as [Hz|(m & e & Hf & _)]; congruence.
  - exists (S754_finite s m e). split; [reflexivity|]. split; [exact Hsc|].
    destruct Hshape as [-> He1].
    destruct Hle as [Hz|(m' & e0 & Hf & Hd & _)]; [discriminate|].
    injection Hf as <- <-. auto.
Qed.

Lemma mul_100_scaled (m : positive) (e : Z) :
  -1074 <= e -> Zdigits2 (Z.pos m) + e <= 2 ->
  scaled (mul_int (S754_finite false m e) 100)
  = round_scaled (100 * scaled (S754_finite false m e)) 1
  /\ match mul_int (S754_finite false m e) 100 with
     | S754_zero _ => True
     | S754_finite s m' e' => s = false /\ -1074 <= e'
     | _ => False
     end.
Proof.
  intros He Hd. rewrite mul_int_100_finite.
  set (N := Z.pos m * 7036874417766400).
  assert (HN : 2 ^ 52 <= N).
  { unfold N. assert (2 ^ 52 <= 7036874417766400) by (apply Z.leb_le; reflexivity).
    nia. }
  assert (P52 : 0 < 2 ^ 52) by reflexivity.
  assert (Hlo : 53 <= Zdigits2 N) by (apply Zdigits2_ge; [lia|assumption]).
  assert (Hhi : Zdigits2 N <= Zdigits2 (Z.pos m) + 53).
  { pose proof (Zdigits2_upper (Z.pos m) ltac:(lia)) as Hu.
    pose proof (Zdigits2_nonneg (Z.pos m) ltac:(lia)).
    apply Zdigits2_le; try lia.
    rewrite Z.pow_add_r by lia.
    assert (7036874417766400 < 2 ^ 53) by reflexivity. unfold N. nia. }
  destruct (round_result_scaled N 1 (e - 46)) as [Hsc Hshape];
    try (rewrite ?Z.div_1_r, ?fexp_eq; unfold scale; lia).
  split; [|exact Hshape].
  rewrite Hsc. f_equal. unfold N, scaled, scale.
  replace (e - 46 + 1120) with (e + 1074) by lia.
  replace (e + 1120) with (46 + (e + 1074)) by lia.
  rewrite (Z.pow_add_r 2 46) by lia.
  change 7036874417766400 with (100 * 2 ^ 46). ring.
Qed.

Lemma to_int_scaled (f : spec_float) :
  match f with
  | S754_zero _ => True
  | S754_finite s m e => s = false /\ - scale <= e
  | _ => False
  end ->
  to_int f = inr (scaled f / 2 ^ scale).
Proof.
  destruct f as [s|s| |s m e]; try contradiction.
  - intros _. reflexivity.
  - intros [-> He]. unfold scale in *. simpl to_int. unfold scaled, scale.
    f_equal. destruct e as [|p|p].
    + rewrite Z.pow_0_r, Z.add_0_l, Z.div_mul by (apply Z.pow_nonzero; lia).
      lia.
    + rewrite Z.pow_add_r, Z.mul_assoc, Z.div_mul
        by (try apply Z.pow_nonzero; lia). reflexivity.
    + assert (E : 2 ^ 1120 = 2 ^ Z.pos p * 2 ^ (Z.neg p + 1120)).
      { rewrite <- Z.pow_add_r by lia. f_equal. lia. }
      rewrite E.
      rewrite Z.div_mul_cancel_r; [reflexivity| |];
        apply Z.pow_nonzero; lia.
Qed.

(** The progress value in integer arithmetic. *)
Lemma percent_value_scaled (k n : Z) :
  0 < k <= n ->
  percent_value k n
  = round_scaled (100 * round_scaled (k * 2 ^ scale) n) 1 / 2 ^ scale.
Proof.
  intros H. unfold percent_value, percent.
  destruct (truediv_scaled k n H) as (f & -> & Hsc & Hshape).
  rewrite <- Hsc.
  destruct f as [s|s| |s m e]; try contradiction.
  - subst s. reflexivity.
  - destruct Hshape as (-> & He & Hd).
    destruct (mul_100_scaled m e He Hd) as [Hm Hs2].
    rewrite to_int_scaled.
    + rewrite Hm. reflexivity.
    + destruct (mul_int (S754_finite false m e) 100) as [s2|s2| |s2 m2 e2];
        try contradiction; auto.
      destruct Hs2 as [-> ?]. unfold scale. split; [reflexivity|lia].
Qed.

(** The progress value never decreases with the count. *)
Theorem percent_value_mono (k1 k2 n : Z) :
  0 < k1 <= k2 -> k2 <= n -> percent_value k1 n <= percent_value k2 n.
Proof.
  intros H12 H2n.
  rewrite !percent_value_scaled by lia.
  pose proof (pow2_pos scale ltac:(unfold scale; lia)) as Ps.
  apply Z.div_le_mono; [exact Ps|].
  assert (HW : round_scaled (k1 * 2 ^ scale) n <= round_scaled (k2 * 2 ^ scale) n).
  { apply round_scaled_mono.
    - apply Z.mul_nonneg_nonneg; lia.
    - lia.
    - lia.
    - apply Z.mul_le_mono_nonneg_r; [lia|].
      apply Z.mul_le_mono_nonneg_r; lia. }
  pose proof (round_scaled_nonneg (k1 * 2 ^ scale) n
                ltac:(apply Z.mul_nonneg_nonneg; lia) ltac:(lia)).
  apply round_scaled_mono; lia.
Qed.

End RoundingMonotone.

(** ** The worker loop, in closed form *)

Section WorkerLemmas.
Import ConversionThread.
Variable lib : Pydub.

Local Opaque PyFloat.percent.

Lemma percent_value_eq (k n : Z) :
  0 < k <= n -> PyFloat.percent k n = inr (PyFloat.percent_value k n).
Proof.
  intros H. destruct (percent_defined k n H) as [p Hp].
  unfold PyFloat.percent_value. rewrite Hp. reflexivity.
Qed.

(** One iteration: the pydub calls decide; the arithmetic never raises. *)
Lemma convert_eq (total_files i : Z) (x : string) (st : State) :
  0 <= i < total_files ->
  convert lib total_files i x st =
  match transcode lib (fs st) x (output_file_of (output_dir (self st)) x) with
  | inr files' =>
      (inr tt,
       {| self := self st; fs := files';
          emitted := emitted st
                       ++ job_signals (output_dir (self st)) total_files i x;
          opened := opened st ++ [x] |})
  | inl (e, files') =>
      (inl e,
       {| self := self st; fs := files'; emitted := emitted st;
          opened := opened st ++ [x] |})
  end.
Proof.
  intros Hi.
  unfold convert, from_file, export, transcode, job_signals.
  unfold mbind, M_bind, mret, M_ret, gets, lift, raise, log_open, set_fs, emit.
  simpl.
  destruct (fs st !! x) as [bytes|]; simpl; [|reflexivity].
  destruct (read_error lib (fs st) x) as [e|]; simpl; [reflexivity|].
  destruct (decode lib "m4a" bytes) as [e|audio]; simpl; [reflexivity|].
  destruct (write_error lib (fs st) _ _) as [[e files']|]; simpl;
    [reflexivity|].
  rewrite percent_value_eq by lia. simpl.
  rewrite <- app_assoc. reflexivity.
Qed.

Lemma for_enumerate_convert_eq (total_files : Z) (inputs : list string) :
  forall (i : Z) (st : State),
    0 <= i -> i + Z.of_nat (length inputs) <= total_files ->
    for_enumerate (convert lib total_files) i inputs st =
    let dir := output_dir (self st) in
    let '(n, files', r) := transcode_all lib dir (fs st) inputs in
    (match r with Some e => inl e | None => inr tt end,
     {| self := self st; fs := files';
        emitted := emitted st
                     ++ batch_signals dir total_files i (take n inputs);
        opened := opened st
                    ++ take (match r with Some _ => S n | None => n end)
                            inputs |}).
Proof.
  induction inputs as [|x rest IH]; intros i st Hi Hlen.
  - simpl. unfold mret, M_ret. rewrite !app_nil_r. destruct st; reflexivity.
  - simpl length in Hlen. simpl for_enumerate.
    unfold mbind, M_bind at 1.
    rewrite convert_eq by lia.
    simpl transcode_all.
    destruct (transcode lib (fs st) x _) as [[e files']|files'].
    + simpl. rewrite app_nil_r. reflexivity.
    + rewrite IH by (simpl; lia). simpl.
      destruct (transcode_all lib _ files' rest) as [[n files''] [e|]];
        simpl; rewrite <- !app_assoc; simpl; reflexivity.
Qed.

(** [run] from a fresh start, as one equation. *)
Theorem run_eq (th : t) (files : Fs) :
  run lib (start th files) =
  let inputs := input_files th in
  let dir := output_dir th in
  let total_files := Z.of_nat (length inputs) in
  let '(n, files', r) := transcode_all lib dir files inputs in
  match r with
  | Some e =>
      (inl e,
       {| self := th; fs := files';
          emitted := batch_signals dir total_files 0 (take n inputs);
          opened := take (S n) inputs |})
  | None =>
      (inr tt,
       {| self := th; fs := files';
          emitted := batch_signals dir total_files 0 (take n inputs)
                       ++ [Signal.finished];
          opened := take n inputs |})
  end.
Proof.
  unfold run. unfold mbind, M_bind at 1. unfold gets at 1. simpl.
  unfold mbind, M_bind at 1.
  rewrite for_enumerate_convert_eq by (simpl; lia). simpl.
  destruct (transcode_all lib _ files _) as [[n files'] [e|]]; reflexivity.
Qed.

Lemma transcode_all_count (dir : string) (inputs : list string) :
  forall files,
    let '(n, _, r) := transcode_all lib dir files inputs in
    match r with
    | Some _ => (n < length inputs)%nat
    | None => n = length inputs
    end.
Proof.
  induction inputs as [|x rest IH]; intros files; simpl; [reflexivity|].
  destruct (transcode lib files x _) as [[e files']|files']; [lia|].
  specialize (IH files').
  destruct (transcode_all lib dir files' rest) as [[n f] [e|]]; simpl; lia.
Qed.

End WorkerLemmas.

(** ** Paths *)

Section PathLemmas.
Import PyStr PosixPath.

Lemma rfind_range (c : ascii) (s : string) : -1 <= rfind c s < len s.
Proof.
  unfold len. induction s as [|a s IH]; simpl String.length; simpl rfind.
  - lia.
  - destruct (Z.leb_spec 0 (rfind c s)); [lia|].
    destruct (Ascii.eqb a c); lia.
Qed.

Lemma str_take_drop (n : nat) (s : string) : take n s +:+ drop n s = s.
Proof.
  revert s. induction n as [|n IH]; intros [|a s]; simpl; try reflexivity.
  change (String a (take n s +:+ drop n s) = String a s).
  f_equal. apply IH.
Qed.

Lemma append_empty_r (s : string) : s +:+ "" = s.
Proof.
  induction s as [|a s IH]; [reflexivity|].
  change (String a (s +:+ "") = String a s). f_equal. apply IH.
Qed.

Lemma clamp_nonneg (s : string) (i : Z) :
  0 <= i <= len s -> clamp s i = Z.to_nat i.
Proof.
  intros H. unfold clamp. destruct (Z.ltb_spec i 0); [lia|].
  rewrite Z.min_r by lia. reflexivity.
Qed.

(** Nothing after the last separator contains a separator. *)
Lemma rfind_drop_after (c : ascii) (s : string) :
  rfind c (drop (Z.to_nat (rfind c s + 1)) s) = -1.
Proof.
  induction s as [|a s IH]; [reflexivity|].
  pose proof (rfind_range c s) as Hr. simpl rfind.
  destruct (Z.leb_spec 0 (rfind c s)) as [H|H].
  - replace (Z.to_nat (rfind c s + 1 + 1)) with (S (Z.to_nat (rfind c s + 1)))
      by lia.
    simpl. exact IH.
  - assert (E : rfind c s = -1) by lia.
    destruct (Ascii.eqb a c) eqn:Eac.
    + simpl. exact E.
    + simpl. rewrite E. simpl. rewrite Eac. reflexivity.
Qed.

Lemma basename_eq (p : string) :
  basename p = drop (Z.to_nat (rfind sep p + 1)) p.
Proof.
  unfold basename, slice_from.
  pose proof (rfind_range sep p). rewrite clamp_nonneg by lia. reflexivity.
Qed.

(** [basename] returns a name without a separator. *)
Lemma rfind_basename (p : string) : rfind sep (basename p) = -1.
Proof. rewrite basename_eq. apply rfind_drop_after. Qed.

Lemma rfind_none_cons (c a : ascii) (s : string) :
  rfind c (String a s) = -1 -> Ascii.eqb a c = false /\ rfind c s = -1.
Proof.
  simpl. pose proof (rfind_range c s).
  destruct (Z.leb_spec 0 (rfind c s)); [lia|].
  destruct (Ascii.eqb a c); [lia|]. split; [reflexivity|lia].
Qed.

Lemma rfind_take_none (c : ascii) (n : nat) :
  forall s, rfind c s = -1 -> rfind c (take n s) = -1.
Proof.
  induction n as [|n IH]; intros [|a s] H; simpl take; try reflexivity.
  apply rfind_none_cons in H as [Ha Hs].
  simpl. rewrite (IH s Hs). simpl. rewrite Ha. reflexivity.
Qed.

(** [splitext] cuts its argument in two: root + ext == p. *)
Lemma splitext_concat (p : string) :
  fst (splitext p) +:+ snd (splitext p) = p.
Proof.
  unfold splitext.
  destruct (_ && _); simpl.
  - unfold slice_to, slice_from. apply str_take_drop.
  - unfold slice_to. rewrite clamp_nonneg by (unfold len; lia).
    simpl. apply append_empty_r.
Qed.

(** The root of a name without separators has none either. *)
Lemma rfind_splitext_root (p : string) :
  rfind sep p = -1 -> rfind sep (fst (splitext p)) = -1.
Proof.
  intros H. unfold splitext.
  destruct (_ && _); simpl; [|exact H].
  unfold slice_to. apply rfind_take_none. exact H.
Qed.

Lemma startswith_append_none (s t : string) :
  rfind sep s = -1 -> startswith t sep = false ->
  startswith (s +:+ t) sep = false.
Proof.
  destruct s as [|a s]; [auto|].
  intros H _. apply rfind_none_cons in H as [Ha _].
  change (Ascii.eqb a sep = false). exact Ha.
Qed.

Lemma wav_name_not_absolute (input_file : string) :
  startswith (fst (splitext (basename input_file)) +:+ ".wav") sep = false.
Proof.
  apply startswith_append_none; [|reflexivity].
  apply rfind_splitext_root, rfind_basename.
Qed.


End PathLemmas.

(** ** The cache of the main window *)

Section WindowLemmas.
Import MainWindow.

Lemma lookup_file_converted (o c : string) (w : t) :
  lookup o (file_converted o c w) = Some c.
Proof. unfold lookup, file_converted. simpl. apply lookup_insert_eq. Qed.

Lemma lookup_file_converted_ne (o c p : string) (w : t) :
  o <> p -> lookup p (file_converted o c w) = lookup p w.
Proof.
  intros H. unfold lookup, file_converted. simpl.
  apply lookup_insert_ne. exact H.
Qed.

Lemma converted_files_fold_add (l : list string) :
  forall w,
    converted_files (fold_left (fun acc f => add_file_to_list f acc) l w)
    = converted_files w
    /\ output_dir (fold_left (fun acc f => add_file_to_list f acc) l w)
       = output_dir w.
Proof.
  induction l as [|x l IH]; intros w; simpl; [auto|].
  destruct (IH (add_file_to_list x w)) as [-> ->]. auto.
Qed.

Lemma converted_files_fold_select (l : list string) :
  forall w,
    converted_files (fold_left select_one l w) = converted_files w
    /\ output_dir (fold_left select_one l w) = output_dir w.
Proof.
  induction l as [|x l IH]; intros w; simpl; [auto|].
  destruct (IH (select_one w x)) as [-> ->].
  unfold select_one. destruct (mem x (input_files w)); auto.
Qed.

Lemma converted_files_dropEvent (urls : list string) (w : t) :
  converted_files (fst (dropEvent urls w)) = converted_files w.
Proof.
  unfold dropEvent.
  pose proof (converted_files_fold_add (List.filter is_m4a urls) w) as [H _].
  destruct (List.filter is_m4a urls) as [|x l] eqn:E; simpl; [exact H|].
  destruct (String.eqb _ _); simpl; exact H.
Qed.

Lemma converted_files_select_files (chosen : list string) (w : t) :
  converted_files (fst (select_files chosen w)) = converted_files w.
Proof.
  unfold select_files.
  destruct (select_button w); simpl; [|reflexivity].
  destruct chosen as [|x l]; [reflexivity|].
  pose proof (converted_files_fold_select (x :: l) w) as [H _].
  destruct (String.eqb _ _); simpl; exact H.
Qed.

Lemma converted_files_select_output_dir (dir : string) (w : t) :
  converted_files (select_output_dir dir w) = converted_files w.
Proof. unfold select_output_dir. destruct (output_dir_button w); reflexivity. Qed.

Lemma converted_files_reconvert (current : option nat) (w : t) :
  converted_files (fst (reconvert_selected_file current w)) = converted_files w.
Proof.
  unfold reconvert_selected_file.
  destruct (current ≫= _); [|reflexivity].
  destruct (String.eqb _ _); reflexivity.
Qed.

Lemma converted_files_preview (row : nat) (w : t) :
  converted_files (preview_converted_file row w) = converted_files w.
Proof.
  unfold preview_converted_file.
  destruct (file_list w !! row); [|reflexivity].
  destruct (converted_files w !! _); reflexivity.
Qed.

Lemma converted_files_remove_inputs (x : string) (w : t) :
  converted_files
    (if mem x (input_files w)
     then set_input_files (remove_first x (input_files w)) w else w)
  = converted_files w.
Proof. destruct (mem _ _); reflexivity. Qed.

Lemma lookup_remove (current : option nat) (p : string) (w : t) :
  lookup p (remove_selected_file current w)
  = if decide (removed_path current w = Some p) then None else lookup p w.
Proof.
  unfold lookup, remove_selected_file, removed_path.
  destruct current as [row|]; [|destruct (decide _); [discriminate|reflexivity]].
  destruct (file_list w !! row) as [it|] eqn:Hrow;
    [|destruct (decide _); [discriminate|reflexivity]].
  cbn [fmap option_fmap option_map].
  set (w1 := if mem (path it) (input_files w)
             then set_input_files (remove_first (path it) (input_files w)) w
             else w).
  set (w2 := set_file_list _ w1).
  assert (H2 : converted_files w2 = converted_files w).
  { unfold w2. cbn [converted_files set_file_list].
    apply converted_files_remove_inputs. }
  rewrite H2.
  destruct (converted_files w !! path it) as [v|] eqn:E;
    cbn [converted_files set_converted_files]; rewrite ?H2;
    destruct (decide _) as [Hp|Hp].
  - injection Hp as <-. apply lookup_delete_eq.
  - apply lookup_delete_ne. congruence.
  - injection Hp as <-. exact E.
  - reflexivity.
Qed.

Lemma lookup_handle (sig : Signal.t) (p : string) (w : t) :
  lookup p (handle sig w)
  = match sig with
    | Signal.file_converted o c =>
        if decide (o = p) then Some c else lookup p w
    | _ => lookup p w
    end.
Proof.
  destruct sig as [v|o c|]; simpl; try reflexivity.
  destruct (decide (o = p)) as [H|H].
  - subst. apply lookup_file_converted.
  - apply lookup_file_converted_ne. exact H.
Qed.

End WindowLemmas.

(** ** Threads of the application *)

Section AppLemmas.
Import App.
Variable lib : Pydub.
Variable qt : bool.

Lemma worker_step_job (th : ConversionThread.t) (i : nat) (x : string)
    (files : Fs) :
  ConversionThread.input_files th !! i = Some x ->
  worker_step lib {| thread := th; pc := Running i |} files =
  let dir := ConversionThread.output_dir th in
  let total := Z.of_nat (length (ConversionThread.input_files th)) in
  match ConversionThread.transcode lib files x
          (ConversionThread.output_file_of dir x) with
  | inr files' =>
      ({| thread := th; pc := Running (S i) |}, files',
       ConversionThread.job_signals dir total (Z.of_nat i) x)
  | inl (e, files') => ({| thread := th; pc := Crashed e |}, files', [])
  end.
Proof.
  intros Hx. pose proof (lookup_lt_Some _ _ _ Hx) as Hlt.
  unfold worker_step. cbn [pc thread]. rewrite Hx.
  rewrite convert_eq by lia. unfold ConversionThread.start. simpl.
  destruct (ConversionThread.transcode lib files x _) as [[e f']|f'];
    reflexivity.
Qed.

Lemma worker_step_finish (th : ConversionThread.t) (i : nat) (files : Fs) :
  ConversionThread.input_files th !! i = None ->
  worker_step lib {| thread := th; pc := Running i |} files =
  ({| thread := th; pc := Returned |}, files, [Signal.finished]).
Proof. intros Hx. unfold worker_step. cbn [pc thread]. rewrite Hx. reflexivity. Qed.

Lemma worker_steps_stopped (fuel : nat) (w : Worker) (files : Fs) :
  is_running w = false -> worker_steps lib fuel w files = (w, files, []).
Proof.
  intros H. induction fuel as [|fuel IH]; [reflexivity|].
  simpl. unfold worker_step. unfold is_running in H.
  destruct (pc w) eqn:E; try discriminate; rewrite IH; reflexivity.
Qed.

Lemma worker_steps_from (th : ConversionThread.t) (rest : list string) :
  forall (i : nat) (files : Fs) (extra : nat),
    drop i (ConversionThread.input_files th) = rest ->
    worker_steps lib (S (length rest) + extra)
      {| thread := th; pc := Running i |} files =
    let dir := ConversionThread.output_dir th in
    let total := Z.of_nat (length (ConversionThread.input_files th)) in
    let '(n, files', r) := ConversionThread.transcode_all lib dir files rest in
    ({| thread := th;
        pc := match r with Some e => Crashed e | None => Returned end |},
     files',
     ConversionThread.batch_signals dir total (Z.of_nat i) (take n rest)
       ++ match r with Some _ => [] | None => [Signal.finished] end).
Proof.
  induction rest as [|x rest IH]; intros i files extra Hd.
  - assert (Hn : ConversionThread.input_files th !! i = None).
    { apply lookup_ge_None. apply drop_nil_inv in Hd. lia. }
    simpl. rewrite (worker_step_finish th i files Hn).
    rewrite worker_steps_stopped by reflexivity. reflexivity.
  - assert (Hx : ConversionThread.input_files th !! i = Some x).
    { pose proof (lookup_drop (ConversionThread.input_files th) i 0) as Hl.
      rewrite Hd in Hl. rewrite Nat.add_0_r in Hl. symmetry. exact Hl. }
    assert (Hd' : drop (S i) (ConversionThread.input_files th) = rest).
    { pose proof (drop_drop (ConversionThread.input_files th) 1 i) as Hdd.
      rewrite Hd in Hdd. rewrite Nat.add_1_r in Hdd. symmetry. exact Hdd. }
    change (S (length (x :: rest)) + extra)%nat
      with (S (S (length rest) + extra)).
    cbn [worker_steps]. rewrite (worker_step_job th i x files Hx).
    cbn [ConversionThread.transcode_all].
    destruct (ConversionThread.transcode lib files x _) as [[e f']|f'].
    + rewrite worker_steps_stopped by reflexivity. reflexivity.
    + rewrite (IH (S i) f' extra Hd'). cbv zeta.
      destruct (ConversionThread.transcode_all lib _ f' rest) as [[n f''] r].
      cbn [firstn ConversionThread.batch_signals].
      rewrite <- app_assoc.
      replace (Z.of_nat i + 1) with (Z.of_nat (S i)) by lia.
      destruct r; reflexivity.
Qed.

(** A thread stepped on its own does what [run] does. *)
Theorem worker_steps_run (th : ConversionThread.t) (files : Fs) :
  worker_steps lib (S (length (ConversionThread.input_files th)))
    (spawn th) files =
  let '(r, st') := ConversionThread.run lib (ConversionThread.start th files) in
  ({| thread := ConversionThread.self st';
      pc := match r with inl e => Crashed e | inr _ => Returned end |},
   ConversionThread.fs st', ConversionThread.emitted st').
Proof.
  rewrite run_eq. unfold spawn.
  pose proof (worker_steps_from th (ConversionThread.input_files th)
                0 files 0 eq_refl) as H.
  rewrite Nat.add_0_r in H. rewrite H. simpl.
  destruct (ConversionThread.transcode_all lib _ files _) as [[n f'] [e|]];
    simpl; rewrite ?app_nil_r; reflexivity.
Qed.

(** A handler of the GUI thread leaves the started threads as they are and
    starts at most one more. *)
Lemma gui_workers (f : MainWindow.t -> MainWindow.t * list ConversionThread.t)
    (s : t) :
  workers (gui f s) = workers s ++ map spawn (snd (f (window s))).
Proof. unfold gui. destruct (f (window s)); reflexivity. Qed.

Lemma step_gui_workers (a : Action) (s : t) :
  is_gui a = true ->
  exists started, workers (step lib qt a s) = workers s ++ map spawn started
                  /\ (length started <= 1)%nat.
Proof.
  intros Ha. destruct a; simpl in Ha; try discriminate; simpl step.
  - rewrite gui_workers. eexists; split; [reflexivity|].
    unfold MainWindow.dropEvent.
    destruct (List.filter _ _); simpl; [lia|].
    destruct (String.eqb _ _); simpl; lia.
  - rewrite gui_workers. eexists; split; [reflexivity|].
    unfold MainWindow.select_files.
    destruct (negb _); simpl; [lia|].
    destruct chosen; simpl; [lia|].
    destruct (String.eqb _ _); simpl; lia.
  - rewrite gui_workers. exists []. simpl. split; [reflexivity|lia].
  - rewrite gui_workers. exists []. simpl. split; [reflexivity|lia].
  - rewrite gui_workers. eexists; split; [reflexivity|].
    unfold MainWindow.reconvert_selected_file.
    destruct (current ≫= _); simpl; [|lia].
    destruct (String.eqb _ _); simpl; lia.
  - rewrite gui_workers. exists []. simpl. split; [reflexivity|lia].
  - exists []. rewrite app_nil_r. destruct (mailbox s); simpl; split;
      try reflexivity; lia.
Qed.

Lemma worker_step_thread (w : Worker) (files : Fs) :
  thread (fst (fst (worker_step lib w files))) = thread w.
Proof.
  destruct w as [th [i| |e]]; try reflexivity.
  destruct (ConversionThread.input_files th !! i) as [x|] eqn:Hx.
  - rewrite (worker_step_job th i x files Hx). simpl.
    destruct (ConversionThread.transcode lib files x _) as [[e f']|f'];
      reflexivity.
  - rewrite (worker_step_finish th i files Hx). reflexivity.
Qed.

End AppLemmas.

(** ** Traces of a batch *)

Section TraceLemmas.
Import ConversionThread.
Variable lib : Pydub.

Lemma conversions_app (t1 t2 : list Signal.t) :
  Signal.conversions (t1 ++ t2) = Signal.conversions t1 ++ Signal.conversions t2.
Proof. unfold Signal.conversions. apply omap_app. Qed.

Lemma progress_values_app (t1 t2 : list Signal.t) :
  Signal.progress_values (t1 ++ t2)
  = Signal.progress_values t1 ++ Signal.progress_values t2.
Proof. unfold Signal.progress_values. apply omap_app. Qed.

Lemma conversions_batch_signals (dir : string) (total : Z) (l : list string) :
  forall i,
    Signal.conversions (batch_signals dir total i l)
    = map (fun x => (x, output_file_of dir x)) l.
Proof.
  induction l as [|x l IH]; intros i; [reflexivity|].
  cbn [batch_signals map]. rewrite conversions_app, IH. reflexivity.
Qed.

Lemma progress_values_batch_signals (dir : string) (total : Z)
    (l : list string) :
  forall i : nat,
    Signal.progress_values (batch_signals dir total (Z.of_nat i) l)
    = map (fun k => PyFloat.percent_value (Z.of_nat k) total)
          (seq (S i) (length l)).
Proof.
  induction l as [|x l IH]; intros i; [reflexivity|].
  cbn [batch_signals length seq map]. rewrite progress_values_app.
  unfold job_signals.
  replace (Z.of_nat i + 1) with (Z.of_nat (S i)) by lia.
  rewrite IH. reflexivity.
Qed.

Lemma transcode_inr (files files' : Fs) (x out : string) :
  transcode lib files x out = inr files' ->
  exists bytes audio,
    files !! x = Some bytes /\ read_error lib files x = None
    /\ decode lib "m4a" bytes = inr audio
    /\ write_error lib files out (encode lib "wav" audio) = None
    /\ files' = <[out := encode lib "wav" audio]> files.
Proof.
  unfold transcode. intros H.
  destruct (files !! x) as [bytes|] eqn:E1; [|discriminate].
  destruct (read_error lib files x) eqn:E2; [discriminate|].
  destruct (decode lib "m4a" bytes) as [e|audio] eqn:E3; [discriminate|].
  destruct (write_error lib files out _) as [[e f]|] eqn:E4; [discriminate|].
  injection H as <-. exists bytes, audio. repeat split; auto.
Qed.

Lemma transcode_all_app (dir : string) (l1 l2 : list string) :
  forall files files1,
    transcode_all lib dir files l1 = (length l1, files1, None) ->
    transcode_all lib dir files (l1 ++ l2)
    = let '(n, files2, r) := transcode_all lib dir files1 l2 in
      ((length l1 + n)%nat, files2, r).
Proof.
  induction l1 as [|x l1 IH]; intros files files1 H.
  - simpl in H. injection H as <-. simpl.
    destruct (transcode_all lib dir files l2) as [[n f] r]. reflexivity.
  - simpl in H. simpl.
    destruct (transcode lib files x _) as [[e f']|f']; [discriminate|].
    pose proof (transcode_all_count lib dir l1 f') as Hc.
    destruct (transcode_all lib dir f' l1) as [[n f''] [e|]] eqn:E;
      [discriminate|].
    injection H as Hn <-. subst n.
    rewrite (IH f' f'' E).
    destruct (transcode_all lib dir f'' l2) as [[n2 f2] r]. reflexivity.
Qed.

End TraceLemmas.

Lemma fst_pairs {A B : Type} (g : A -> B) (l : list A) :
  (map (fun x => (x, g x)) l).*1 = l.
Proof. induction l as [|x l IH]; simpl; [reflexivity|]. f_equal. exact IH. Qed.

(** ** The claims of the specification *)

(** C8. An empty batch emits [finished] and nothing else, and [run]
    returns normally: no [progress], no [file_converted], no exception, no
    file opened. In the application the thread returns with its first
    step. *)
Theorem C8_empty_batch (lib : Pydub) (dir : string) (files : Fs) :
  let th := ConversionThread.init [] dir in
  ConversionThread.run lib (ConversionThread.start th files)
  = (inr tt,
     {| ConversionThread.self := th;
        ConversionThread.fs := files;
        ConversionThread.emitted := [Signal.finished];
        ConversionThread.opened := [] |})
  /\ App.worker_step lib (App.spawn th) files
     = ({| App.thread := th; App.pc := App.Returned |}, files,
        [Signal.finished]).
Proof.
  intros th. split.
  - rewrite run_eq. reflexivity.
  - apply worker_step_finish. reflexivity.
Qed.

(** C10. [run] leaves the thread object as it was constructed: the list
    of input files and the output directory are the same after a normal
    return and after an exception, and a step of a started thread in the
    application leaves them the same too. *)
Theorem C10_inputs_unchanged (lib : Pydub) (inputs : list string)
    (dir : string) (files : Fs) :
  let th := ConversionThread.init inputs dir in
  let st' := snd (ConversionThread.run lib (ConversionThread.start th files)) in
  ConversionThread.input_files (ConversionThread.self st') = inputs
  /\ ConversionThread.output_dir (ConversionThread.self st') = dir
  /\ forall (w : App.Worker) (fs0 : Fs),
       App.thread (fst (fst (App.worker_step lib w fs0))) = App.thread w.
Proof.
  cbv zeta. rewrite run_eq. cbv zeta.
  destruct (ConversionThread.transcode_all lib _ files _) as [[n f'] [e|]];
    simpl; repeat split; auto using worker_step_thread.
Qed.

(** ** Order of the jobs *)

Section OrderLemmas.
Import App.
Variable lib : Pydub.
Variable qt : bool.

Lemma exec_app (sched1 sched2 : list Action) (s : t) :
  exec lib qt (sched1 ++ sched2) s = exec lib qt sched2 (exec lib qt sched1 s).
Proof. unfold exec. apply fold_left_app. Qed.

Lemma exec_snoc (sched : list Action) (a : Action) (s : t) :
  exec lib qt (sched ++ [a]) s = step lib qt a (exec lib qt sched s).
Proof. apply exec_app. Qed.

Lemma exec_cons (a : Action) (sched : list Action) (s : t) :
  exec lib qt (a :: sched) s = exec lib qt sched (step lib qt a s).
Proof. reflexivity. Qed.

Lemma posted_app (sched1 sched2 : list Action) :
  forall s,
    posted lib qt (sched1 ++ sched2) s
    = posted lib qt sched1 s ++ posted lib qt sched2 (exec lib qt sched1 s).
Proof.
  induction sched1 as [|a sched1 IH]; intros s; [reflexivity|].
  cbn [app posted]. rewrite IH, exec_cons, app_assoc. reflexivity.
Qed.

Lemma gui_mailbox (f : MainWindow.t -> MainWindow.t * list ConversionThread.t)
    (s : t) :
  mailbox (gui f s) = mailbox s /\ files (gui f s) = files s.
Proof. unfold gui. destruct (f (window s)); auto. Qed.

(** The queue is first in, first out: what was queued and what is posted,
    in this order, is what has been handled followed by what is still
    queued. *)
Lemma handled_then_queued (schedule : list Action) :
  forall s,
    mailbox s ++ (posted lib qt schedule s).*2
    = handled lib qt schedule s ++ mailbox (exec lib qt schedule s).
Proof.
  induction schedule as [|a rest IH]; intros s.
  - cbn. apply app_nil_r.
  - cbn [posted handled]. rewrite exec_cons, fmap_app.
    rewrite <- (app_assoc (handles a s)), <- IH, !app_assoc. f_equal.
    destruct a; cbn [posts handles step fmap list_fmap app];
      rewrite ?app_nil_r; try (symmetry; apply gui_mailbox).
    + destruct (mailbox s) as [|sig queued] eqn:E; [rewrite E|]; reflexivity.
    + destruct (workers s !! n) as [w|];
        [|cbn [fmap list_fmap]; apply app_nil_r].
      destruct (worker_step lib w (files s)) as [[w' fs'] sigs].
      cbn [mailbox]. f_equal.
      rewrite <- list_fmap_compose. apply list_fmap_id.
Qed.

(** The conversions thread [n] has reported among the posted signals. *)
Lemma conversions_of_app (n : nat) (l1 l2 : list (nat * Signal.t)) :
  Signal.conversions (List.filter (fun e => Nat.eqb e.1 n) (l1 ++ l2)).*2
  = Signal.conversions (List.filter (fun e => Nat.eqb e.1 n) l1).*2
    ++ Signal.conversions (List.filter (fun e => Nat.eqb e.1 n) l2).*2.
Proof. rewrite List.filter_app, fmap_app. apply conversions_app. Qed.

Lemma filter_pair_same (n : nat) (sigs : list Signal.t) :
  (List.filter (fun e : nat * Signal.t => Nat.eqb e.1 n) (map (pair n) sigs)).*2
  = sigs.
Proof.
  induction sigs as [|x sigs IH]; [reflexivity|].
  cbn [map List.filter fst]. rewrite Nat.eqb_refl.
  cbn [fmap list_fmap snd]. f_equal. exact IH.
Qed.

Lemma filter_pair_other (n m : nat) (sigs : list Signal.t) :
  m <> n ->
  List.filter (fun e : nat * Signal.t => Nat.eqb e.1 n) (map (pair m) sigs)
  = [].
Proof.
  intros Hne. induction sigs as [|x sigs IH]; [reflexivity|].
  cbn [map List.filter fst].
  destruct (Nat.eqb_spec m n); [contradiction|exact IH].
Qed.

Lemma conversions_thread_exit (b : bool) :
  Signal.conversions (thread_exit b) = [].
Proof. destruct b; reflexivity. Qed.

Lemma conversions_exit_signals (w w' : Worker) :
  Signal.conversions (exit_signals qt w w') = [].
Proof.
  unfold exit_signals. destruct (_ && _); [|reflexivity].
  apply conversions_thread_exit.
Qed.

(** What thread [n] has reported, and where it is in [run]. *)
Local Abbreviation reported_prefix n w log :=
  (exists k : nat,
     Signal.conversions (List.filter (fun e => Nat.eqb e.1 n) log).*2
     = map (fun x => (x, ConversionThread.output_file_of
                           (ConversionThread.output_dir (thread w)) x))
         (take k (ConversionThread.input_files (thread w)))
     /\ match pc w with
        | Running i =>
            i = k /\ le k (length (ConversionThread.input_files (thread w)))
        | Returned => k = length (ConversionThread.input_files (thread w))
        | Crashed _ => lt k (length (ConversionThread.input_files (thread w)))
        end).

Lemma posts_gui (a : Action) (s : t) :
  is_gui a = true -> posts lib qt a s = [].
Proof. destruct a; try reflexivity. discriminate. Qed.

Lemma worker_step_stopped (w : Worker) (f : Fs) :
  is_running w = false -> worker_step lib w f = (w, f, []).
Proof.
  unfold is_running, worker_step. destruct (pc w); [discriminate| |];
    reflexivity.
Qed.

Lemma conversions_job_signals (dir : string) (total i : Z) (x : string) :
  Signal.conversions (ConversionThread.job_signals dir total i x)
  = [(x, ConversionThread.output_file_of dir x)].
Proof. reflexivity. Qed.

Lemma step_reported (a : Action) (s : t) (log : list (nat * Signal.t)) :
  (forall n w, workers s !! n = Some w -> reported_prefix n w log) ->
  Forall (fun e => (e.1 < length (workers s))%nat) log ->
  (forall n w, workers (step lib qt a s) !! n = Some w ->
               reported_prefix n w (log ++ posts lib qt a s))
  /\ Forall (fun e => (e.1 < length (workers (step lib qt a s)))%nat)
       (log ++ posts lib qt a s).
Proof.
  intros IH Hb.
  destruct (is_gui a) eqn:Ea.
  - rewrite (posts_gui a s Ea), app_nil_r.
    destruct (step_gui_workers lib qt a s Ea) as (started & Hw & _).
    rewrite Hw. split.
    + intros n w Hn.
      destruct (lt_dec n (length (workers s))) as [Hlt|Hge].
      * rewrite lookup_app_l in Hn by exact Hlt. apply IH. exact Hn.
      * rewrite lookup_app_r in Hn by lia.
        rewrite list_lookup_fmap in Hn.
        destruct (started !! _) as [th|]; [|discriminate].
        injection Hn as <-. exists 0%nat. split.
        -- replace (List.filter (fun e : nat * Signal.t => Nat.eqb e.1 n) log)
             with (@nil (nat * Signal.t)); [reflexivity|].
           symmetry. clear IH. induction log as [|e log IHl]; [reflexivity|].
           apply Forall_cons in Hb as [He Hb]. cbn [List.filter].
           destruct (Nat.eqb_spec e.1 n); [lia|]. apply IHl. exact Hb.
        -- cbn [pc spawn]. split; [reflexivity|lia].
    + eapply Forall_impl; [exact Hb|]. intros e He. cbn beta in *.
      rewrite length_app. lia.
  - destruct a as [| | | | | | |m]; try discriminate.
    cbn [step posts].
    destruct (workers s !! m) as [wm|] eqn:Hm.
    2:{ rewrite app_nil_r. split; [exact IH|exact Hb]. }
    pose proof (lookup_lt_Some _ _ _ Hm) as Hlt.
    destruct (IH m wm Hm) as (k & Hk & Hpc).
    assert (Hstep : exists w' fs' sigs,
               worker_step lib wm (files s) = (w', fs', sigs)
               /\ reported_prefix m w' (log ++ map (pair m)
                                          (sigs ++ exit_signals qt wm w'))).
    { destruct wm as [th [i| |e]]; cbn [pc thread] in *.
      - destruct Hpc as [-> Hle].
        destruct (ConversionThread.input_files th !! k) as [x|] eqn:Hx.
        + rewrite (worker_step_job lib th k x (files s) Hx). cbv zeta.
          pose proof (lookup_lt_Some _ _ _ Hx) as Hkl.
          destruct (ConversionThread.transcode lib (files s) x _)
            as [[e f']|f'].
          * eexists _, _, _. split; [reflexivity|].
            exists k. cbn [pc thread]. split; [|exact Hkl].
            rewrite conversions_of_app, filter_pair_same, Hk.
            cbn [app]. rewrite conversions_exit_signals. apply app_nil_r.
          * eexists _, _, _. split; [reflexivity|].
            exists (S k). cbn [pc thread]. split; [|split; [reflexivity|lia]].
            rewrite conversions_of_app, filter_pair_same, Hk.
            rewrite conversions_app, conversions_job_signals,
              conversions_exit_signals, app_nil_r.
            rewrite (take_S_r _ _ _ Hx), map_app. reflexivity.
        + rewrite (worker_step_finish lib th k (files s) Hx).
          eexists _, _, _. split; [reflexivity|].
          exists k. cbn [pc thread]. split.
          * rewrite conversions_of_app, filter_pair_same, Hk.
            rewrite conversions_app, conversions_exit_signals. cbn.
            apply app_nil_r.
          * apply lookup_ge_None in Hx. lia.
      - rewrite worker_step_stopped by reflexivity.
        eexists _, _, _. split; [reflexivity|].
        exists k. cbn [pc thread]. split; [|exact Hpc].
        rewrite conversions_of_app, filter_pair_same, Hk.
        cbn [app]. rewrite conversions_exit_signals. apply app_nil_r.
      - rewrite worker_step_stopped by reflexivity.
        eexists _, _, _. split; [reflexivity|].
        exists k. cbn [pc thread]. split; [|exact Hpc].
        rewrite conversions_of_app, filter_pair_same, Hk.
        cbn [app]. rewrite conversions_exit_signals. apply app_nil_r. }
    destruct Hstep as (w' & fs' & sigs & Hws & Hrep).
    rewrite Hws. cbn [workers]. split.
    + intros n w Hn.
      destruct (decide (n = m)) as [->|Hne].
      * rewrite list_lookup_insert_eq in Hn by exact Hlt.
        injection Hn as <-. exact Hrep.
      * rewrite list_lookup_insert_ne in Hn by congruence.
        destruct (IH n w Hn) as (k' & Hk' & Hpc').
        exists k'. split; [|exact Hpc'].
        rewrite conversions_of_app, filter_pair_other by congruence.
        rewrite Hk'. apply app_nil_r.
    + rewrite length_insert. apply Forall_app. split; [exact Hb|].
      apply Forall_map. apply Forall_true. intros x. exact Hlt.
Qed.

Lemma exec_reported (schedule : list Action) (files0 : Fs) :
  let s := exec lib qt schedule (init files0) in
  let log := posted lib qt schedule (init files0) in
  (forall n w, workers s !! n = Some w -> reported_prefix n w log)
  /\ Forall (fun e => (e.1 < length (workers s))%nat) log.
Proof.
  cbv zeta. induction schedule as [|a schedule IH] using rev_ind.
  - split; [intros n w H; discriminate|constructor].
  - destruct IH as [IH Hb].
    rewrite exec_snoc, posted_app. cbn [posted]. rewrite app_nil_r.
    apply step_reported; assumption.
Qed.

End OrderLemmas.

(** C4, where the claim fails: a.m4a is submitted, then b.m4a. There is no
    queue that the second submission extends: it has a thread of its own,
    and when that thread is scheduled first the events of b.m4a are posted,
    and handled, before those of a.m4a. *)
Lemma C4_counterexample :
  Forall (fun qt_finished : bool =>
    let s0 := App.init {[ "a.m4a"%string := [1]; "b.m4a"%string := [2] ]} in
    let schedule :=
      [App.SelectOutputDir "/out"; App.Drop ["a.m4a"%string];
       App.Drop ["b.m4a"%string]; App.Work 1; App.Work 0;
       App.Deliver; App.Deliver; App.Deliver; App.Deliver] in
    map App.thread (App.workers (App.exec plain_pydub qt_finished schedule s0))
    = [ConversionThread.init ["a.m4a"%string] "/out";
       ConversionThread.init ["b.m4a"%string] "/out"]
    /\ Signal.conversions (App.posted plain_pydub qt_finished schedule s0).*2
       = [("b.m4a", "/out/b.wav"); ("a.m4a", "/out/a.wav")]%string
    /\ Signal.conversions (App.handled plain_pydub qt_finished schedule s0)
       = [("b.m4a", "/out/b.wav"); ("a.m4a", "/out/a.wav")]%string)
    [false; true].
Proof. repeat constructor. Qed.

(** C4 (as the code has it). The thread constructed for a submission holds
    one job per submitted path, in input order, and [run] works through
    them in that order: the files it opens and the sources of the
    [file_converted] signals it emits are prefixes of the submitted list,
    and the whole list when [run] returns normally. There is no pending
    queue: in the application, under every schedule of user actions, thread
    steps and deliveries, each started thread has reported exactly the first
    [k] files of its own batch, in batch order and each with its destination,
    where [k] is the number of iterations it has completed; how the reports
    of two threads interleave is up to the schedule. The GUI thread handles
    the posted signals first in, first out. *)
Theorem C4_submission_order (lib : Pydub) (qt_finished : bool)
    (inputs : list string) (dir : string) (files : Fs)
    (schedule : list App.Action) (files0 : Fs) :
  let th := ConversionThread.init inputs dir in
  let r := ConversionThread.run lib (ConversionThread.start th files) in
  let sources := (Signal.conversions (ConversionThread.emitted (snd r))).*1 in
  let s := App.exec lib qt_finished schedule (App.init files0) in
  let log := App.posted lib qt_finished schedule (App.init files0) in
  (ConversionThread.input_files th = inputs
   /\ ConversionThread.opened (snd r) `prefix_of` inputs
   /\ sources `prefix_of` ConversionThread.opened (snd r)
   /\ match fst r with
      | inr _ => ConversionThread.opened (snd r) = inputs /\ sources = inputs
      | inl _ => length sources < length inputs
                 /\ length (ConversionThread.opened (snd r)) = S (length sources)
      end%nat)
  /\ (forall (n : nat) (w : App.Worker),
        App.workers s !! n = Some w ->
        exists k : nat,
          Signal.conversions (List.filter (fun e => Nat.eqb e.1 n) log).*2
          = map (fun x => (x, ConversionThread.output_file_of
                                (ConversionThread.output_dir (App.thread w)) x))
              (take k (ConversionThread.input_files (App.thread w)))
          /\ match App.pc w with
             | App.Running i =>
                 i = k
                 /\ le k (length (ConversionThread.input_files (App.thread w)))
             | App.Returned =>
                 k = length (ConversionThread.input_files (App.thread w))
             | App.Crashed _ =>
                 lt k (length (ConversionThread.input_files (App.thread w)))
             end)
  /\ log.*2
     = App.handled lib qt_finished schedule (App.init files0) ++ App.mailbox s.
Proof.
  cbv zeta. split; [|split].
  - rewrite run_eq. cbv zeta.
    pose proof (transcode_all_count lib dir inputs files) as Hc.
    simpl ConversionThread.input_files in *.
    simpl ConversionThread.output_dir in *.
    destruct (ConversionThread.transcode_all lib dir files inputs)
      as [[n f'] [e|]];
      cbn [fst snd ConversionThread.emitted ConversionThread.opened].
    + rewrite conversions_batch_signals, fst_pairs.
      split; [reflexivity|]. split; [|split].
      * exists (drop (S n) inputs). symmetry. apply take_drop.
      * exists (take 1 (drop n inputs)).
        rewrite take_take_drop. f_equal. lia.
      * rewrite !length_take. lia.
    + rewrite conversions_app, conversions_batch_signals.
      cbn [Signal.conversions omap list_omap]. rewrite app_nil_r, fst_pairs.
      subst n. rewrite firstn_all.
      split; [reflexivity|]. split; [reflexivity|]. split; [reflexivity|].
      split; reflexivity.
  - apply (exec_reported lib qt_finished schedule files0).
  - pose proof (handled_then_queued lib qt_finished schedule (App.init files0))
      as H.
    exact H.
Qed.

Lemma C4_witness :
  let files0 : Fs := {[ "a.m4a"%string := [1]; "b.m4a"%string := [2];
                        "c.m4a"%string := [3] ]} in
  let schedule :=
    [App.SelectOutputDir "/out"; App.Drop ["a.m4a"%string];
     App.Drop ["b.m4a"; "c.m4a"]%string; App.Work 1; App.Work 0;
     App.Deliver; App.Work 1] in
  let s := App.exec plain_pydub true schedule (App.init files0) in
  let log := App.posted plain_pydub true schedule (App.init files0) in
  let w := {| App.thread := ConversionThread.init ["b.m4a"; "c.m4a"]%string
                              "/out";
              App.pc := App.Running 2 |} in
  App.workers s !! 1%nat = Some w
  /\ exists k : nat,
       Signal.conversions (List.filter (fun e => Nat.eqb e.1 1) log).*2
       = map (fun x => (x, ConversionThread.output_file_of
                             (ConversionThread.output_dir (App.thread w)) x))
           (take k (ConversionThread.input_files (App.thread w)))
       /\ match App.pc w with
          | App.Running i =>
              i = k
              /\ le k (length (ConversionThread.input_files (App.thread w)))
          | App.Returned =>
              k = length (ConversionThread.input_files (App.thread w))
          | App.Crashed _ =>
              lt k (length (ConversionThread.input_files (App.thread w)))
          end.
Proof.
  cbv zeta. split; [vm_compute; reflexivity|].
  apply (proj1 (proj2 (C4_submission_order plain_pydub true [] "" ∅
                         [App.SelectOutputDir "/out";
                          App.Drop ["a.m4a"%string];
                          App.Drop ["b.m4a"; "c.m4a"]%string;
                          App.Work 1; App.Work 0; App.Deliver; App.Work 1]
                         {[ "a.m4a"%string := [1]; "b.m4a"%string := [2];
                            "c.m4a"%string := [3] ]})) 1%nat).
  vm_compute; reflexivity.
Defined.

(** ** The destination of a job *)

Section DestinationLemmas.
Import PyStr PosixPath.

Lemma str_length_app (a b : string) :
  String.length (a +:+ b) = (String.length a + String.length b)%nat.
Proof.
  induction a as [|x a IH]; [reflexivity|].
  change (String.length (String x (a +:+ b))
          = (String.length (String x a) + String.length b)%nat).
  simpl. rewrite IH. reflexivity.
Qed.

Lemma rfind_app (c : ascii) (a b : string) :
  rfind c (a +:+ b)
  = if 0 <=? rfind c b then len a + rfind c b else rfind c a.
Proof.
  unfold len. induction a as [|x a IH].
  - change ("" +:+ b) with b. simpl String.length.
    pose proof (rfind_range c b).
    destruct (Z.leb_spec 0 (rfind c b)); simpl; lia.
  - change (String x a +:+ b) with (String x (a +:+ b)).
    simpl rfind. rewrite IH. simpl String.length.
    pose proof (rfind_range c b) as Hb. pose proof (rfind_range c a) as Ha.
    unfold len in *.
    destruct (Z.leb_spec 0 (rfind c b)).
    + destruct (Z.leb_spec 0 (Z.of_nat (String.length a) + rfind c b)); lia.
    + reflexivity.
Qed.

Lemma drop_app_length (a b : string) : drop (String.length a) (a +:+ b) = b.
Proof.
  induction a as [|x a IH]; [reflexivity|].
  change (String x a +:+ b) with (String x (a +:+ b)). simpl. exact IH.
Qed.

Lemma endswith_rfind (c : ascii) (a : string) :
  endswith a c = true -> rfind c a = len a - 1.
Proof.
  unfold len. induction a as [|x a IH]; [discriminate|].
  intros H. simpl rfind. simpl String.length.
  destruct a as [|y a].
  - simpl in *. rewrite H. reflexivity.
  - assert (H' : endswith (String y a) c = true) by exact H.
    specialize (IH H'). rewrite IH.
    simpl String.length in *.
    destruct (Z.leb_spec 0 (Z.of_nat (S (String.length a)) - 1)); lia.
Qed.

Lemma basename_app_sep (a b : string) :
  rfind sep b = -1 -> basename (a +:+ String sep b) = b.
Proof.
  intros Hb. rewrite basename_eq, rfind_app.
  assert (E : rfind sep (String sep b) = 0).
  { simpl. rewrite Hb. reflexivity. }
  rewrite E. change (0 <=? 0) with true. cbv iota. unfold len.
  replace (Z.to_nat (Z.of_nat (String.length a) + 0 + 1))
    with (String.length (a +:+ String sep "")).
  - replace (a +:+ String sep b) with ((a +:+ String sep "") +:+ b).
    + apply drop_app_length.
    + clear. induction a as [|x a IH]; [reflexivity|].
      change (String x ((a +:+ String sep "") +:+ b)
              = String x (a +:+ String sep b)).
      f_equal. exact IH.
  - rewrite str_length_app. simpl. lia.
Qed.

Lemma basename_app_dir (a b : string) :
  rfind sep b = -1 -> String.eqb a "" || endswith a sep = true ->
  basename (a +:+ b) = b.
Proof.
  intros Hb Ha. rewrite basename_eq, rfind_app, Hb.
  change (0 <=? -1) with false. cbv iota.
  destruct (String.eqb_spec a "") as [->|Hne].
  - reflexivity.
  - simpl in Ha. rewrite (endswith_rfind sep a Ha). unfold len.
    replace (Z.to_nat (Z.of_nat (String.length a) - 1 + 1))
      with (String.length a) by lia.
    apply drop_app_length.
Qed.

Lemma basename_join (a b : string) :
  rfind sep b = -1 -> basename (join a b) = b.
Proof.
  intros Hb. unfold join.
  assert (Hs : startswith b sep = false).
  { destruct b as [|x b]; [reflexivity|].
    apply rfind_none_cons in Hb as [Hx _]. exact Hx. }
  rewrite Hs.
  destruct (String.eqb a "" || endswith a sep) eqn:Ha.
  - apply basename_app_dir; auto.
  - apply basename_app_sep; auto.
Qed.

Lemma rfind_app_none (c : ascii) (a b : string) :
  rfind c a = -1 -> rfind c b = -1 -> rfind c (a +:+ b) = -1.
Proof.
  intros Ha Hb. rewrite rfind_app, Hb.
  change (0 <=? -1) with false. cbv iota. exact Ha.
Qed.

Lemma lower_app (a b : string) : lower (a +:+ b) = lower a +:+ lower b.
Proof.
  induction a as [|x a IH]; [reflexivity|].
  change (String (lower_ascii x) (lower (a +:+ b))
          = String (lower_ascii x) (lower a +:+ lower b)).
  f_equal. exact IH.
Qed.

Lemma endswith_str_app (a b : string) : endswith_str (a +:+ b) b = true.
Proof.
  unfold endswith_str. rewrite str_length_app.
  replace (String.length a + String.length b - String.length b)%nat
    with (String.length a) by lia.
  rewrite drop_app_length, String.eqb_refl. simpl.
  apply Nat.leb_le. lia.
Qed.

Lemma join_suffix (a b : string) : exists pre, join a b = pre +:+ b.
Proof.
  unfold join. destruct (startswith b sep).
  - exists ""%string. reflexivity.
  - destruct (String.eqb a "" || endswith a sep).
    + exists a. reflexivity.
    + exists (a +:+ String sep ""). clear.
      induction a as [|x a IH]; [reflexivity|].
      change (String x (a +:+ String sep b)
              = String x ((a +:+ String sep "") +:+ b)).
      f_equal. exact IH.
Qed.

Lemma append_assoc (a b c : string) : (a +:+ b) +:+ c = a +:+ (b +:+ c).
Proof.
  induction a as [|x a IH]; [reflexivity|].
  change (String x ((a +:+ b) +:+ c) = String x (a +:+ (b +:+ c))).
  f_equal. exact IH.
Qed.

End DestinationLemmas.

Section ExtensionLemmas.
Import PyStr PosixPath.









End ExtensionLemmas.

Section LeadingDotLemmas.
Import PyStr PosixPath.

(** Strings that consist of dots only. *)
Local Abbreviation all_dots s :=
  (List.Forall (fun c => c = extsep) (list_ascii_of_string s)).








End LeadingDotLemmas.



(** C1 (as the code has it). An exception of a pydub call is not caught
    in [run]: when the jobs before [x] convert and the calls for [x] raise
    [e], [run] ends by raising [e]. The signals emitted are those of the
    jobs before [x] and no other: none for [x], none for the jobs after it,
    and no [finished]. No job after [x] is opened. In the application the
    thread ends in the state crashed by [e]. *)
Theorem C1_failure_ends_run (lib : Pydub) (done : list string) (x : string)
    (rest : list string) (dir : string) (files files_d files' : Fs) (e : exn) :
  ConversionThread.transcode_all lib dir files done
    = (length done, files_d, None) ->
  ConversionThread.transcode lib files_d x
    (ConversionThread.output_file_of dir x) = inl (e, files') ->
  let inputs := done ++ x :: rest in
  let th := ConversionThread.init inputs dir in
  let trace := ConversionThread.batch_signals dir
                 (Z.of_nat (length inputs)) 0 done in
  ConversionThread.run lib (ConversionThread.start th files)
  = (inl e,
     {| ConversionThread.self := th; ConversionThread.fs := files';
        ConversionThread.emitted := trace;
        ConversionThread.opened := done ++ [x] |})
  /\ App.worker_steps lib (S (length inputs)) (App.spawn th) files
     = ({| App.thread := th; App.pc := App.Crashed e |}, files', trace).
Proof.
  intros Hd Hx inputs th trace.
  assert (Hrun : ConversionThread.run lib (ConversionThread.start th files)
          = (inl e,
             {| ConversionThread.self := th; ConversionThread.fs := files';
                ConversionThread.emitted := trace;
                ConversionThread.opened := done ++ [x] |})).
  { rewrite run_eq. cbv zeta.
    simpl ConversionThread.input_files. simpl ConversionThread.output_dir.
    unfold inputs at 1. rewrite (transcode_all_app lib dir done _ files files_d Hd).
    cbn [ConversionThread.transcode_all]. rewrite Hx.
    rewrite Nat.add_0_r. unfold inputs.
    rewrite take_app_length.
    replace (S (length done)) with (length (done ++ [x]))
      by (rewrite length_app; simpl; lia).
    replace (done ++ x :: rest) with ((done ++ [x]) ++ rest)
      by (rewrite <- app_assoc; reflexivity).
    rewrite take_app_length.
    unfold trace, inputs. rewrite <- app_assoc. reflexivity. }
  split; [exact Hrun|].
  pose proof (worker_steps_run lib th files) as Hw.
  rewrite Hrun in Hw. exact Hw.
Qed.

(** C1, where the claim fails: a.m4a is missing. [run] is ended by the
    [FileNotFoundError]; no signal at all is emitted, so nothing reports the
    failure; b.m4a, which is on disk, is never opened. *)
Lemma C1_counterexample :
  let th := ConversionThread.init ["a.m4a"; "b.m4a"]%string "/out" in
  let r := ConversionThread.run plain_pydub
             (ConversionThread.start th {[ "b.m4a"%string := [4; 5] ]}) in
  fst r = inl FileNotFoundError
  /\ ConversionThread.emitted (snd r) = []
  /\ ConversionThread.opened (snd r) = ["a.m4a"%string]
  /\ ~ In "b.m4a"%string (ConversionThread.opened (snd r)).
Proof.
  vm_compute. repeat split; try reflexivity.
  intros [H|[]]. discriminate H.
Qed.

Lemma C1_witness :
  ConversionThread.transcode_all plain_pydub "/out"
    {[ "a.m4a"%string := [1; 2; 3]; "c.m4a"%string := [6] ]} ["a.m4a"%string]
  = (1%nat,
     <["/out/a.wav"%string := [1; 2; 3]]>
       {[ "a.m4a"%string := [1; 2; 3]; "c.m4a"%string := [6] ]},
     None)
  /\ ConversionThread.run plain_pydub
       (ConversionThread.start
          (ConversionThread.init ["a.m4a"; "b.m4a"; "c.m4a"]%string "/out")
          {[ "a.m4a"%string := [1; 2; 3]; "c.m4a"%string := [6] ]})
     = (inl FileNotFoundError,
        {| ConversionThread.self :=
             ConversionThread.init ["a.m4a"; "b.m4a"; "c.m4a"]%string "/out";
           ConversionThread.fs :=
             <["/out/a.wav"%string := [1; 2; 3]]>
               {[ "a.m4a"%string := [1; 2; 3]; "c.m4a"%string := [6] ]};
           ConversionThread.emitted :=
             [Signal.progress 33;
              Signal.file_converted "a.m4a" "/out/a.wav"];
           ConversionThread.opened := ["a.m4a"; "b.m4a"]%string |}).
Proof.
  assert (H1 : ConversionThread.transcode_all plain_pydub "/out"
                 {[ "a.m4a"%string := [1; 2; 3]; "c.m4a"%string := [6] ]}
                 ["a.m4a"%string]
               = (1%nat,
                  <["/out/a.wav"%string := [1; 2; 3]]>
                    {[ "a.m4a"%string := [1; 2; 3]; "c.m4a"%string := [6] ]},
                  None)) by (vm_compute; reflexivity).
  split; [exact H1|].
  refine (proj1 (C1_failure_ends_run plain_pydub ["a.m4a"%string] "b.m4a"
                   ["c.m4a"%string] "/out" _ _ _ FileNotFoundError H1 _)).
  vm_compute. reflexivity.
Defined.

(** C2, where the claim fails: in the scenario the worker emits two
    signals, the progress value before the conversion, and is then ended
    by the [FileNotFoundError] for b.m4a. Of the seven events of the
    scenario two have no signal at all, and the signals of the other five
    are not what is emitted. *)
Lemma C2_counterexample :
  let th := ConversionThread.init ["a.m4a"; "b.m4a"]%string "/out" in
  let r := ConversionThread.run plain_pydub
             (ConversionThread.start th {[ "a.m4a"%string := [1; 2; 3] ]}) in
  fst r = inl FileNotFoundError
  /\ ConversionThread.emitted (snd r)
     = [Signal.progress 50; Signal.file_converted "a.m4a" "/out/a.wav"]
  /\ ConversionThread.emitted (snd r)
     <> omap Spec.signal_of Spec.scenario_events
  /\ Spec.signal_of (Spec.JobStarted "a.m4a") = None
  /\ Spec.signal_of (Spec.JobFailed "b.m4a" Spec.SourceUnavailable) = None.
Proof.
  vm_compute. repeat split; try reflexivity. discriminate.
Qed.

(** C2 (as the code has it). For the batch a.m4a, b.m4a with output
    directory /out, where a.m4a converts and b.m4a is not on disk, the
    worker emits exactly [progress 50] and then
    [file_converted a.m4a /out/a.wav], opens b.m4a and is ended by the
    [FileNotFoundError]: no signal for b.m4a and no [finished]. Once the
    window has handled the two signals its cache is exactly
    a.m4a -> /out/a.wav. *)
Theorem C2_scenario (lib : Pydub) (files : Fs) (bytes : Content)
    (audio : AudioSegment) :
  files !! "a.m4a"%string = Some bytes ->
  read_error lib files "a.m4a" = None ->
  decode lib "m4a" bytes = inr audio ->
  write_error lib files "/out/a.wav" (encode lib "wav" audio) = None ->
  files !! "b.m4a"%string = None ->
  let th := ConversionThread.init ["a.m4a"; "b.m4a"]%string "/out" in
  let r := ConversionThread.run lib (ConversionThread.start th files) in
  fst r = inl FileNotFoundError
  /\ ConversionThread.emitted (snd r)
     = [Signal.progress 50; Signal.file_converted "a.m4a" "/out/a.wav"]
  /\ ConversionThread.opened (snd r) = ["a.m4a"; "b.m4a"]%string
  /\ MainWindow.converted_files
       (MainWindow.handle_all (ConversionThread.emitted (snd r))
          MainWindow.init)
     = {[ "a.m4a"%string := "/out/a.wav"%string ]}.
Proof.
  intros Ha Hr Hd Hw Hb. cbv zeta. rewrite run_eq. cbv zeta.
  simpl ConversionThread.input_files. simpl ConversionThread.output_dir.
  cbn [ConversionThread.transcode_all].
  assert (Eo : ConversionThread.output_file_of "/out" "a.m4a"
               = "/out/a.wav"%string) by reflexivity.
  rewrite Eo.
  assert (Et1 : ConversionThread.transcode lib files "a.m4a" "/out/a.wav"
                = inr (<["/out/a.wav"%string := encode lib "wav" audio]> files)).
  { unfold ConversionThread.transcode. rewrite Ha, Hr, Hd, Hw. reflexivity. }
  rewrite Et1.
  assert (Et2 : forall out,
             ConversionThread.transcode lib
               (<["/out/a.wav"%string := encode lib "wav" audio]> files)
               "b.m4a" out
             = inl (FileNotFoundError,
                    <["/out/a.wav"%string := encode lib "wav" audio]> files)).
  { intros out. unfold ConversionThread.transcode.
    rewrite lookup_insert_ne by discriminate. rewrite Hb. reflexivity. }
  rewrite Et2.
  cbn [fst snd ConversionThread.emitted ConversionThread.opened take firstn
       ConversionThread.batch_signals ConversionThread.job_signals app length].
  rewrite Eo.
  assert (Ep : PyFloat.percent_value (0 + 1) (Z.of_nat 2) = 50)
    by (vm_compute; reflexivity).
  rewrite Ep.
  repeat split; reflexivity.
Qed.

Lemma C2_witness :
  let files : Fs := {[ "a.m4a"%string := [7; 7; 7] ]} in
  let r := ConversionThread.run plain_pydub
             (ConversionThread.start
                (ConversionThread.init ["a.m4a"; "b.m4a"]%string "/out")
                files) in
  fst r = inl FileNotFoundError
  /\ ConversionThread.emitted (snd r)
     = [Signal.progress 50; Signal.file_converted "a.m4a" "/out/a.wav"]
  /\ ConversionThread.opened (snd r) = ["a.m4a"; "b.m4a"]%string
  /\ MainWindow.converted_files
       (MainWindow.handle_all (ConversionThread.emitted (snd r))
          MainWindow.init)
     = {[ "a.m4a"%string := "/out/a.wav"%string ]}.
Proof.
  apply (C2_scenario plain_pydub {[ "a.m4a"%string := [7; 7; 7] ]}
           [7; 7; 7] {| raw_data := [7; 7; 7] |});
    vm_compute; reflexivity.
Defined.

(** C3, where the claim fails: of three jobs the second is missing. One
    progress signal is emitted, for the first job; the job that fails gets
    none, the third is never reached, and no progress signal carries 100. *)
Lemma C3_counterexample :
  let th := ConversionThread.init ["a.m4a"; "b.m4a"; "c.m4a"]%string "/out" in
  let r := ConversionThread.run plain_pydub
             (ConversionThread.start th
                {[ "a.m4a"%string := [1]; "c.m4a"%string := [3] ]}) in
  fst r = inl FileNotFoundError
  /\ ConversionThread.opened (snd r) = ["a.m4a"; "b.m4a"]%string
  /\ Signal.progress_values (ConversionThread.emitted (snd r)) = [33]
  /\ ~ In 100 (Signal.progress_values (ConversionThread.emitted (snd r))).
Proof.
  vm_compute. repeat split; try reflexivity.
  intros [H|[]]. discriminate H.
Qed.

Lemma progress_values_sorted (total : Z) (len : nat) :
  forall start : nat,
    (1 <= start)%nat -> Z.of_nat start + Z.of_nat len - 1 <= total ->
    StronglySorted Z.le
      (map (fun k => PyFloat.percent_value (Z.of_nat k) total) (seq start len)).
Proof.
  induction len as [|len IH]; intros start Hs Ht; simpl; constructor.
  - apply IH; lia.
  - apply List.Forall_forall. intros v Hv.
    apply in_map_iff in Hv as (k & <- & Hk). apply in_seq in Hk.
    apply percent_value_mono; lia.
Qed.

(** C3 (as the code has it). A progress signal is emitted for every job
    that converts, and for no other: with [n] jobs converted before [run]
    returns or is ended by an exception, the progress signals carry
    int(k / total * 100) for the counts k = 1, ..., n in this order, and
    these values never decrease. The count reaches the total exactly when
    [run] returns normally, in the last progress signal, and the value is
    then 100. *)
Theorem C3_progress (lib : Pydub) (inputs : list string) (dir : string)
    (files : Fs) :
  let th := ConversionThread.init inputs dir in
  let total := Z.of_nat (length inputs) in
  let r := ConversionThread.run lib (ConversionThread.start th files) in
  let values := Signal.progress_values (ConversionThread.emitted (snd r)) in
  let '(n, _, failure) := ConversionThread.transcode_all lib dir files inputs in
  values = map (fun k => PyFloat.percent_value (Z.of_nat k) total) (seq 1 n)
  /\ StronglySorted Z.le values
  /\ match failure with
     | None => fst r = inr tt /\ n = length inputs
     | Some e => fst r = inl e /\ (n < length inputs)%nat
     end
  /\ match inputs with
     | [] => True
     | _ :: _ => PyFloat.percent_value total total = 100
     end.
Proof.
  cbv zeta. rewrite run_eq. cbv zeta.
  simpl ConversionThread.input_files. simpl ConversionThread.output_dir.
  pose proof (transcode_all_count lib dir inputs files) as Hc.
  assert (H100 : match inputs with
                 | [] => True
                 | _ :: _ =>
                     PyFloat.percent_value (Z.of_nat (length inputs))
                       (Z.of_nat (length inputs)) = 100
                 end).
  { destruct inputs as [|x l]; [exact I|].
    unfold PyFloat.percent_value. rewrite percent_self; [reflexivity|].
    simpl length. lia. }
  destruct (ConversionThread.transcode_all lib dir files inputs)
    as [[n f'] [e|]];
    cbn [fst snd ConversionThread.emitted].
  - assert (Hv : Signal.progress_values
                   (ConversionThread.batch_signals dir
                      (Z.of_nat (length inputs)) 0 (take n inputs))
                 = map (fun k => PyFloat.percent_value (Z.of_nat k)
                                   (Z.of_nat (length inputs))) (seq 1 n)).
    { rewrite (progress_values_batch_signals dir _ (take n inputs) 0).
      rewrite length_take. f_equal. f_equal. lia. }
    rewrite Hv. split; [reflexivity|]. split; [|auto].
    apply progress_values_sorted; lia.
  - assert (Hv : Signal.progress_values
                   (ConversionThread.batch_signals dir
                      (Z.of_nat (length inputs)) 0 (take n inputs)
                    ++ [Signal.finished])
                 = map (fun k => PyFloat.percent_value (Z.of_nat k)
                                   (Z.of_nat (length inputs))) (seq 1 n)).
    { rewrite progress_values_app.
      rewrite (progress_values_batch_signals dir _ (take n inputs) 0).
      cbn [Signal.progress_values omap list_omap]. rewrite app_nil_r.
      rewrite length_take. f_equal. f_equal. lia. }
    rewrite Hv. split; [reflexivity|]. split; [|auto].
    apply progress_values_sorted; lia.
Qed.

(** ** The cache across a schedule *)

Section CacheLemmas.
Import App.
Variable lib : Pydub.
Variable qt : bool.

Lemma gui_window (f : MainWindow.t -> MainWindow.t * list ConversionThread.t)
    (s : t) :
  window (gui f s) = fst (f (window s)).
Proof. unfold gui. destruct (f (window s)); reflexivity. Qed.

Lemma work_window (n : nat) (s : t) : window (step lib qt (Work n) s) = window s.
Proof.
  simpl. destruct (workers s !! n) as [w|]; [|reflexivity].
  destruct (worker_step lib w (files s)) as [[w' fs'] sigs]. reflexivity.
Qed.

Lemma step_lookup_untouched (p : string) (a : Action) (s : t) :
  ~ touches p a s ->
  MainWindow.lookup p (window (step lib qt a s)) = MainWindow.lookup p (window s).
Proof.
  intros Hn. unfold MainWindow.lookup.
  destruct a as [urls|chosen|dir|current|current|row| |n].
  - simpl step. rewrite gui_window. f_equal. apply converted_files_dropEvent.
  - simpl step. rewrite gui_window. f_equal. apply converted_files_select_files.
  - simpl step. rewrite gui_window. f_equal.
    apply converted_files_select_output_dir.
  - simpl step. rewrite gui_window. cbn [fst].
    pose proof (lookup_remove current p (window s)) as H.
    unfold MainWindow.lookup in H. rewrite H.
    destruct (decide _) as [Hp|Hp]; [|reflexivity].
    exfalso. apply Hn. exact Hp.
  - simpl step. rewrite gui_window. f_equal. apply converted_files_reconvert.
  - simpl step. rewrite gui_window. f_equal. apply converted_files_preview.
  - simpl step. simpl touches in Hn.
    destruct (mailbox s) as [|sig rest]; [reflexivity|]. cbn [window].
    pose proof (lookup_handle sig p (window s)) as H.
    unfold MainWindow.lookup in H. rewrite H.
    destruct sig as [v|o c|]; try reflexivity.
    destruct (decide (o = p)) as [Ho|Ho]; [|reflexivity].
    exfalso. apply Hn. exact Ho.
  - rewrite work_window. reflexivity.
Qed.

Lemma exec_lookup_untouched (p : string) (schedule : list Action) :
  forall s,
    untouched lib qt p schedule s ->
    MainWindow.lookup p (window (exec lib qt schedule s))
    = MainWindow.lookup p (window s).
Proof.
  induction schedule as [|a rest IH]; intros s H; [reflexivity|].
  destruct H as [Ha Hrest]. simpl exec.
  change (fold_left (fun acc a0 => step lib qt a0 acc) rest (step lib qt a s))
    with (exec lib qt rest (step lib qt a s)).
  rewrite (IH _ Hrest). apply step_lookup_untouched. exact Ha.
Qed.

End CacheLemmas.

(** C6, where the claim fails: a.m4a is converted and its entry is in the
    cache; the user then removes a.m4a from the list. The lookup now finds
    nothing, although a.m4a was not submitted again: there is still the one
    thread, and it has returned. This is so whether or not Qt's own
    [finished()] reaches the window. *)
Lemma C6_counterexample :
  Forall (fun qt_finished : bool =>
    let s1 := App.exec plain_pydub qt_finished
                [App.SelectOutputDir "/out"; App.Drop ["a.m4a"%string];
                 App.Work 0; App.Deliver; App.Deliver;
                 App.Work 0; App.Deliver; App.Deliver]
                (App.init {[ "a.m4a"%string := [1; 2; 3] ]}) in
    let s2 := App.step plain_pydub qt_finished (App.Remove (Some 0%nat)) s1 in
    MainWindow.lookup "a.m4a" (App.window s1) = Some "/out/a.wav"%string
    /\ MainWindow.lookup "a.m4a" (App.window s2) = None
    /\ App.workers s2
       = [{| App.thread := ConversionThread.init ["a.m4a"%string] "/out";
             App.pc := App.Returned |}]
    /\ App.mailbox s2 = [])
    [false; true].
Proof. repeat constructor. Qed.

(** C6 (as the code has it). When the window handles the
    [file_converted] signal of a source, the cache entry of that source
    becomes the reported destination, whatever it was before; and every
    later lookup of that source returns exactly this destination, through
    any schedule of user actions, worker steps and signal deliveries in which
    no further [file_converted] for that source is handled and the source's
    list entry is not removed. *)
Theorem C6_cache_entry (lib : Pydub) (qt : bool) (s : App.t) (p c : string)
    (queued : list Signal.t) (schedule : list App.Action) :
  App.mailbox s = Signal.file_converted p c :: queued ->
  App.untouched lib qt p schedule (App.step lib qt App.Deliver s) ->
  MainWindow.lookup p (App.window (App.step lib qt App.Deliver s)) = Some c
  /\ MainWindow.lookup p
       (App.window (App.exec lib qt (App.Deliver :: schedule) s)) = Some c.
Proof.
  intros Hm Hu.
  assert (H1 : MainWindow.lookup p (App.window (App.step lib qt App.Deliver s))
               = Some c).
  { simpl App.step. rewrite Hm. cbn [App.window MainWindow.handle].
    apply lookup_file_converted. }
  split; [exact H1|].
  change (App.exec lib qt (App.Deliver :: schedule) s)
    with (App.exec lib qt schedule (App.step lib qt App.Deliver s)).
  rewrite (exec_lookup_untouched lib qt p schedule _ Hu). exact H1.
Qed.

Lemma C6_witness :
  let s := App.exec plain_pydub true
             [App.SelectOutputDir "/out"; App.Drop ["a.m4a"%string];
              App.Work 0; App.Deliver]
             (App.init {[ "a.m4a"%string := [1; 2; 3] ]}) in
  let schedule := [App.Work 0; App.Deliver; App.Preview 0;
                   App.Drop ["b.m4a"%string]; App.Work 1] in
  App.mailbox s = [Signal.file_converted "a.m4a" "/out/a.wav"]
  /\ MainWindow.lookup "a.m4a"
       (App.window (App.step plain_pydub true App.Deliver s))
     = Some "/out/a.wav"%string
  /\ MainWindow.lookup "a.m4a"
       (App.window (App.exec plain_pydub true (App.Deliver :: schedule) s))
     = Some "/out/a.wav"%string.
Proof.
  cbv zeta.
  assert (Hm : App.mailbox
                 (App.exec plain_pydub true
                    [App.SelectOutputDir "/out"; App.Drop ["a.m4a"%string];
                     App.Work 0; App.Deliver]
                    (App.init {[ "a.m4a"%string := [1; 2; 3] ]}))
               = Signal.file_converted "a.m4a" "/out/a.wav" :: [])
    by (vm_compute; reflexivity).
  split; [exact Hm|].
  apply (C6_cache_entry plain_pydub true _ "a.m4a" "/out/a.wav" []
           [App.Work 0; App.Deliver; App.Preview 0;
            App.Drop ["b.m4a"%string]; App.Work 1] Hm).
  vm_compute. repeat split; try (intros []); try discriminate.
Defined.

(** ** Submissions while a thread is running *)

Section SubmissionLemmas.
Import App.
Variable lib : Pydub.
Variable qt : bool.

Lemma running_app (s : t) (th : ConversionThread.t) :
  List.filter is_running (workers s ++ [spawn th]) = running s ++ [spawn th].
Proof. unfold running. rewrite List.filter_app. reflexivity. Qed.

Lemma select_files_disabled (chosen : list string) (s : t) :
  MainWindow.select_button (window s) = false ->
  step lib qt (SelectFiles chosen) s = s.
Proof.
  intros H. simpl. unfold gui, MainWindow.select_files. rewrite H. simpl.
  rewrite app_nil_r. destruct s; reflexivity.
Qed.

Lemma select_output_dir_disabled (dir : string) (s : t) :
  MainWindow.output_dir_button (window s) = false ->
  step lib qt (SelectOutputDir dir) s = s.
Proof.
  intros H. simpl. unfold gui, MainWindow.select_output_dir. rewrite H. simpl.
  rewrite app_nil_r. destruct s; reflexivity.
Qed.

(** The two buttons of a window. *)
Local Abbreviation buttons w :=
  (MainWindow.select_button w, MainWindow.output_dir_button w).

Lemma buttons_fold_add (l : list string) :
  forall w,
    buttons (fold_left (fun acc f => MainWindow.add_file_to_list f acc) l w)
    = buttons w.
Proof.
  induction l as [|x l IH]; intros w; [reflexivity|].
  cbn [fold_left]. rewrite IH. reflexivity.
Qed.

Lemma buttons_fold_select (l : list string) :
  forall w, buttons (fold_left MainWindow.select_one l w) = buttons w.
Proof.
  induction l as [|x l IH]; intros w; [reflexivity|].
  cbn [fold_left]. rewrite IH. unfold MainWindow.select_one.
  destruct (MainWindow.mem x (MainWindow.input_files w)); reflexivity.
Qed.

Lemma buttons_dropEvent (urls : list string) (w : MainWindow.t) :
  buttons (MainWindow.dropEvent urls w).1 = buttons w
  \/ buttons (MainWindow.dropEvent urls w).1 = (false, false).
Proof.
  unfold MainWindow.dropEvent.
  pose proof (buttons_fold_add (List.filter MainWindow.is_m4a urls) w) as H.
  destruct (List.filter MainWindow.is_m4a urls) as [|x l]; [left; exact H|].
  destruct (String.eqb _ ""); [left; exact H|right; reflexivity].
Qed.

Lemma buttons_reconvert (current : option nat) (w : MainWindow.t) :
  buttons (MainWindow.reconvert_selected_file current w).1 = buttons w
  \/ buttons (MainWindow.reconvert_selected_file current w).1 = (false, false).
Proof.
  unfold MainWindow.reconvert_selected_file.
  destruct (current ≫= _); [|left; reflexivity].
  destruct (String.eqb _ ""); [left|right]; reflexivity.
Qed.

Lemma buttons_remove (current : option nat) (w : MainWindow.t) :
  buttons (MainWindow.remove_selected_file current w) = buttons w.
Proof.
  unfold MainWindow.remove_selected_file.
  destruct current as [row|]; [|reflexivity].
  destruct (MainWindow.file_list w !! row) as [it|]; [|reflexivity].
  cbv zeta.
  destruct (MainWindow.mem _ _);
    cbn [MainWindow.converted_files MainWindow.set_file_list
         MainWindow.set_input_files];
    destruct (MainWindow.converted_files w !! _); reflexivity.
Qed.

Lemma buttons_preview (row : nat) (w : MainWindow.t) :
  buttons (MainWindow.preview_converted_file row w) = buttons w.
Proof.
  unfold MainWindow.preview_converted_file.
  destruct (MainWindow.file_list w !! row); [|reflexivity].
  destruct (MainWindow.converted_files w !! _); reflexivity.
Qed.

(** The buttons stay disabled through every action that does not hand a
    [finished] signal to its slot. *)
Lemma step_buttons_disabled (a : Action) (s : t) :
  buttons (window s) = (false, false) ->
  Signal.finished ∉ handles a s ->
  buttons (window (step lib qt a s)) = (false, false).
Proof.
  intros Hb Hf.
  assert (Hs : MainWindow.select_button (window s) = false) by congruence.
  assert (Ho : MainWindow.output_dir_button (window s) = false) by congruence.
  destruct a as [urls|chosen|dir|current|current|row| |n].
  - cbn [step]. rewrite gui_window.
    destruct (buttons_dropEvent urls (window s)) as [H|H]; congruence.
  - rewrite select_files_disabled by exact Hs. exact Hb.
  - rewrite select_output_dir_disabled by exact Ho. exact Hb.
  - cbn [step]. rewrite gui_window. cbn [fst].
    rewrite buttons_remove. exact Hb.
  - cbn [step]. rewrite gui_window.
    destruct (buttons_reconvert current (window s)) as [H|H]; congruence.
  - cbn [step]. rewrite gui_window. cbn [fst].
    rewrite buttons_preview. exact Hb.
  - cbn [step handles] in *.
    destruct (mailbox s) as [|sig rest]; [exact Hb|].
    destruct sig as [v|o c|]; cbn [window MainWindow.handle]; try exact Hb.
    exfalso. apply Hf. apply elem_of_cons. left. reflexivity.
  - rewrite work_window. exact Hb.
Qed.

Lemma exec_buttons_disabled (schedule : list Action) :
  forall s,
    buttons (window s) = (false, false) ->
    Signal.finished ∉ handled lib qt schedule s ->
    buttons (window (exec lib qt schedule s)) = (false, false).
Proof.
  induction schedule as [|a rest IH]; intros s Hb Hf; [exact Hb|].
  cbn [handled] in Hf. apply not_elem_of_app in Hf as [Ha Hrest].
  change (exec lib qt (a :: rest) s)
    with (exec lib qt rest (step lib qt a s)).
  apply IH; [|exact Hrest]. apply step_buttons_disabled; assumption.
Qed.

(** A step of thread [n] leaves every other thread as it is, and thread
    [n] with the batch and the directory it was constructed with. *)
Lemma work_workers (n m : nat) (w : Worker) (s : t) :
  workers s !! m = Some w ->
  exists w', workers (step lib qt (Work n) s) !! m = Some w'
             /\ thread w' = thread w /\ (m <> n -> w' = w).
Proof.
  intros Hm. cbn [step].
  destruct (workers s !! n) as [wn|] eqn:Hn; [|exists w; auto].
  pose proof (worker_step_thread lib wn (files s)) as Ht.
  destruct (worker_step lib wn (files s)) as [[w' fs'] sigs].
  cbn [fst] in Ht. cbn [workers].
  destruct (decide (m = n)) as [->|Hne].
  - exists w'. rewrite list_lookup_insert_eq by (eapply lookup_lt_Some; eauto).
    split; [reflexivity|]. split; [congruence|contradiction].
  - exists w. rewrite list_lookup_insert_ne by congruence. auto.
Qed.

(** A handler that starts one thread. *)
Lemma gui_started
    (f : MainWindow.t -> MainWindow.t * list ConversionThread.t)
    (s : t) (w' : MainWindow.t) (th : ConversionThread.t) :
  f (window s) = (w', [th]) ->
  workers (gui f s) = workers s ++ [spawn th]
  /\ running (gui f s) = running s ++ [spawn th]
  /\ window (gui f s) = w'
  /\ files (gui f s) = files s /\ mailbox (gui f s) = mailbox s.
Proof.
  intros H. unfold gui. rewrite H. cbn [workers map window files mailbox].
  split; [reflexivity|]. split; [apply running_app|]. auto.
Qed.

Lemma dropEvent_starts (urls : list string) (w : MainWindow.t) :
  List.filter MainWindow.is_m4a urls <> [] ->
  MainWindow.output_dir w <> ""%string ->
  exists w',
    MainWindow.dropEvent urls w
    = (w', [ConversionThread.init (List.filter MainWindow.is_m4a urls)
              (MainWindow.output_dir w)])
    /\ buttons w' = (false, false).
Proof.
  intros Hf Hd. unfold MainWindow.dropEvent.
  pose proof (converted_files_fold_add
                (List.filter MainWindow.is_m4a urls) w) as [_ Ho].
  destruct (List.filter MainWindow.is_m4a urls) as [|x l] eqn:E;
    [contradiction|].
  rewrite Ho.
  destruct (String.eqb_spec (MainWindow.output_dir w) "") as [E0|E0];
    [contradiction|].
  cbn [MainWindow.start_conversion MainWindow.set_input_files
       MainWindow.output_dir].
  rewrite Ho. eexists. split; reflexivity.
Qed.

Lemma select_files_starts (chosen : list string) (w : MainWindow.t) :
  MainWindow.select_button w = true ->
  chosen <> [] ->
  MainWindow.output_dir w <> ""%string ->
  exists w',
    MainWindow.select_files chosen w
    = (w', [ConversionThread.init chosen (MainWindow.output_dir w)])
    /\ buttons w' = (false, false).
Proof.
  intros Hb Hc Hd. unfold MainWindow.select_files. rewrite Hb. cbn [negb].
  pose proof (converted_files_fold_select chosen w) as [_ Ho].
  destruct chosen as [|x l]; [contradiction|].
  rewrite Ho.
  destruct (String.eqb_spec (MainWindow.output_dir w) "") as [E0|E0];
    [contradiction|].
  cbn [MainWindow.start_conversion]. rewrite Ho.
  eexists. split; reflexivity.
Qed.

Lemma reconvert_starts (row : nat) (it : MainWindow.Item) (w : MainWindow.t) :
  MainWindow.file_list w !! row = Some it ->
  MainWindow.output_dir w <> ""%string ->
  exists w',
    MainWindow.reconvert_selected_file (Some row) w
    = (w', [ConversionThread.init [MainWindow.path it]
              (MainWindow.output_dir w)])
    /\ buttons w' = (false, false).
Proof.
  intros Hr Hd. unfold MainWindow.reconvert_selected_file.
  cbn [mbind option_bind]. rewrite Hr.
  destruct (String.eqb_spec (MainWindow.output_dir w) "") as [E0|E0];
    [contradiction|].
  eexists. split; reflexivity.
Qed.

End SubmissionLemmas.

(** C7, where the claim fails: two drops in a row, the second while the
    thread of the first has not taken a step, and then a reconversion of
    the first row. All three threads are inside [run] with their first job
    ahead; the files of the later submissions are not queued behind the
    first thread's job but given to threads of their own. *)
Lemma C7_counterexample :
  Forall (fun qt_finished : bool =>
    let s := App.exec plain_pydub qt_finished
               [App.SelectOutputDir "/out"; App.Drop ["a.m4a"%string];
                App.Drop ["b.m4a"%string]; App.Reconvert (Some 0%nat)]
               (App.init {[ "a.m4a"%string := [1]; "b.m4a"%string := [2] ]}) in
    App.running s
    = [{| App.thread := ConversionThread.init ["a.m4a"%string] "/out";
          App.pc := App.Running 0 |};
       {| App.thread := ConversionThread.init ["b.m4a"%string] "/out";
          App.pc := App.Running 0 |};
       {| App.thread := ConversionThread.init ["a.m4a"%string] "/out";
          App.pc := App.Running 0 |}]
    /\ length (App.running s) = 3%nat)
    [false; true].
Proof. repeat constructor. Qed.

(** C7 (as the code has it). In every state of the application, with
    whatever threads running:
    - every submission that reaches [start_conversion] (a drop that holds
      m4a files, a selection through the enabled file button, a
      reconversion of a row, each with an output directory set) constructs
      and starts one thread of its own for exactly the submitted files; the
      threads that were running still are, the new one runs next to them,
      and nothing is queued; both buttons are disabled afterwards;
    - while the select button is disabled a selection through the file
      dialog does nothing, and while the directory button is disabled the
      directory dialog does nothing; both stay disabled through every
      schedule in which no [finished] signal is handled, and handling one
      enables both;
    - no handler of the GUI thread alters or removes a started thread, and
      it starts at most one; a step of a thread changes that thread only,
      and never its batch or its directory. *)
Theorem C7_thread_per_submission (lib : Pydub) (qt_finished : bool)
    (s : App.t) :
  let dir := MainWindow.output_dir (App.window s) in
  let submits := fun (a : App.Action) (batch : list string) =>
    let s' := App.step lib qt_finished a s in
    App.workers s'
    = App.workers s ++ [App.spawn (ConversionThread.init batch dir)]
    /\ App.running s'
       = App.running s ++ [App.spawn (ConversionThread.init batch dir)]
    /\ MainWindow.select_button (App.window s') = false
    /\ MainWindow.output_dir_button (App.window s') = false
    /\ App.files s' = App.files s /\ App.mailbox s' = App.mailbox s in
  (dir <> ""%string ->
   (forall urls : list string,
      List.filter MainWindow.is_m4a urls <> [] ->
      submits (App.Drop urls) (List.filter MainWindow.is_m4a urls))
   /\ (forall chosen : list string,
         MainWindow.select_button (App.window s) = true ->
         chosen <> [] ->
         submits (App.SelectFiles chosen) chosen)
   /\ (forall (row : nat) (it : MainWindow.Item),
         MainWindow.file_list (App.window s) !! row = Some it ->
         submits (App.Reconvert (Some row)) [MainWindow.path it]))
  /\ (MainWindow.select_button (App.window s) = false ->
      forall chosen, App.step lib qt_finished (App.SelectFiles chosen) s = s)
  /\ (MainWindow.output_dir_button (App.window s) = false ->
      forall d, App.step lib qt_finished (App.SelectOutputDir d) s = s)
  /\ (forall schedule : list App.Action,
        MainWindow.select_button (App.window s) = false ->
        MainWindow.output_dir_button (App.window s) = false ->
        Signal.finished ∉ App.handled lib qt_finished schedule s ->
        let s' := App.exec lib qt_finished schedule s in
        MainWindow.select_button (App.window s') = false
        /\ MainWindow.output_dir_button (App.window s') = false)
  /\ (forall queued : list Signal.t,
        App.mailbox s = Signal.finished :: queued ->
        let s' := App.step lib qt_finished App.Deliver s in
        MainWindow.select_button (App.window s') = true
        /\ MainWindow.output_dir_button (App.window s') = true)
  /\ (forall a : App.Action,
        App.is_gui a = true ->
        App.workers s `prefix_of` App.workers (App.step lib qt_finished a s)
        /\ (length (App.workers (App.step lib qt_finished a s))
            <= S (length (App.workers s)))%nat)
  /\ (forall (n m : nat) (w : App.Worker),
        App.workers s !! m = Some w ->
        exists w',
          App.workers (App.step lib qt_finished (App.Work n) s) !! m = Some w'
          /\ App.thread w' = App.thread w /\ (m <> n -> w' = w)).
Proof.
  cbv zeta.
  assert (Hsub : forall (f : MainWindow.t
                             -> MainWindow.t * list ConversionThread.t)
                        (batch : list string),
             (exists w',
                f (App.window s)
                = (w', [ConversionThread.init batch
                          (MainWindow.output_dir (App.window s))])
                /\ (MainWindow.select_button w',
                    MainWindow.output_dir_button w') = (false, false)) ->
             App.workers (App.gui f s)
             = App.workers s
                 ++ [App.spawn (ConversionThread.init batch
                                  (MainWindow.output_dir (App.window s)))]
             /\ App.running (App.gui f s)
                = App.running s
                    ++ [App.spawn (ConversionThread.init batch
                                     (MainWindow.output_dir (App.window s)))]
             /\ MainWindow.select_button (App.window (App.gui f s)) = false
             /\ MainWindow.output_dir_button (App.window (App.gui f s)) = false
             /\ App.files (App.gui f s) = App.files s
             /\ App.mailbox (App.gui f s) = App.mailbox s).
  { intros f batch (w' & Hf & Hb).
    destruct (gui_started f s w' _ Hf) as (H1 & H2 & H3 & H4 & H5).
    rewrite H3. split; [exact H1|]. split; [exact H2|].
    split; [congruence|]. split; [congruence|]. auto. }
  split; [|split; [|split; [|split; [|split; [|split]]]]].
  - intros Hd. split; [|split].
    + intros urls Hf. apply (Hsub (MainWindow.dropEvent urls)).
      apply dropEvent_starts; assumption.
    + intros chosen Hb Hc. apply (Hsub (MainWindow.select_files chosen)).
      apply select_files_starts; assumption.
    + intros row it Hr.
      apply (Hsub (MainWindow.reconvert_selected_file (Some row))).
      apply reconvert_starts; assumption.
  - intros Hb chosen. apply select_files_disabled. exact Hb.
  - intros Hb d. apply select_output_dir_disabled. exact Hb.
  - intros schedule Hb1 Hb2 Hf.
    pose proof (exec_buttons_disabled lib qt_finished schedule s
                  ltac:(congruence) Hf) as H.
    split; congruence.
  - intros queued Hm. cbn [App.step]. rewrite Hm.
    cbn [App.window MainWindow.handle]. split; reflexivity.
  - intros a Ha.
    destruct (step_gui_workers lib qt_finished a s Ha) as (started & -> & Hl).
    split; [exists (map App.spawn started); reflexivity|].
    rewrite length_app, length_map. lia.
  - intros n m w Hm. apply work_workers. exact Hm.
Qed.

Lemma C7_witness :
  let s := App.exec plain_pydub true
             [App.SelectOutputDir "/out"; App.Drop ["a.m4a"%string];
              App.Work 0]
             (App.init {[ "a.m4a"%string := [1]; "b.m4a"%string := [2] ]}) in
  let it := {| MainWindow.text := "a.m4a"; MainWindow.path := "a.m4a";
               MainWindow.converted := false |} in
  let s' := App.step plain_pydub true (App.Reconvert (Some 0%nat)) s in
  (MainWindow.output_dir (App.window s) <> ""%string
   /\ MainWindow.file_list (App.window s) !! 0%nat = Some it
   /\ length (App.running s) = 1%nat)
  /\ App.workers s'
     = App.workers s
         ++ [App.spawn (ConversionThread.init [MainWindow.path it]
                          (MainWindow.output_dir (App.window s)))]
  /\ App.running s'
     = App.running s
         ++ [App.spawn (ConversionThread.init [MainWindow.path it]
                          (MainWindow.output_dir (App.window s)))]
  /\ MainWindow.select_button (App.window s') = false
  /\ MainWindow.output_dir_button (App.window s') = false
  /\ App.files s' = App.files s /\ App.mailbox s' = App.mailbox s.
Proof.
  cbv zeta. split.
  - split; [apply String.eqb_neq; vm_compute; reflexivity|].
    split; vm_compute; reflexivity.
  - apply (proj2 (proj2 (proj1 (C7_thread_per_submission plain_pydub true
                                  (App.exec plain_pydub true
                                     [App.SelectOutputDir "/out";
                                      App.Drop ["a.m4a"%string]; App.Work 0]
                                     (App.init
                                        {[ "a.m4a"%string := [1];
                                           "b.m4a"%string := [2] ]})))
                          ltac:(apply String.eqb_neq; vm_compute;
                                reflexivity))) 0%nat).
    vm_compute; reflexivity.
Defined.

(** ** Sources with the same base name *)




(** * Further properties of the code *)

(** ** The progress value *)

Lemma percent_value_nonneg (k n : Z) :
  0 < k <= n -> 0 <= PyFloat.percent_value k n.
Proof.
  intros H. rewrite percent_value_scaled by exact H.
  apply Z.div_pos; [|apply pow2_pos; unfold FloatFacts.scale; lia].
  apply round_scaled_nonneg; [|lia].
  assert (0 <= FloatFacts.round_scaled (k * 2 ^ FloatFacts.scale) n); [|lia].
  apply round_scaled_nonneg; [|lia].
  apply Z.mul_nonneg_nonneg; [lia|].
  apply Z.lt_le_incl, pow2_pos. unfold FloatFacts.scale. lia.
Qed.

Lemma percent_value_le_100 (k n : Z) :
  0 < k <= n -> PyFloat.percent_value k n <= 100.
Proof.
  intros H.
  assert (E : PyFloat.percent_value n n = 100).
  { unfold PyFloat.percent_value. rewrite percent_self by lia. reflexivity. }
  rewrite <- E. apply percent_value_mono; lia.
Qed.

(** Below the last count the value stays below 100, for any total a list
    can have. *)
Lemma percent_value_below_100 (k n : Z) :
  0 < k < n -> n < 2 ^ 54 -> PyFloat.percent_value k n <= 99.
Proof.
  intros Hk Hn. rewrite percent_value_scaled by lia.
  set (c := FloatFacts.scale).
  assert (Pc : 0 < 2 ^ c) by (apply pow2_pos; unfold c, FloatFacts.scale; lia).
  assert (P54 : 2 ^ 54 = 18014398509481984) by reflexivity.
  assert (HW : FloatFacts.round_scaled (k * 2 ^ c) n
               <= FloatFacts.round_scaled ((2 ^ 54 - 2) * 2 ^ c) (2 ^ 54 - 1)).
  { apply round_scaled_mono.
    - apply Z.mul_nonneg_nonneg; lia.
    - lia.
    - lia.
    - rewrite P54 in *.
      replace (k * 2 ^ c * (18014398509481984 - 1))
        with (k * (18014398509481984 - 1) * 2 ^ c) by ring.
      replace ((18014398509481984 - 2) * 2 ^ c * n)
        with ((18014398509481984 - 2) * n * 2 ^ c) by ring.
      apply Z.mul_le_mono_nonneg_r; [lia|]. nia. }
  assert (HW0 : 0 <= FloatFacts.round_scaled (k * 2 ^ c) n).
  { apply round_scaled_nonneg; [|lia]. apply Z.mul_nonneg_nonneg; lia. }
  assert (H99 : FloatFacts.round_scaled
                  (100 * FloatFacts.round_scaled ((2 ^ 54 - 2) * 2 ^ c)
                           (2 ^ 54 - 1)) 1 / 2 ^ c = 99)
    by (vm_compute; reflexivity).
  rewrite <- H99.
  apply Z.div_le_mono; [exact Pc|].
  apply round_scaled_mono; lia.
Qed.

(** [run] in terms of the pydub outcomes, in a form convenient to use. *)
Lemma run_outcome (lib : Pydub) (inputs : list string) (dir : string)
    (files : Fs) :
  let r := ConversionThread.run lib
             (ConversionThread.start (ConversionThread.init inputs dir) files) in
  let total := Z.of_nat (length inputs) in
  exists (n : nat) (files' : Fs) (failure : option exn),
    ConversionThread.transcode_all lib dir files inputs = (n, files', failure)
    /\ ConversionThread.emitted (snd r)
       = ConversionThread.batch_signals dir total 0 (take n inputs)
           ++ match failure with None => [Signal.finished] | Some _ => [] end
    /\ fst r = match failure with None => inr tt | Some e => inl e end
    /\ ConversionThread.fs (snd r) = files'
    /\ match failure with
       | None => n = length inputs
       | Some _ => (n < length inputs)%nat
       end.
Proof.
  cbv zeta. rewrite run_eq. cbv zeta.
  simpl ConversionThread.input_files. simpl ConversionThread.output_dir.
  pose proof (transcode_all_count lib dir inputs files) as Hc.
  destruct (ConversionThread.transcode_all lib dir files inputs)
    as [[n f'] [e|]]; exists n, f'; eexists; (split; [reflexivity|]);
    simpl; rewrite ?app_nil_r; auto.
Qed.

Lemma run_progress_values (lib : Pydub) (inputs : list string) (dir : string)
    (files : Fs) :
  let r := ConversionThread.run lib
             (ConversionThread.start (ConversionThread.init inputs dir) files) in
  exists n : nat,
    Signal.progress_values (ConversionThread.emitted (snd r))
    = map (fun k => PyFloat.percent_value (Z.of_nat k)
                      (Z.of_nat (length inputs))) (seq 1 n)
    /\ (n <= length inputs)%nat
    /\ match fst r with
       | inr _ => n = length inputs
       | inl _ => (n < length inputs)%nat
       end.
Proof.
  cbv zeta.
  destruct (run_outcome lib inputs dir files)
    as (n & f' & failure & _ & Hem & Hr & _ & Hn).
  exists n. rewrite Hem, Hr, progress_values_app.
  rewrite (progress_values_batch_signals dir _ (take n inputs) 0).
  assert (Hlen : length (take n inputs) = n).
  { rewrite length_take. destruct failure; lia. }
  rewrite Hlen.
  destruct failure; simpl; rewrite app_nil_r; repeat split; auto; lia.
Qed.

(** X1. Every progress value the worker emits lies between 0 and 100, the
    range of the progress bar, whatever the batch and whatever pydub does. *)
Theorem progress_in_range (lib : Pydub) (inputs : list string) (dir : string)
    (files : Fs) :
  let r := ConversionThread.run lib
             (ConversionThread.start (ConversionThread.init inputs dir) files) in
  Forall (fun v => 0 <= v <= 100)
    (Signal.progress_values (ConversionThread.emitted (snd r))).
Proof.
  cbv zeta.
  destruct (run_progress_values lib inputs dir files) as (n & -> & Hn & _).
  apply List.Forall_forall. intros v Hv.
  apply in_map_iff in Hv as (k & <- & Hk). apply in_seq in Hk.
  split; [apply percent_value_nonneg|apply percent_value_le_100]; lia.
Qed.

(** X2. For a batch of fewer than 2^54 files the value 100 is emitted at
    most once, by the last job: when [run] is ended by an exception every
    progress value is at most 99, and when it returns normally the values
    are a run of values up to 99 followed by the single 100 (or there is
    none, for an empty batch). *)
Theorem progress_100_only_last (lib : Pydub) (inputs : list string)
    (dir : string) (files : Fs) :
  Z.of_nat (length inputs) < 2 ^ 54 ->
  let r := ConversionThread.run lib
             (ConversionThread.start (ConversionThread.init inputs dir) files) in
  let values := Signal.progress_values (ConversionThread.emitted (snd r)) in
  match fst r with
  | inl _ => Forall (fun v => v <= 99) values
  | inr _ =>
      match inputs with
      | [] => values = []
      | _ :: _ => exists init, values = init ++ [100]
                               /\ Forall (fun v => v <= 99) init
      end
  end.
Proof.
  intros Hlen. cbv zeta.
  destruct (run_progress_values lib inputs dir files) as (n & -> & Hn & Hr).
  assert (Hlow : forall m : nat,
             (m < length inputs)%nat ->
             Forall (fun v => v <= 99)
               (map (fun k => PyFloat.percent_value (Z.of_nat k)
                                 (Z.of_nat (length inputs))) (seq 1 m))).
  { intros m Hm. apply List.Forall_forall. intros v Hv.
    apply in_map_iff in Hv as (k & <- & Hk). apply in_seq in Hk.
    apply percent_value_below_100; lia. }
  destruct (fst _) as [e|[]].
  - apply Hlow. exact Hr.
  - subst n. destruct inputs as [|x l]; [reflexivity|].
    simpl length in *.
    exists (map (fun k => PyFloat.percent_value (Z.of_nat k)
                            (Z.of_nat (S (length l)))) (seq 1 (length l))).
    split; [|apply Hlow; lia].
    rewrite seq_S, map_app. simpl map. f_equal. f_equal.
    unfold PyFloat.percent_value.
    replace (Z.of_nat (1 + length l)) with (Z.of_nat (S (length l))) by lia.
    rewrite percent_self by lia. reflexivity.
Qed.

Lemma progress_100_only_last_witness :
  let inputs := ["a.m4a"; "b.m4a"; "c.m4a"]%string in
  let r := ConversionThread.run plain_pydub
             (ConversionThread.start (ConversionThread.init inputs "/out")
                {[ "a.m4a"%string := [1]; "b.m4a"%string := [2];
                   "c.m4a"%string := [3] ]}) in
  let values := Signal.progress_values (ConversionThread.emitted (snd r)) in
  Z.of_nat (length inputs) < 2 ^ 54
  /\ match fst r with
     | inl _ => Forall (fun v => v <= 99) values
     | inr _ =>
         match inputs with
         | [] => values = []
         | _ :: _ => exists init, values = init ++ [100]
                                  /\ Forall (fun v => v <= 99) init
         end
     end.
Proof.
  split; [vm_compute; reflexivity|].
  apply (progress_100_only_last plain_pydub ["a.m4a"; "b.m4a"; "c.m4a"]%string
           "/out" {[ "a.m4a"%string := [1]; "b.m4a"%string := [2];
                     "c.m4a"%string := [3] ]}).
  vm_compute. reflexivity.
Defined.

(** ** Where a conversion is written *)


Lemma output_file_not_m4a (dir input_file : string) :
  MainWindow.is_m4a (ConversionThread.output_file_of dir input_file) = false.
Proof.
  unfold MainWindow.is_m4a, ConversionThread.output_file_of.
  destruct (join_suffix dir
              (fst (PosixPath.splitext (PosixPath.basename input_file))
                 +:+ ".wav")) as [pre ->].
  rewrite <- append_assoc, lower_app.
  pose proof (endswith_str_app
                (PyStr.lower
                   (pre +:+ fst (PosixPath.splitext
                                   (PosixPath.basename input_file))))
                (PyStr.lower ".wav")) as Hw.
  unfold PyStr.endswith_str in *.
  apply andb_true_iff in Hw as [Hw Hl].
  apply String.eqb_eq in Hw.
  change (String.length ".m4a") with (String.length (PyStr.lower ".wav")).
  rewrite Hw. reflexivity.
Qed.

(** X4. A destination is never a path the drop filter accepts: it ends in
    ".wav", so it differs from every path that ends in ".m4a" in any letter
    case, the source itself included. The worker cannot overwrite one
    m4a-named file with the conversion of another. *)
Theorem destination_not_m4a (dir input_file : string) :
  MainWindow.is_m4a (ConversionThread.output_file_of dir input_file) = false
  /\ forall other : string,
       MainWindow.is_m4a other = true ->
       ConversionThread.output_file_of dir input_file <> other.
Proof.
  pose proof (output_file_not_m4a dir input_file) as H.
  split; [exact H|].
  intros other Ho E. rewrite E in H. congruence.
Qed.

(** ** What a batch leaves behind *)

Lemma transcode_all_frame (lib : Pydub) (dir : string) (inputs : list string) :
  forall (files files' : Fs) (n : nat),
    ConversionThread.transcode_all lib dir files inputs = (n, files', None) ->
    forall k : string,
      Forall (fun x => ConversionThread.output_file_of dir x <> k) inputs ->
      files' !! k = files !! k.
Proof.
  induction inputs as [|x rest IH]; intros files files' n H k Hk.
  - simpl in H. injection H as _ <-. reflexivity.
  - simpl in H.
    destruct (ConversionThread.transcode lib files x _)
      as [[e f1]|f1] eqn:E1; [discriminate|].
    destruct (ConversionThread.transcode_all lib dir f1 rest)
      as [[n1 f2] r] eqn:E2.
    injection H as _ <- ->.
    apply Forall_cons in Hk as [Hx Hrest].
    rewrite (IH f1 f2 n1 E2 k Hrest).
    apply transcode_inr in E1 as (bytes & audio & _ & _ & _ & _ & ->).
    apply lookup_insert_ne. exact Hx.
Qed.

(** X5. A batch that converts every file changes no file but the
    destinations: a path that is no job's destination holds afterwards what
    it held before, and so does every path ending in ".m4a" in any letter
    case, the sources of a drop among them. *)
Theorem batch_leaves_sources (lib : Pydub) (inputs : list string)
    (dir : string) (files : Fs) :
  let r := ConversionThread.run lib
             (ConversionThread.start (ConversionThread.init inputs dir) files) in
  fst r = inr tt ->
  (forall k : string,
     Forall (fun x => ConversionThread.output_file_of dir x <> k) inputs ->
     ConversionThread.fs (snd r) !! k = files !! k)
  /\ (forall k : string,
        MainWindow.is_m4a k = true ->
        ConversionThread.fs (snd r) !! k = files !! k).
Proof.
  cbv zeta. intros Hr.
  destruct (run_outcome lib inputs dir files)
    as (n & f' & failure & Ht & _ & Hr' & Hfs & _).
  rewrite Hr in Hr'. destruct failure as [e|]; [discriminate|].
  rewrite Hfs.
  assert (H1 : forall k : string,
             Forall (fun x => ConversionThread.output_file_of dir x <> k) inputs ->
             f' !! k = files !! k).
  { intros k Hk. exact (transcode_all_frame lib dir inputs files f' n Ht k Hk). }
  split; [exact H1|].
  intros k Hk. apply H1. apply List.Forall_forall. intros x _.
  intros E. pose proof (output_file_not_m4a dir x) as Hx.
  rewrite E in Hx. congruence.
Qed.

Lemma batch_leaves_sources_witness :
  let files : Fs := {[ "/in/a.m4a"%string := [1]; "/in/B.M4A"%string := [2] ]} in
  let r := ConversionThread.run plain_pydub
             (ConversionThread.start
                (ConversionThread.init ["/in/a.m4a"; "/in/B.M4A"]%string "/in")
                files) in
  fst r = inr tt
  /\ ConversionThread.fs (snd r) !! "/in/a.m4a"%string = files !! "/in/a.m4a"%string.
Proof.
  cbv zeta. split; [vm_compute; reflexivity|].
  apply (batch_leaves_sources plain_pydub ["/in/a.m4a"; "/in/B.M4A"]%string
           "/in" {[ "/in/a.m4a"%string := [1]; "/in/B.M4A"%string := [2] ]});
    vm_compute; reflexivity.
Defined.

(** ** The shape of a trace *)

Lemma batch_signals_pairs (dir : string) (total : Z) (l : list string) :
  forall i,
    exists pairs : list (Z * (string * string)),
      ConversionThread.batch_signals dir total i l
      = flat_map (fun p => [Signal.progress p.1;
                            Signal.file_converted p.2.1 p.2.2]) pairs
      /\ map snd pairs
         = map (fun x => (x, ConversionThread.output_file_of dir x)) l.
Proof.
  induction l as [|x l IH]; intros i.
  - exists []. split; reflexivity.
  - destruct (IH (i + 1)) as (pairs & Hp & Hs).
    exists ((PyFloat.percent_value (i + 1) total,
             (x, ConversionThread.output_file_of dir x)) :: pairs).
    simpl. rewrite Hp, Hs. split; reflexivity.
Qed.

(** X6. The signals of [run] come in pairs, a [progress] and then the
    [file_converted] of the same job, one pair per converted file in input
    order. [finished] is emitted exactly when [run] returns normally, once,
    as the last signal; a run ended by an exception emits no [finished]. *)
Theorem trace_shape (lib : Pydub) (inputs : list string) (dir : string)
    (files : Fs) :
  let r := ConversionThread.run lib
             (ConversionThread.start (ConversionThread.init inputs dir) files) in
  exists pairs : list (Z * (string * string)),
    let body := flat_map (fun p => [Signal.progress p.1;
                                    Signal.file_converted p.2.1 p.2.2]) pairs in
    map (fun p => p.2.1) pairs `prefix_of` inputs
    /\ match fst r with
       | inr _ => ConversionThread.emitted (snd r) = body ++ [Signal.finished]
                  /\ map (fun p => p.2.1) pairs = inputs
       | inl _ => ConversionThread.emitted (snd r) = body
                  /\ (length pairs < length inputs)%nat
       end.
Proof.
  cbv zeta.
  destruct (run_outcome lib inputs dir files)
    as (n & f' & failure & _ & Hem & Hr & _ & Hn).
  destruct (batch_signals_pairs dir (Z.of_nat (length inputs))
              (take n inputs) 0) as (pairs & Hp & Hs).
  assert (Hsrc : map (fun p : Z * (string * string) => p.2.1) pairs
                 = take n inputs).
  { assert (E : map (fun p : Z * (string * string) => p.2.1) pairs
                = map fst (map snd pairs)) by (rewrite map_map; reflexivity).
    rewrite E, Hs, map_map. simpl. apply map_id. }
  exists pairs. rewrite Hsrc, Hr, Hem, Hp. split.
  - exists (drop n inputs). symmetry. apply take_drop.
  - destruct failure as [e|].
    + rewrite app_nil_r. split; [reflexivity|].
      assert (length pairs = n); [|lia].
      rewrite <- (length_map (fun p : Z * (string * string) => p.2.1)), Hsrc.
      rewrite length_take. lia.
    + split; [reflexivity|]. subst n. apply firstn_all.
Qed.

(** ** The window after a batch *)

Section BatchWindowLemmas.
Import MainWindow.

Lemma handle_all_app (t1 t2 : list Signal.t) (w : t) :
  handle_all (t1 ++ t2) w = handle_all t2 (handle_all t1 w).
Proof. unfold handle_all. apply fold_left_app. Qed.

Lemma handle_all_cons (s : Signal.t) (trace : list Signal.t) (w : t) :
  handle_all (s :: trace) w = handle_all trace (handle s w).
Proof. reflexivity. Qed.

(** No handler of a signal changes the tracked inputs or the directory. *)
Lemma handle_all_inputs (trace : list Signal.t) :
  forall w, input_files (handle_all trace w) = input_files w
            /\ output_dir (handle_all trace w) = output_dir w.
Proof.
  induction trace as [|s trace IH]; intros w; [auto|].
  rewrite handle_all_cons. destruct (IH (handle s w)) as [-> ->].
  destruct s; auto.
Qed.

(** Only [finished] touches the buttons and the status label. *)
Lemma handle_all_buttons (trace : list Signal.t) :
  forall w,
    Forall (fun s => s <> Signal.finished) trace ->
    select_button (handle_all trace w) = select_button w
    /\ output_dir_button (handle_all trace w) = output_dir_button w
    /\ status_label (handle_all trace w) = status_label w.
Proof.
  induction trace as [|s trace IH]; intros w H; [auto|].
  apply Forall_cons in H as [Hs Ht].
  rewrite handle_all_cons. destruct (IH (handle s w) Ht) as (-> & -> & ->).
  destruct s; auto. contradiction.
Qed.

Lemma batch_signals_no_finished (dir : string) (total : Z) (l : list string) :
  forall i,
    Forall (fun s => s <> Signal.finished)
      (ConversionThread.batch_signals dir total i l).
Proof.
  induction l as [|x l IH]; intros i; simpl; [constructor|].
  constructor; [discriminate|]. constructor; [discriminate|]. apply IH.
Qed.

Lemma handle_all_batch_lookup (dir : string) (total : Z) (l : list string) :
  forall (i : Z) (w : t) (p : string),
    lookup p (handle_all (ConversionThread.batch_signals dir total i l) w)
    = if decide (p ∈ l)
      then Some (ConversionThread.output_file_of dir p)
      else lookup p w.
Proof.
  induction l as [|x l IH]; intros i w p.
  - simpl. destruct (decide (p ∈ [])) as [H|H]; [|reflexivity].
    apply elem_of_nil in H. contradiction.
  - cbn [ConversionThread.batch_signals ConversionThread.job_signals app].
    rewrite !handle_all_cons, IH.
    destruct (decide (p ∈ l)) as [Hl|Hl].
    + destruct (decide (p ∈ x :: l)) as [_|Hn]; [reflexivity|].
      exfalso. apply Hn. apply elem_of_cons. auto.
    + rewrite !lookup_handle.
      destruct (decide (x = p)) as [->|Hx].
      * destruct (decide (p ∈ p :: l)) as [_|Hn]; [reflexivity|].
        exfalso. apply Hn. apply elem_of_cons. auto.
      * destruct (decide (p ∈ x :: l)) as [Hin|_]; [|reflexivity].
        apply elem_of_cons in Hin as [->|Hin]; contradiction.
Qed.

End BatchWindowLemmas.

(** X7. Once the window has handled every signal of a batch that
    converted all its files, the cache maps each input to its destination and
    is unchanged at every other path; the progress bar shows 100, the status
    is "Conversion complete!", both buttons are enabled again, and the
    tracked inputs and the output directory are as before. *)
Theorem batch_handled (lib : Pydub) (inputs : list string) (dir : string)
    (files : Fs) (w : MainWindow.t) :
  let r := ConversionThread.run lib
             (ConversionThread.start (ConversionThread.init inputs dir) files) in
  fst r = inr tt ->
  let w' := MainWindow.handle_all (ConversionThread.emitted (snd r)) w in
  (forall p : string,
     MainWindow.lookup p w'
     = if decide (p ∈ inputs)
       then Some (ConversionThread.output_file_of dir p)
       else MainWindow.lookup p w)
  /\ MainWindow.progress_bar w' = 100
  /\ MainWindow.status_label w' = "Conversion complete!"%string
  /\ MainWindow.select_button w' = true
  /\ MainWindow.output_dir_button w' = true
  /\ MainWindow.input_files w' = MainWindow.input_files w
  /\ MainWindow.output_dir w' = MainWindow.output_dir w.
Proof.
  cbv zeta. intros Hr.
  destruct (run_outcome lib inputs dir files)
    as (n & f' & failure & _ & Hem & Hr' & _ & Hn).
  rewrite Hr in Hr'. destruct failure as [e|]; [discriminate|].
  subst n. rewrite firstn_all in Hem. rewrite Hem, handle_all_app.
  set (w1 := MainWindow.handle_all
               (ConversionThread.batch_signals dir
                  (Z.of_nat (length inputs)) 0 inputs) w).
  destruct (handle_all_inputs
              (ConversionThread.batch_signals dir
                 (Z.of_nat (length inputs)) 0 inputs) w) as [Hi Ho].
  fold w1 in Hi, Ho.
  split; [|repeat split; auto].
  intros p.
  rewrite <- (handle_all_batch_lookup dir (Z.of_nat (length inputs))
                inputs 0 w p).
  reflexivity.
Qed.

Lemma batch_handled_witness :
  let inputs := ["x/a.m4a"; "b.m4a"]%string in
  let r := ConversionThread.run plain_pydub
             (ConversionThread.start (ConversionThread.init inputs "/out")
                {[ "x/a.m4a"%string := [1]; "b.m4a"%string := [2] ]}) in
  let w' := MainWindow.handle_all (ConversionThread.emitted (snd r))
              MainWindow.init in
  fst r = inr tt
  /\ MainWindow.lookup "x/a.m4a" w'
     = (if decide ("x/a.m4a"%string ∈ inputs)
        then Some (ConversionThread.output_file_of "/out" "x/a.m4a")
        else MainWindow.lookup "x/a.m4a" MainWindow.init)
  /\ MainWindow.progress_bar w' = 100.
Proof.
  cbv zeta. split; [vm_compute; reflexivity|].
  pose proof (batch_handled plain_pydub ["x/a.m4a"; "b.m4a"]%string "/out"
                {[ "x/a.m4a"%string := [1]; "b.m4a"%string := [2] ]}
                MainWindow.init) as H.
  cbv zeta in H. specialize (H ltac:(vm_compute; reflexivity)).
  destruct H as (H1 & H2 & _). split; [apply H1|exact H2].
Defined.

(** X8. What the window shows after a conversion has failed depends on
    whether Qt's own [finished()], posted when the thread has ended, reaches
    [conversion_finished]. If it does, the window ends as after a successful
    batch: status "Conversion complete!", the bar at 100 and both buttons
    enabled, although fewer files were converted than submitted. If it does
    not, the window stays as [start_conversion] set it: both buttons
    disabled, the status "Converting...", and a selection through the file
    dialog does nothing. In both cases the conversions reported before the
    failure, fewer than the batch, are in the cache. *)
Theorem failed_batch_window (lib : Pydub) (qt_finished : bool)
    (inputs : list string) (dir : string) (files : Fs) (w : MainWindow.t)
    (e : exn) :
  let r := ConversionThread.run lib
             (ConversionThread.start (ConversionThread.init inputs dir) files) in
  fst r = inl e ->
  let w0 := fst (MainWindow.start_conversion inputs w) in
  let w' := MainWindow.handle_all
              (ConversionThread.emitted (snd r) ++ App.thread_exit qt_finished)
              w0 in
  (if qt_finished
   then MainWindow.select_button w' = true
        /\ MainWindow.output_dir_button w' = true
        /\ MainWindow.status_label w' = "Conversion complete!"%string
        /\ MainWindow.progress_bar w' = 100
   else MainWindow.select_button w' = false
        /\ MainWindow.output_dir_button w' = false
        /\ MainWindow.status_label w' = "Converting..."%string
        /\ (forall chosen, MainWindow.select_files chosen w' = (w', [])))
  /\ Forall (fun oc : string * string => MainWindow.lookup oc.1 w' = Some oc.2)
       (Signal.conversions (ConversionThread.emitted (snd r)))
  /\ (length (Signal.conversions (ConversionThread.emitted (snd r)))
      < length inputs)%nat.
Proof.
  cbv zeta. intros Hr.
  destruct (run_outcome lib inputs dir files)
    as (n & f' & failure & _ & Hem & Hr' & _ & Hn).
  rewrite Hr in Hr'. destruct failure as [e'|]; [|discriminate].
  rewrite app_nil_r in Hem. rewrite Hem.
  set (w0 := fst (MainWindow.start_conversion inputs w)).
  set (batch := ConversionThread.batch_signals dir
                  (Z.of_nat (length inputs)) 0 (take n inputs)).
  destruct (handle_all_buttons batch w0
              (batch_signals_no_finished _ _ _ _)) as (Hb1 & Hb2 & Hs).
  rewrite handle_all_app.
  set (w1 := MainWindow.handle_all batch w0) in *.
  assert (Hcache : forall x, x ∈ take n inputs ->
             MainWindow.lookup x w1
             = Some (ConversionThread.output_file_of dir x)).
  { intros x Hx. unfold w1, batch. rewrite handle_all_batch_lookup.
    destruct (decide (x ∈ take n inputs)); [reflexivity|contradiction]. }
  split; [|split].
  - destruct qt_finished; cbn [App.thread_exit].
    + repeat split; reflexivity.
    + change (MainWindow.handle_all [] w1) with w1.
      assert (Hsel : MainWindow.select_button w1 = false)
        by (rewrite Hb1; reflexivity).
      split; [exact Hsel|]. split; [rewrite Hb2; reflexivity|].
      split; [rewrite Hs; reflexivity|].
      intros chosen. unfold MainWindow.select_files. rewrite Hsel.
      reflexivity.
  - unfold batch at 1. rewrite conversions_batch_signals.
    apply List.Forall_forall. intros [o c] Hin.
    apply in_map_iff in Hin as (x & Hx & Hin). injection Hx as <- <-.
    cbn [fst snd].
    assert (Hl : MainWindow.lookup x w1
                 = Some (ConversionThread.output_file_of dir x))
      by (apply Hcache, list_elem_of_In; exact Hin).
    destruct qt_finished; cbn [App.thread_exit]; exact Hl.
  - unfold batch. rewrite conversions_batch_signals, length_map, length_take.
    lia.
Qed.

Lemma failed_batch_window_witness :
  let inputs := ["a.m4a"; "b.m4a"]%string in
  let r := ConversionThread.run plain_pydub
             (ConversionThread.start (ConversionThread.init inputs "/out")
                {[ "a.m4a"%string := [1] ]}) in
  let w0 := fst (MainWindow.start_conversion inputs MainWindow.init) in
  let w' := MainWindow.handle_all
              (ConversionThread.emitted (snd r) ++ App.thread_exit true) w0 in
  fst r = inl FileNotFoundError
  /\ MainWindow.select_button w' = true
  /\ MainWindow.status_label w' = "Conversion complete!"%string
  /\ MainWindow.lookup "b.m4a" w' = None.
Proof.
  cbv zeta. split; [vm_compute; reflexivity|].
  pose proof (failed_batch_window plain_pydub true ["a.m4a"; "b.m4a"]%string
                "/out" {[ "a.m4a"%string := [1] ]} MainWindow.init
                FileNotFoundError) as H.
  cbv zeta in H. specialize (H ltac:(vm_compute; reflexivity)).
  destruct H as ((H1 & _ & H3 & _) & _).
  split; [exact H1|]. split; [exact H3|]. vm_compute; reflexivity.
Defined.

(** ** What a destination holds *)

Lemma transcode_all_content (lib : Pydub) (dir : string) (x : string)
    (post : list string) :
  forall (pre : list string) (files files' : Fs) (n : nat),
    ConversionThread.transcode_all lib dir files (pre ++ x :: post)
    = (n, files', None) ->
    Forall (fun y => ConversionThread.output_file_of dir y
                     <> ConversionThread.output_file_of dir x) post ->
    Forall (fun y => ConversionThread.output_file_of dir y <> x) pre ->
    exists bytes audio,
      files !! x = Some bytes
      /\ decode lib "m4a" bytes = inr audio
      /\ files' !! ConversionThread.output_file_of dir x
         = Some (encode lib "wav" audio).
Proof.
  induction pre as [|y pre IH]; intros files files' n H Hpost Hpre.
  - cbn [app ConversionThread.transcode_all] in H.
    destruct (ConversionThread.transcode lib files x _)
      as [[e f1]|f1] eqn:E1; [discriminate|].
    destruct (ConversionThread.transcode_all lib dir f1 post)
      as [[n1 f2] r] eqn:E2.
    injection H as _ <- ->.
    apply transcode_inr in E1 as (bytes & audio & Hb & _ & Hd & _ & ->).
    exists bytes, audio. split; [exact Hb|]. split; [exact Hd|].
    rewrite (transcode_all_frame lib dir post _ f2 n1 E2 _ Hpost).
    apply lookup_insert_eq.
  - cbn [app ConversionThread.transcode_all] in H.
    destruct (ConversionThread.transcode lib files y _)
      as [[e f1]|f1] eqn:E1; [discriminate|].
    destruct (ConversionThread.transcode_all lib dir f1 (pre ++ x :: post))
      as [[n1 f2] r] eqn:E2.
    injection H as _ <- ->.
    apply Forall_cons in Hpre as [Hy Hpre].
    destruct (IH f1 f2 n1 E2 Hpost Hpre) as (bytes & audio & Hb & Hd & Hf).
    exists bytes, audio. split; [|split; [exact Hd|exact Hf]].
    apply transcode_inr in E1 as (b0 & a0 & _ & _ & _ & _ & ->).
    rewrite lookup_insert_ne in Hb by exact Hy. exact Hb.
Qed.

(** X9. After a batch that converted every file, the destination of a
    job holds the wav encoding of what its source decoded to, read from the
    bytes the source had when the batch began, provided no later job of the
    batch has the same destination and no earlier job wrote to the source. *)
Theorem destination_content (lib : Pydub) (pre post : list string)
    (x dir : string) (files : Fs) :
  let r := ConversionThread.run lib
             (ConversionThread.start
                (ConversionThread.init (pre ++ x :: post) dir) files) in
  fst r = inr tt ->
  Forall (fun y => ConversionThread.output_file_of dir y
                   <> ConversionThread.output_file_of dir x) post ->
  Forall (fun y => ConversionThread.output_file_of dir y <> x) pre ->
  exists bytes audio,
    files !! x = Some bytes
    /\ decode lib "m4a" bytes = inr audio
    /\ ConversionThread.fs (snd r) !! ConversionThread.output_file_of dir x
       = Some (encode lib "wav" audio).
Proof.
  cbv zeta. intros Hr Hpost Hpre.
  destruct (run_outcome lib (pre ++ x :: post) dir files)
    as (n & f' & failure & Ht & _ & Hr' & Hfs & _).
  rewrite Hr in Hr'. destruct failure as [e|]; [discriminate|].
  rewrite Hfs.
  exact (transcode_all_content lib dir x post pre files f' n Ht Hpost Hpre).
Qed.

Lemma destination_content_witness :
  let files : Fs := {[ "a.m4a"%string := [1; 2]; "b.m4a"%string := [3] ]} in
  let r := ConversionThread.run plain_pydub
             (ConversionThread.start
                (ConversionThread.init
                   (["a.m4a"%string] ++ "b.m4a"%string :: []) "/out")
                files) in
  fst r = inr tt
  /\ exists bytes audio,
       files !! "b.m4a"%string = Some bytes
       /\ decode plain_pydub "m4a" bytes = inr audio
       /\ ConversionThread.fs (snd r)
            !! ConversionThread.output_file_of "/out" "b.m4a"
          = Some (encode plain_pydub "wav" audio).
Proof.
  cbv zeta. split; [vm_compute; reflexivity|].
  apply (destination_content plain_pydub ["a.m4a"%string] [] "b.m4a" "/out"
           {[ "a.m4a"%string := [1; 2]; "b.m4a"%string := [3] ]}).
  - vm_compute; reflexivity.
  - constructor.
  - constructor; [|constructor]. vm_compute. discriminate.
Defined.

(** ** The threads the window starts *)

Section StartedLemmas.
Import App Invariant.

Lemma dropEvent_has_work (urls : list string) (w : MainWindow.t) :
  Forall has_work (snd (MainWindow.dropEvent urls w)).
Proof.
  unfold MainWindow.dropEvent.
  destruct (List.filter MainWindow.is_m4a urls) as [|x l] eqn:E;
    [constructor|].
  destruct (String.eqb _ "") eqn:Ed; [constructor|].
  apply String.eqb_neq in Ed.
  constructor; [|constructor]. split; [discriminate|exact Ed].
Qed.

Lemma select_files_has_work (chosen : list string) (w : MainWindow.t) :
  Forall has_work (snd (MainWindow.select_files chosen w)).
Proof.
  unfold MainWindow.select_files.
  destruct (negb _); [constructor|].
  destruct chosen as [|x l]; [constructor|].
  destruct (String.eqb _ "") eqn:Ed; [constructor|].
  apply String.eqb_neq in Ed.
  constructor; [|constructor]. split; [discriminate|exact Ed].
Qed.

Lemma reconvert_has_work (current : option nat) (w : MainWindow.t) :
  Forall has_work (snd (MainWindow.reconvert_selected_file current w)).
Proof.
  unfold MainWindow.reconvert_selected_file.
  destruct (current ≫= _); [|constructor].
  destruct (String.eqb _ "") eqn:Ed; [constructor|].
  apply String.eqb_neq in Ed.
  constructor; [|constructor]. split; [discriminate|exact Ed].
Qed.

Lemma gui_has_work
    (f : MainWindow.t -> MainWindow.t * list ConversionThread.t) (s : t) :
  Forall has_work (snd (f (window s))) ->
  Forall (fun w => has_work (thread w)) (workers s) ->
  Forall (fun w => has_work (thread w)) (workers (gui f s)).
Proof.
  intros Hf Hs. rewrite gui_workers. apply Forall_app. split; [exact Hs|].
  apply Forall_map. exact Hf.
Qed.

Lemma step_has_work (lib : Pydub) (qt : bool) (a : Action) (s : t) :
  Forall (fun w => has_work (thread w)) (workers s) ->
  Forall (fun w => has_work (thread w)) (workers (step lib qt a s)).
Proof.
  intros Hs. destruct a; cbn [step].
  - apply gui_has_work; [apply dropEvent_has_work|exact Hs].
  - apply gui_has_work; [apply select_files_has_work|exact Hs].
  - apply gui_has_work; [constructor|exact Hs].
  - apply gui_has_work; [constructor|exact Hs].
  - apply gui_has_work; [apply reconvert_has_work|exact Hs].
  - apply gui_has_work; [constructor|exact Hs].
  - destruct (mailbox s); exact Hs.
  - destruct (workers s !! n) as [w|] eqn:Hw; [|exact Hs].
    pose proof (worker_step_thread lib w (files s)) as Ht.
    destruct (worker_step lib w (files s)) as [[w' fs'] sigs].
    cbn [workers]. cbn [fst] in Ht.
    apply Forall_insert; [exact Hs|].
    rewrite Ht. exact (proj1 (Forall_lookup _ _) Hs n w Hw).
Qed.

End StartedLemmas.

(** X10. Whatever the user does and however the threads are scheduled,
    every thread the application has started was given at least one file and
    a non-empty output directory: no handler starts a conversion of nothing,
    and none starts one before a directory is chosen. *)
Theorem started_threads_have_work (lib : Pydub) (qt_finished : bool)
    (files : Fs)
    (schedule : list App.Action) :
  Forall (fun w => ConversionThread.input_files (App.thread w) <> []
                   /\ ConversionThread.output_dir (App.thread w) <> ""%string)
    (App.workers (App.exec lib qt_finished schedule (App.init files))).
Proof.
  change (Forall (fun w => Invariant.has_work (App.thread w))
            (App.workers (App.exec lib qt_finished schedule (App.init files)))).
  assert (H : forall s,
             Forall (fun w => Invariant.has_work (App.thread w))
               (App.workers s) ->
             Forall (fun w => Invariant.has_work (App.thread w))
               (App.workers (App.exec lib qt_finished schedule s))).
  { induction schedule as [|a rest IH]; intros s Hs; [exact Hs|].
    apply IH. apply step_has_work. exact Hs. }
  apply H. constructor.
Qed.

(** ** The rows of the list *)

Section RowLemmas.
Import MainWindow.

Lemma mark_converted_paths (p : string) (items : list Item) :
  path <$> mark_converted p items = path <$> items.
Proof.
  induction items as [|it rest IH]; [reflexivity|].
  cbn [mark_converted]. destruct (String.eqb (path it) p); [reflexivity|].
  cbn [fmap list_fmap]. f_equal. exact IH.
Qed.

Lemma handle_paths (s : Signal.t) (w : t) :
  path <$> file_list (handle s w) = path <$> file_list w.
Proof. destruct s; try reflexivity. apply mark_converted_paths. Qed.

Lemma handle_all_paths (trace : list Signal.t) :
  forall w, path <$> file_list (handle_all trace w) = path <$> file_list w.
Proof.
  induction trace as [|s trace IH]; intros w; [reflexivity|].
  rewrite handle_all_cons, IH. apply handle_paths.
Qed.

Lemma paths_lookup (l l' : list Item) (row : nat) (it : Item) :
  path <$> l' = path <$> l ->
  l !! row = Some it ->
  exists it', l' !! row = Some it' /\ path it' = path it.
Proof.
  intros Hp Hl.
  assert (H : (path <$> l') !! row = Some (path it)).
  { rewrite Hp, list_lookup_fmap, Hl. reflexivity. }
  rewrite list_lookup_fmap in H.
  destruct (l' !! row) as [it'|]; [|discriminate].
  exists it'. split; [reflexivity|]. injection H as H. exact H.
Qed.

(** The entry [update_file_list_item] writes. *)
Lemma mark_converted_lookup (p : string) (items : list Item) :
  forall (row : nat) (it : Item),
    items !! row = Some it ->
    mark_converted p items !! row
    = Some (if decide (path it = p /\ p ∉ take row (path <$> items))
            then {| text := PosixPath.basename p +:+ " (Converted)";
                    path := path it; converted := true |}
            else it).
Proof.
  induction items as [|it0 rest IH]; intros row it Hl; [discriminate|].
  cbn [mark_converted].
  destruct (String.eqb (path it0) p) eqn:E.
  - apply String.eqb_eq in E.
    destruct row as [|row].
    + injection Hl as <-.
      rewrite lookup_cons. f_equal.
      destruct (decide _) as [_|Hn]; [reflexivity|].
      exfalso. apply Hn. split; [exact E|]. apply not_elem_of_nil.
    + rewrite lookup_cons in Hl. rewrite lookup_cons, Hl. f_equal.
      destruct (decide _) as [[_ Hn]|_]; [|reflexivity].
      exfalso. apply Hn. cbn [fmap list_fmap take]. rewrite E.
      apply elem_of_cons. auto.
  - apply String.eqb_neq in E.
    destruct row as [|row].
    + injection Hl as <-. rewrite lookup_cons. f_equal.
      destruct (decide _) as [[Hp _]|_]; [contradiction|reflexivity].
    + rewrite lookup_cons in Hl. rewrite lookup_cons, (IH row it Hl).
      f_equal.
      destruct (decide (path it = p /\ p ∉ take row (path <$> rest)))
        as [[Hp Hn]|Hn];
        destruct (decide (path it = p
                          /\ p ∉ take (S row) (path <$> it0 :: rest)))
          as [[Hp' Hn']|Hn']; try reflexivity; exfalso.
      * apply Hn'. split; [exact Hp|]. cbn [fmap list_fmap take].
        intros Hin. apply elem_of_cons in Hin as [Hin|Hin]; [|contradiction].
        apply E. symmetry. exact Hin.
      * apply Hn. split; [exact Hp'|]. intros Hin. apply Hn'.
        cbn [fmap list_fmap take]. apply elem_of_cons. auto.
Qed.

Lemma conversions_cons_converted (o c : string) (trace : list Signal.t) :
  Signal.conversions (Signal.file_converted o c :: trace)
  = (o, c) :: Signal.conversions trace.
Proof. reflexivity. Qed.

Lemma basename_output_file (dir x : string) :
  PosixPath.basename (ConversionThread.output_file_of dir x)
  = fst (PosixPath.splitext (PosixPath.basename x)) +:+ ".wav".
Proof.
  unfold ConversionThread.output_file_of. apply basename_join.
  apply rfind_app_none; [|reflexivity].
  apply rfind_splitext_root, rfind_basename.
Qed.

End RowLemmas.

(** X11. After the signals of a batch that converted every file have been
    handled, a click on a row of one of its files loads the file's
    destination into the player and names it in the preview label: the root
    of the source's base name followed by ".wav". *)
Theorem preview_after_batch (lib : Pydub) (inputs : list string) (dir : string)
    (files : Fs) (w : MainWindow.t) (row : nat) (it : MainWindow.Item) :
  let r := ConversionThread.run lib
             (ConversionThread.start (ConversionThread.init inputs dir) files) in
  fst r = inr tt ->
  MainWindow.file_list w !! row = Some it ->
  MainWindow.path it ∈ inputs ->
  let w' := MainWindow.preview_converted_file row
              (MainWindow.handle_all (ConversionThread.emitted (snd r)) w) in
  MainWindow.media_source w'
  = Some (ConversionThread.output_file_of dir (MainWindow.path it))
  /\ MainWindow.preview_label w'
     = "Preview: "
         +:+ fst (PosixPath.splitext (PosixPath.basename (MainWindow.path it)))
         +:+ ".wav".
Proof.
  cbv zeta. intros Hr Hrow Hin.
  destruct (run_outcome lib inputs dir files)
    as (n & f' & failure & _ & Hem & Hr' & _ & Hn).
  rewrite Hr in Hr'. destruct failure as [e|]; [discriminate|].
  subst n. rewrite firstn_all in Hem. rewrite Hem.
  set (trace := ConversionThread.batch_signals dir
                  (Z.of_nat (length inputs)) 0 inputs ++ [Signal.finished]).
  destruct (paths_lookup _ _ row it (handle_all_paths trace w) Hrow)
    as (it' & Hrow' & Hp).
  assert (Hl : MainWindow.converted_files (MainWindow.handle_all trace w)
                 !! MainWindow.path it'
               = Some (ConversionThread.output_file_of dir (MainWindow.path it))).
  { rewrite Hp. unfold trace. rewrite handle_all_app.
    change (MainWindow.lookup (MainWindow.path it)
              (MainWindow.handle_all
                 (ConversionThread.batch_signals dir
                    (Z.of_nat (length inputs)) 0 inputs) w)
            = Some (ConversionThread.output_file_of dir (MainWindow.path it))).
    rewrite handle_all_batch_lookup.
    destruct (decide (MainWindow.path it ∈ inputs)); [reflexivity|].
    contradiction. }
  unfold MainWindow.preview_converted_file. rewrite Hrow', Hl.
  cbn [MainWindow.load_media MainWindow.set_media_source
       MainWindow.set_preview_label MainWindow.media_source
       MainWindow.preview_label].
  split; [reflexivity|]. rewrite basename_output_file. reflexivity.
Qed.

Lemma preview_after_batch_witness :
  let inputs := ["x/a.m4a"; "b.m4a"]%string in
  let files : Fs := {[ "x/a.m4a"%string := [1]; "b.m4a"%string := [2] ]} in
  let w := fst (MainWindow.select_files inputs
                  (MainWindow.select_output_dir "/out" MainWindow.init)) in
  let it := {| MainWindow.text := "a.m4a"; MainWindow.path := "x/a.m4a";
               MainWindow.converted := false |} in
  let r := ConversionThread.run plain_pydub
             (ConversionThread.start (ConversionThread.init inputs "/out")
                files) in
  let w' := MainWindow.preview_converted_file 0
              (MainWindow.handle_all (ConversionThread.emitted (snd r)) w) in
  (fst r = inr tt /\ MainWindow.file_list w !! 0%nat = Some it
   /\ MainWindow.path it ∈ inputs)
  /\ MainWindow.media_source w'
     = Some (ConversionThread.output_file_of "/out" (MainWindow.path it))
  /\ MainWindow.preview_label w'
     = "Preview: "
         +:+ fst (PosixPath.splitext (PosixPath.basename (MainWindow.path it)))
         +:+ ".wav".
Proof.
  cbv zeta. split.
  - split; [vm_compute; reflexivity|]. split; [vm_compute; reflexivity|].
    apply elem_of_cons. left. reflexivity.
  - apply (preview_after_batch plain_pydub ["x/a.m4a"; "b.m4a"]%string "/out"
             {[ "x/a.m4a"%string := [1]; "b.m4a"%string := [2] ]}).
    + vm_compute; reflexivity.
    + vm_compute; reflexivity.
    + apply elem_of_cons. left. reflexivity.
Defined.

(** X12. What the handled signals do to the rows of the list. A row is
    rewritten exactly when a conversion of its path was reported and no row
    above it has the same path; it then carries the base name of the path
    followed by " (Converted)" and the converted flag. Every other row, a
    second row of the same file among them, is left as it was; no row is
    added, removed or moved. *)
Theorem rows_after_signals (trace : list Signal.t) (w : MainWindow.t)
    (row : nat) (it : MainWindow.Item) :
  MainWindow.file_list w !! row = Some it ->
  let w' := MainWindow.handle_all trace w in
  MainWindow.file_list w' !! row
  = Some (if decide (MainWindow.path it ∈ (Signal.conversions trace).*1
                     /\ MainWindow.path it
                          ∉ take row (MainWindow.path <$> MainWindow.file_list w))
          then {| MainWindow.text :=
                    PosixPath.basename (MainWindow.path it) +:+ " (Converted)";
                  MainWindow.path := MainWindow.path it;
                  MainWindow.converted := true |}
          else it)
  /\ length (MainWindow.file_list w') = length (MainWindow.file_list w).
Proof.
  cbv zeta. intros Hrow. split.
  2:{ rewrite <- (length_fmap MainWindow.path (MainWindow.file_list _)).
      rewrite handle_all_paths. apply length_fmap. }
  revert w it Hrow.
  induction trace as [|s trace IH]; intros w it Hrow.
  - change (MainWindow.handle_all [] w) with w. rewrite Hrow. reflexivity.
  - rewrite handle_all_cons.
    destruct s as [v|o c|].
    + rewrite (IH _ it) by exact Hrow. reflexivity.
    + pose proof (mark_converted_lookup o (MainWindow.file_list w) row it Hrow)
        as Hm.
      set (w1 := MainWindow.handle (Signal.file_converted o c) w).
      assert (Hfl : MainWindow.file_list w1
                    = MainWindow.mark_converted o (MainWindow.file_list w))
        by reflexivity.
      assert (Hpaths : MainWindow.path <$> MainWindow.file_list w1
                       = MainWindow.path <$> MainWindow.file_list w)
        by apply handle_paths.
      rewrite <- Hfl in Hm.
      rewrite (IH w1 _ Hm). rewrite Hpaths. f_equal.
      rewrite conversions_cons_converted. cbn [fmap list_fmap fst].
      destruct (decide (MainWindow.path it = o
                        /\ o ∉ take row
                                 (MainWindow.path <$> MainWindow.file_list w)))
        as [[Ho Hfirst]|Hno].
      * subst o. cbn [MainWindow.path].
        destruct (decide (MainWindow.path it ∈ (Signal.conversions trace).*1
                          /\ _)) as [_|_];
          destruct (decide (MainWindow.path it
                              ∈ MainWindow.path it
                                  :: (Signal.conversions trace).*1 /\ _))
            as [_|Hn]; try reflexivity;
          exfalso; apply Hn; (split; [apply elem_of_cons; auto|exact Hfirst]).
      * destruct (decide (MainWindow.path it ∈ (Signal.conversions trace).*1
                          /\ _)) as [[Hin Hf]|Hn1];
          destruct (decide (MainWindow.path it
                              ∈ o :: (Signal.conversions trace).*1 /\ _))
            as [[Hin' Hf']|Hn2]; try reflexivity; exfalso.
        -- apply Hn2. split; [apply elem_of_cons; auto|exact Hf].
        -- apply elem_of_cons in Hin' as [Ho|Hin'].
           ++ apply Hno. split; [exact Ho|]. rewrite <- Ho. exact Hf'.
           ++ apply Hn1. split; assumption.
    + rewrite (IH _ it) by exact Hrow. reflexivity.
Qed.

Lemma rows_after_signals_witness :
  let it := {| MainWindow.text := "a.m4a"; MainWindow.path := "x/a.m4a";
               MainWindow.converted := false |} in
  let w := fst (MainWindow.dropEvent ["x/a.m4a"; "x/a.m4a"]%string
                  MainWindow.init) in
  let trace := [Signal.progress 100;
                Signal.file_converted "x/a.m4a" "/out/a.wav"] in
  let w' := MainWindow.handle_all trace w in
  MainWindow.file_list w !! 1%nat = Some it
  /\ MainWindow.file_list w' !! 1%nat
     = Some (if decide (MainWindow.path it ∈ (Signal.conversions trace).*1
                        /\ MainWindow.path it
                             ∉ take 1 (MainWindow.path
                                         <$> MainWindow.file_list w))
             then {| MainWindow.text :=
                       PosixPath.basename (MainWindow.path it)
                         +:+ " (Converted)";
                     MainWindow.path := MainWindow.path it;
                     MainWindow.converted := true |}
             else it)
  /\ length (MainWindow.file_list w') = length (MainWindow.file_list w).
Proof.
  cbv zeta. split; [vm_compute; reflexivity|].
  apply (rows_after_signals
           [Signal.progress 100; Signal.file_converted "x/a.m4a" "/out/a.wav"]
           (fst (MainWindow.dropEvent ["x/a.m4a"; "x/a.m4a"]%string
                   MainWindow.init)) 1).
  vm_compute; reflexivity.
Defined.

(** ** Removing a row *)

Section RemoveLemmas.
Import MainWindow.

Lemma mem_elem_of (x : string) (l : list string) :
  mem x l = true <-> x ∈ l.
Proof.
  unfold mem. rewrite existsb_exists. split.
  - intros (y & Hin & E). apply String.eqb_eq in E. subst y.
    apply list_elem_of_In. exact Hin.
  - intros Hin. exists x. split; [apply list_elem_of_In; exact Hin|].
    apply String.eqb_refl.
Qed.

Lemma fold_add_fields (l : list string) :
  forall w,
    let w' := fold_left (fun acc f => add_file_to_list f acc) l w in
    file_list w'
    = file_list w
        ++ map (fun f => {| text := PosixPath.basename f; path := f;
                            converted := false |}) l
    /\ input_files w' = input_files w
    /\ output_dir w' = output_dir w.
Proof.
  induction l as [|x l IH]; intros w; cbv zeta.
  - cbn. rewrite app_nil_r. auto.
  - cbn [fold_left]. destruct (IH (add_file_to_list x w)) as (H1 & H2 & H3).
    rewrite H1, H2, H3. cbn. rewrite <- app_assoc. auto.
Qed.

End RemoveLemmas.

(** X13. In src/m4a2wav.py a file that was dropped before an output
    directory was chosen, and is not tracked otherwise, has a row whose
    removal raises [ValueError]: the drop listed the file without tracking
    it, and the handler removes from the tracked files without looking. The
    handler of src/mawa.py removes the same row and leaves the tracked files
    as they are. *)
Theorem m4a2wav_remove_untracked_raises (urls : list string)
    (w : MainWindow.t) (p : string) :
  MainWindow.output_dir w = ""%string ->
  p ∈ urls ->
  MainWindow.is_m4a p = true ->
  p ∉ MainWindow.input_files w ->
  let w' := fst (MainWindow.dropEvent urls w) in
  exists row : nat,
    MainWindow.removed_path (Some row) w' = Some p
    /\ M4a2wav.remove_selected_file (Some row) w' = inl ValueError
    /\ MainWindow.input_files (MainWindow.remove_selected_file (Some row) w')
       = MainWindow.input_files w
    /\ length (MainWindow.file_list
                 (MainWindow.remove_selected_file (Some row) w'))
       = pred (length (MainWindow.file_list w')).
Proof.
  cbv zeta. intros Hdir Hin Hm Hnot.
  set (new_files := List.filter MainWindow.is_m4a urls).
  assert (Hp : p ∈ new_files).
  { apply list_elem_of_In. apply filter_In. split; [|exact Hm].
    apply list_elem_of_In. exact Hin. }
  destruct (fold_add_fields new_files w) as (Hfl & Hif & Hod).
  assert (Hw : fst (MainWindow.dropEvent urls w)
               = fold_left (fun acc f => MainWindow.add_file_to_list f acc)
                   new_files w).
  { unfold MainWindow.dropEvent. fold new_files.
    destruct new_files as [|x l] eqn:E; [reflexivity|].
    rewrite Hod, Hdir. reflexivity. }
  rewrite Hw.
  set (w' := fold_left (fun acc f => MainWindow.add_file_to_list f acc)
               new_files w) in *.
  apply list_elem_of_lookup in Hp as [i Hi].
  exists (length (MainWindow.file_list w) + i)%nat.
  assert (Hrow : MainWindow.file_list w'
                   !! (length (MainWindow.file_list w) + i)%nat
                 = Some {| MainWindow.text := PosixPath.basename p;
                           MainWindow.path := p;
                           MainWindow.converted := false |}).
  { rewrite Hfl, lookup_app_r by lia.
    replace (length (MainWindow.file_list w) + i
             - length (MainWindow.file_list w))%nat with i by lia.
    rewrite list_lookup_fmap, Hi. reflexivity. }
  assert (Hmem : MainWindow.mem p (MainWindow.input_files w') = false).
  { rewrite Hif. apply not_true_iff_false. intros Hc.
    apply mem_elem_of in Hc. contradiction. }
  split; [cbn [MainWindow.removed_path]; rewrite Hrow; reflexivity|].
  split.
  - unfold M4a2wav.remove_selected_file, M4a2wav.list_remove.
    rewrite Hrow. cbn [MainWindow.path]. rewrite Hmem. reflexivity.
  - unfold MainWindow.remove_selected_file.
    rewrite Hrow. cbn [MainWindow.path]. rewrite Hmem. cbv zeta.
    assert (Hlt : (length (MainWindow.file_list w) + i
                   < length (MainWindow.file_list w'))%nat)
      by (apply lookup_lt_is_Some; rewrite Hrow; eauto).
    destruct (MainWindow.converted_files _ !! p);
      cbn [MainWindow.input_files MainWindow.set_converted_files
           MainWindow.set_file_list MainWindow.file_list];
      (split; [exact Hif|]);
      rewrite length_app, length_take, length_drop; lia.
Qed.

Lemma m4a2wav_remove_untracked_raises_witness :
  let w' := fst (MainWindow.dropEvent ["a.m4a"; "b.txt"]%string
                   MainWindow.init) in
  exists row : nat,
    MainWindow.removed_path (Some row) w' = Some "a.m4a"%string
    /\ M4a2wav.remove_selected_file (Some row) w' = inl ValueError
    /\ MainWindow.input_files (MainWindow.remove_selected_file (Some row) w')
       = MainWindow.input_files MainWindow.init
    /\ length (MainWindow.file_list
                 (MainWindow.remove_selected_file (Some row) w'))
       = pred (length (MainWindow.file_list w')).
Proof.
  apply (m4a2wav_remove_untracked_raises ["a.m4a"; "b.txt"]%string
           MainWindow.init "a.m4a").
  - reflexivity.
  - apply elem_of_cons. left. reflexivity.
  - vm_compute. reflexivity.
  - apply not_elem_of_nil.
Defined.

(** ** Tracked files and rows *)

Section TrackedLemmas.
Import MainWindow Invariant.

Local Abbreviation cnt p l := (length (List.filter (String.eqb p) l)).

Lemma cnt_app (p : string) (a b : list string) :
  cnt p (a ++ b) = (cnt p a + cnt p b)%nat.
Proof. rewrite List.filter_app, length_app. reflexivity. Qed.

Lemma cnt_not_mem (x : string) (l : list string) :
  mem x l = false -> cnt x l = 0%nat.
Proof.
  induction l as [|y l IH]; [reflexivity|].
  unfold mem. cbn [existsb List.filter]. intros H.
  apply orb_false_iff in H as [Hy Hl]. rewrite Hy. apply IH. exact Hl.
Qed.

Lemma cnt_remove_first (p x : string) (l : list string) :
  mem x l = true ->
  cnt p l = (cnt p (remove_first x l) + if String.eqb p x then 1 else 0)%nat.
Proof.
  induction l as [|y l IH]; [discriminate|].
  unfold mem. cbn [existsb remove_first]. intros H.
  destruct (String.eqb y x) eqn:E.
  - apply String.eqb_eq in E. subst y. cbn [List.filter].
    destruct (String.eqb p x); cbn [length]; lia.
  - rewrite String.eqb_sym, E in H. cbn [orb] in H.
    cbn [List.filter]. specialize (IH H).
    destruct (String.eqb p y); cbn [length]; lia.
Qed.

Lemma cnt_take_drop (p : string) (l : list Item) (row : nat) (it : Item) :
  l !! row = Some it ->
  cnt p (map path l)
  = (cnt p (map path (take row l ++ drop (S row) l))
     + if String.eqb p (path it) then 1 else 0)%nat.
Proof.
  intros Hl. rewrite <- (take_drop_middle l row it Hl) at 1.
  rewrite !map_app, !cnt_app. cbn [map List.filter].
  destruct (String.eqb p (path it)); cbn [length]; lia.
Qed.

Lemma listed_select_one (w : t) (file : string) :
  listed w -> listed (select_one w file).
Proof.
  intros H p. unfold select_one.
  destruct (mem file (input_files w)); [apply H|].
  cbn [add_file_to_list set_file_list set_input_files input_files file_list].
  rewrite map_app, !cnt_app. cbn [map path]. specialize (H p). lia.
Qed.

Lemma listed_fold_select (l : list string) :
  forall w, listed w -> listed (fold_left select_one l w).
Proof.
  induction l as [|x l IH]; intros w H; [exact H|].
  apply IH, listed_select_one, H.
Qed.

Lemma listed_start (files : list string) (w : t) :
  listed w -> listed (fst (start_conversion files w)).
Proof. intros H. exact H. Qed.

Lemma listed_dropEvent (urls : list string) (w : t) :
  listed w -> listed (fst (dropEvent urls w)).
Proof.
  intros H p. unfold dropEvent.
  destruct (fold_add_fields (List.filter is_m4a urls) w) as (Hfl & Hif & Hod).
  cbv zeta in Hfl, Hif, Hod.
  set (w1 := fold_left (fun acc f => add_file_to_list f acc)
               (List.filter is_m4a urls) w) in *.
  assert (H1 : (cnt p (input_files w1 ++ List.filter is_m4a urls)
                <= cnt p (map path (file_list w1)))%nat).
  { rewrite Hfl, Hif, map_app, !cnt_app, map_map. cbn [path].
    rewrite map_id. specialize (H p). lia. }
  assert (H0 : (cnt p (input_files w1) <= cnt p (map path (file_list w1)))%nat).
  { rewrite cnt_app in H1. lia. }
  destruct (List.filter is_m4a urls) as [|x l]; [exact H0|].
  destruct (String.eqb (output_dir w1) ""); [exact H0|exact H1].
Qed.

Lemma listed_select_files (chosen : list string) (w : t) :
  listed w -> listed (fst (select_files chosen w)).
Proof.
  intros H. unfold select_files.
  destruct (negb (select_button w)); [exact H|].
  destruct chosen as [|x l]; [exact H|].
  pose proof (listed_fold_select (x :: l) w H) as H1.
  destruct (String.eqb _ ""); exact H1.
Qed.

Lemma listed_select_output_dir (dir : string) (w : t) :
  listed w -> listed (select_output_dir dir w).
Proof.
  intros H. unfold select_output_dir.
  destruct (negb _); exact H.
Qed.

Lemma listed_reconvert (current : option nat) (w : t) :
  listed w -> listed (fst (reconvert_selected_file current w)).
Proof.
  intros H. unfold reconvert_selected_file.
  destruct (current ≫= _); [|exact H].
  destruct (String.eqb _ ""); exact H.
Qed.

Lemma listed_preview (row : nat) (w : t) :
  listed w -> listed (preview_converted_file row w).
Proof.
  intros H. unfold preview_converted_file.
  destruct (file_list w !! row); [|exact H].
  destruct (converted_files w !! _); exact H.
Qed.

Lemma listed_remove (current : option nat) (w : t) :
  listed w -> listed (remove_selected_file current w).
Proof.
  intros H. unfold remove_selected_file.
  destruct current as [row|]; [|exact H].
  destruct (file_list w !! row) as [it|] eqn:Hrow; [|exact H].
  cbv zeta.
  assert (Hg : forall p,
             (cnt p (if mem (path it) (input_files w)
                     then remove_first (path it) (input_files w)
                     else input_files w)
              <= cnt p (map path (take row (file_list w)
                                    ++ drop (S row) (file_list w))))%nat).
  { intros p. specialize (H p).
    rewrite (cnt_take_drop p _ row it Hrow) in H.
    destruct (mem (path it) (input_files w)) eqn:Hmem.
    - rewrite (cnt_remove_first p (path it) _ Hmem) in H. lia.
    - destruct (String.eqb p (path it)) eqn:E; [|lia].
      apply String.eqb_eq in E. subst p.
      rewrite (cnt_not_mem _ _ Hmem). lia. }
  destruct (mem (path it) (input_files w));
    cbn [file_list set_file_list set_input_files converted_files];
    destruct (converted_files w !! path it); exact Hg.
Qed.

Lemma listed_handle (s : Signal.t) (w : t) :
  listed w -> listed (handle s w).
Proof.
  intros H p. specialize (H p).
  pose proof (handle_paths s w) as Hp.
  change (path <$> file_list (handle s w)) with (map path (file_list (handle s w)))
    in Hp.
  change (path <$> file_list w) with (map path (file_list w)) in Hp.
  rewrite Hp. destruct s; exact H.
Qed.

Lemma listed_step (lib : Pydub) (qt : bool) (a : App.Action) (s : App.t) :
  listed (App.window s) -> listed (App.window (App.step lib qt a s)).
Proof.
  intros H. destruct a; cbn [App.step]; unfold App.gui.
  - pose proof (listed_dropEvent urls _ H) as H1.
    destruct (dropEvent urls (App.window s)). exact H1.
  - pose proof (listed_select_files chosen _ H) as H1.
    destruct (select_files chosen (App.window s)). exact H1.
  - apply listed_select_output_dir, H.
  - apply listed_remove, H.
  - pose proof (listed_reconvert current _ H) as H1.
    destruct (reconvert_selected_file current (App.window s)). exact H1.
  - apply listed_preview, H.
  - destruct (App.mailbox s); [exact H|]. apply listed_handle, H.
  - destruct (App.workers s !! n); [|exact H].
    destruct (App.worker_step lib _ _) as [[w' fs'] sigs]. exact H.
Qed.

End TrackedLemmas.

(** X14. Whatever the user does and however the threads are scheduled, no
    file is tracked more often than the list shows it: for every path, its
    occurrences among the tracked files are at most the rows that carry
    it. Removing a row takes one occurrence with it, and every handler that
    tracks a file adds a row for it. *)
Theorem tracked_files_are_listed (lib : Pydub) (qt_finished : bool)
    (files : Fs)
    (schedule : list App.Action) (p : string) :
  let w := App.window (App.exec lib qt_finished schedule (App.init files)) in
  (length (List.filter (String.eqb p) (MainWindow.input_files w))
   <= length (List.filter (String.eqb p)
                (map MainWindow.path (MainWindow.file_list w))))%nat.
Proof.
  cbv zeta.
  assert (H : forall s,
             Invariant.listed (App.window s) ->
             Invariant.listed (App.window (App.exec lib qt_finished schedule s))).
  { induction schedule as [|a rest IH]; intros s Hs; [exact Hs|].
    apply IH. apply listed_step. exact Hs. }
  apply (H (App.init files)). intros q. apply Nat.le_refl.
Qed.

Section SelectLemmas.
Import MainWindow.

Lemma fold_select_one (l : list string) :
  forall w,
    let w' := fold_left select_one l w in
    output_dir w' = output_dir w
    /\ exists new,
         input_files w' = input_files w ++ new
         /\ file_list w'
            = file_list w
                ++ map (fun f => {| text := PosixPath.basename f; path := f;
                                    converted := false |}) new
         /\ NoDup new
         /\ forall x, x ∈ new <-> x ∈ l /\ x ∉ input_files w.
Proof.
  induction l as [|x l IH]; intros w; cbv zeta.
  - split; [reflexivity|]. exists []. cbn. rewrite !app_nil_r.
    split; [reflexivity|]. split; [reflexivity|].
    split; [constructor|]. intros x. split.
    + intros Hc. apply elem_of_nil in Hc. contradiction.
    + intros [Hc _]. apply elem_of_nil in Hc. contradiction.
  - cbn [fold_left]. unfold select_one at 2 4 6.
    destruct (mem x (input_files w)) eqn:Hmem.
    + destruct (IH w) as (Hd & new & Hi & Hf & Hn & Hx).
      split; [exact Hd|]. exists new.
      split; [exact Hi|]. split; [exact Hf|]. split; [exact Hn|].
      intros y. rewrite Hx, elem_of_cons. split.
      * intros [Hin Hnot]. auto.
      * intros [[->|Hin] Hnot]; [|auto].
        exfalso. apply Hnot. apply mem_elem_of. exact Hmem.
    + set (w1 := add_file_to_list x
                   (set_input_files (input_files w ++ [x]) w)).
      destruct (IH w1) as (Hd & new & Hi & Hf & Hn & Hx).
      assert (Hnotx : x ∉ input_files w).
      { intros Hc. apply mem_elem_of in Hc. congruence. }
      split; [exact Hd|]. exists (x :: new).
      split; [rewrite Hi; cbn; rewrite <- app_assoc; reflexivity|].
      split; [rewrite Hf; cbn; rewrite <- app_assoc; reflexivity|].
      split.
      * constructor; [|exact Hn]. intros Hc. apply Hx in Hc as [_ Hc].
        apply Hc. cbn. apply elem_of_app. right. apply elem_of_cons. auto.
      * intros y. rewrite !elem_of_cons. rewrite Hx. cbn.
        rewrite elem_of_app, elem_of_cons. split.
        -- intros [->|[Hin Hnot]]; [auto|]. split; [auto|].
           intros Hc. apply Hnot. auto.
        -- intros [[->|Hin] Hnot]; [auto|].
           destruct (decide (y = x)) as [->|Hne]; [auto|].
           right. split; [exact Hin|].
           intros [Hc|[Hc|Hc]]; [contradiction|contradiction|].
           apply elem_of_nil in Hc. contradiction.
Qed.

End SelectLemmas.

(** X15. What a selection through the file dialog tracks. The chosen
    files that were not tracked yet are appended to the tracked files, once
    each and in the order chosen, with one new row each; nothing else is
    added, so every chosen file is tracked afterwards. The thread it starts,
    if a directory is set, is given the whole selection, the files tracked
    before included. *)
Theorem select_files_tracks (chosen : list string) (w : MainWindow.t) :
  MainWindow.select_button w = true ->
  let w' := fst (MainWindow.select_files chosen w) in
  (exists new : list string,
     MainWindow.input_files w' = MainWindow.input_files w ++ new
     /\ MainWindow.file_list w'
        = MainWindow.file_list w
            ++ map (fun f => {| MainWindow.text := PosixPath.basename f;
                                MainWindow.path := f;
                                MainWindow.converted := false |}) new
     /\ NoDup new
     /\ forall x, x ∈ new <-> x ∈ chosen /\ x ∉ MainWindow.input_files w)
  /\ (forall x, x ∈ chosen -> x ∈ MainWindow.input_files w')
  /\ snd (MainWindow.select_files chosen w)
     = match chosen with
       | [] => []
       | _ :: _ =>
           if String.eqb (MainWindow.output_dir w) "" then []
           else [ConversionThread.init chosen (MainWindow.output_dir w)]
       end.
Proof.
  cbv zeta. intros Hb.
  destruct (fold_select_one chosen w) as (Hd & new & Hi & Hf & Hn & Hx).
  assert (Hw : MainWindow.input_files (fst (MainWindow.select_files chosen w))
               = MainWindow.input_files (fold_left MainWindow.select_one chosen w)
               /\ MainWindow.file_list (fst (MainWindow.select_files chosen w))
                  = MainWindow.file_list
                      (fold_left MainWindow.select_one chosen w)).
  { unfold MainWindow.select_files. rewrite Hb. cbn [negb].
    destruct chosen as [|c l]; [auto|].
    destruct (String.eqb _ ""); auto. }
  destruct Hw as [Hw1 Hw2]. rewrite Hw1, Hw2.
  split; [exists new; auto|]. split.
  - intros x Hin. rewrite Hi. apply elem_of_app.
    destruct (decide (x ∈ MainWindow.input_files w)) as [Ht|Ht]; [auto|].
    right. apply Hx. auto.
  - unfold MainWindow.select_files. rewrite Hb. cbn [negb].
    destruct chosen as [|c l]; [reflexivity|].
    rewrite Hd. destruct (String.eqb _ ""); [reflexivity|].
    unfold MainWindow.start_conversion. cbn [snd]. rewrite Hd. reflexivity.
Qed.

Lemma select_files_tracks_witness :
  let w := fst (MainWindow.select_files ["a.m4a"]%string MainWindow.init) in
  let chosen := ["b.m4a"; "a.m4a"; "b.m4a"]%string in
  MainWindow.select_button w = true
  /\ (forall x, x ∈ chosen ->
                x ∈ MainWindow.input_files
                      (fst (MainWindow.select_files chosen w))).
Proof.
  cbv zeta. split; [reflexivity|].
  apply (select_files_tracks ["b.m4a"; "a.m4a"; "b.m4a"]%string
           (fst (MainWindow.select_files ["a.m4a"]%string MainWindow.init))).
  reflexivity.
Defined.

(** ** The sample cursor *)

Section CursorLemmas.
Import Visualization.
Context {A : Type}.

Lemma slice_next_chunk (l : list A) (a : Z) :
  0 <= a ->
  PyList.slice a (Z.min (a + chunk_size) (Z.of_nat (length l))) l
  = take 1000 (drop (Z.to_nat a) l).
Proof.
  intros Ha. unfold PyList.slice, PyList.clamp, chunk_size.
  assert (Hneg : forall z, 0 <= z -> (z <? 0) = false)
    by (intros z Hz; apply Z.ltb_ge; exact Hz).
  rewrite (Hneg a Ha), (Hneg (Z.min (a + 1000) (Z.of_nat (length l))))
    by lia.
  destruct (Z_lt_le_dec a (Z.of_nat (length l))) as [Hlt|Hge].
  - replace (Z.to_nat (Z.min (Z.of_nat (length l)) a)) with (Z.to_nat a)
      by lia.
    destruct (Z_le_gt_dec (a + 1000) (Z.of_nat (length l))) as [Hle|Hgt].
    + f_equal. lia.
    + rewrite !take_ge; [reflexivity| |]; rewrite length_drop; lia.
  - rewrite (drop_ge l (Z.to_nat a)) by lia.
    rewrite (drop_ge l) by lia. rewrite !take_nil. reflexivity.
Qed.

Lemma update_visualization_playing (d : list A) (pos : Z) :
  0 <= pos ->
  update_visualization true
    {| current_audio_data := Some d; current_audio_pos := pos |}
  = ({| current_audio_data := Some d;
        current_audio_pos := if pos + 1000 <? Z.of_nat (length d)
                             then pos + 1000 else 0 |},
     Some (take 1000 (drop (Z.to_nat pos) d))).
Proof.
  intros Hpos. unfold update_visualization.
  cbn [current_audio_data current_audio_pos].
  rewrite (slice_next_chunk d pos Hpos). f_equal. f_equal.
  unfold chunk_size.
  destruct (Z.ltb_spec (pos + 1000) (Z.of_nat (length d))) as [Hlt|Hge].
  - rewrite Z.min_l by lia.
    destruct (Z.leb_spec (Z.of_nat (length d)) (pos + 1000)); [lia|reflexivity].
  - rewrite Z.min_r by lia. rewrite Z.leb_refl. reflexivity.
Qed.

End CursorLemmas.

(** X16. One tick of the visualization timer while the player is playing,
    from any position that is not negative: the chunk plotted is the next
    1000 frames from the position, fewer where the buffer ends, none when
    the position is past the end; the position afterwards is again an index
    into the buffer, or 0; the buffer itself is unchanged. *)
Theorem cursor_stays_in_buffer {A : Type} (d : list A) (pos : Z) :
  0 <= pos ->
  let v := {| Visualization.current_audio_data := Some d;
              Visualization.current_audio_pos := pos |} in
  let r := Visualization.update_visualization true v in
  snd r = Some (take 1000 (drop (Z.to_nat pos) d))
  /\ Visualization.current_audio_data (fst r) = Some d
  /\ Visualization.current_audio_pos (fst r)
     = (if pos + 1000 <? Z.of_nat (length d) then pos + 1000 else 0)
  /\ 0 <= Visualization.current_audio_pos (fst r)
  /\ (Visualization.current_audio_pos (fst r) < Z.of_nat (length d)
      \/ Visualization.current_audio_pos (fst r) = 0).
Proof.
  cbv zeta. intros Hpos. rewrite update_visualization_playing by exact Hpos.
  cbn [fst snd Visualization.current_audio_data
       Visualization.current_audio_pos].
  split; [reflexivity|]. split; [reflexivity|]. split; [reflexivity|].
  destruct (Z.ltb_spec (pos + 1000) (Z.of_nat (length d))); lia.
Qed.

Lemma cursor_stays_in_buffer_witness :
  let d := seq 0 1500 in
  let r := Visualization.update_visualization true
             {| Visualization.current_audio_data := Some d;
                Visualization.current_audio_pos := 1000 |} in
  0 <= 1000
  /\ snd r = Some (take 1000 (drop (Z.to_nat 1000) d))
  /\ Visualization.current_audio_pos (fst r) = 0.
Proof.
  cbv zeta. split; [lia|].
  pose proof (cursor_stays_in_buffer (seq 0 1500) 1000 ltac:(lia)) as H.
  cbv zeta in H. destruct H as (H1 & _ & H3 & _).
  split; [exact H1|]. rewrite H3. reflexivity.
Defined.

(** X17. Timer ticks that follow one another while the player is playing,
    with no position change between them, plot consecutive chunks. From any
    position inside the buffer, [n + 1] such ticks of which the last still
    starts inside the buffer plot, in order, the next 1000 * (n + 1) frames
    from that position (fewer where the buffer ends), in chunks that are not
    empty and hold at most 1000 frames; the position afterwards is the one
    behind the last frame plotted, or 0 when the end of the buffer was
    reached. A position change between two ticks, which the player sends
    while it plays, starts such a run anew from the new position. *)
Theorem uninterrupted_ticks_plot_in_order {A : Type} (d : list A) (n : nat)
    (pos : Z) :
  0 <= pos ->
  pos + 1000 * Z.of_nat n < Z.of_nat (length d) ->
  let r := Visualization.ticks (S n)
             {| Visualization.current_audio_data := Some d;
                Visualization.current_audio_pos := pos |} in
  concat (snd r) = take (1000 * S n) (drop (Z.to_nat pos) d)
  /\ length (snd r) = S n
  /\ Forall (fun c => (0 < length c <= 1000)%nat) (snd r)
  /\ Visualization.current_audio_data (fst r) = Some d
  /\ Visualization.current_audio_pos (fst r)
     = (if pos + 1000 * Z.of_nat (S n) <? Z.of_nat (length d)
        then pos + 1000 * Z.of_nat (S n) else 0).
Proof.
  revert pos. induction n as [|n IH]; intros pos Hpos Hlt; cbv zeta.
  - cbn [Visualization.ticks].
    rewrite update_visualization_playing by exact Hpos.
    cbn [fst snd concat length Visualization.current_audio_data
         Visualization.current_audio_pos].
    rewrite app_nil_r. split; [reflexivity|]. split; [reflexivity|].
    split; [|split; [reflexivity|]].
    + constructor; [|constructor]. rewrite length_take, length_drop. lia.
    + replace (pos + 1000 * Z.of_nat 1) with (pos + 1000) by lia.
      reflexivity.
  - change (Visualization.ticks (S (S n))
              {| Visualization.current_audio_data := Some d;
                 Visualization.current_audio_pos := pos |})
      with (let '(v1, chunk) :=
              Visualization.update_visualization true
                {| Visualization.current_audio_data := Some d;
                   Visualization.current_audio_pos := pos |} in
            let '(v2, chunks) := Visualization.ticks (S n) v1 in
            (v2, match chunk with Some c => c :: chunks | None => chunks end)).
    rewrite update_visualization_playing by exact Hpos.
    destruct (Z.ltb_spec (pos + 1000) (Z.of_nat (length d))) as [H1|H1];
      [|lia].
    specialize (IH (pos + 1000) ltac:(lia) ltac:(lia)). cbv zeta in IH.
    destruct (Visualization.ticks (S n) _) as [v2 chunks].
    cbn [fst snd] in *. destruct IH as (Hc & Hl & Hf & Hd & Hp).
    split; [|split; [|split; [|split]]].
    + cbn [concat]. rewrite Hc.
      replace (Z.to_nat (pos + 1000)) with (Z.to_nat pos + 1000)%nat by lia.
      rewrite <- drop_drop, take_take_drop. f_equal. lia.
    + cbn [length]. rewrite Hl. reflexivity.
    + constructor; [|exact Hf]. rewrite length_take, length_drop. lia.
    + exact Hd.
    + rewrite Hp.
      replace (pos + 1000 + 1000 * Z.of_nat (S n))
        with (pos + 1000 * Z.of_nat (S (S n))) by lia.
      reflexivity.
Qed.

Lemma uninterrupted_ticks_plot_in_order_witness :
  let d := seq 0 2500 in
  let r := Visualization.ticks 3
             {| Visualization.current_audio_data := Some d;
                Visualization.current_audio_pos := 0 |} in
  (0 <= 0 /\ 0 + 1000 * Z.of_nat 2 < Z.of_nat (length d))
  /\ concat (snd r) = take (1000 * 3) (drop (Z.to_nat 0) d)
  /\ length (snd r) = 3%nat
  /\ Visualization.current_audio_pos (fst r) = 0.
Proof.
  cbv zeta. split; [split; [lia|reflexivity]|].
  pose proof (uninterrupted_ticks_plot_in_order (seq 0 2500) 2 0 ltac:(lia)
                ltac:(reflexivity)) as H.
  cbv zeta in H. destruct H as (H1 & H2 & _ & _ & H5).
  split; [exact H1|]. split; [exact H2|]. rewrite H5. reflexivity.
Defined.

(** ** The sample index of a player position *)

Section PositionLemmas.
Import PyFloat FloatFacts Visualization.

Lemma of_int_44100 : of_int 44100 = S754_finite false 6061057848115200 (-37).
Proof. reflexivity. Qed.

Lemma mul_int_44100_finite (m : positive) (e : Z) :
  mul_int (S754_finite false m e) 44100
  = round_result false (Z.pos m * 6061057848115200) 1 (e - 37).
Proof.
  unfold mul_int. rewrite of_int_44100. unfold SFmul. simpl xorb.
  rewrite Pos2Z.inj_mul.
  pose proof (binary_round_aux_spec false
                (Z.pos m * 6061057848115200) 1 (e - 37)) as H.
  rewrite Z.div_1_r in H. unfold loc_of in H. rewrite Z.mod_1_r in H.
  simpl (0 =? 0) in H. replace (e + -37) with (e - 37) by lia.
  apply H; lia.
Qed.

(** [k / n] as a scaled integer, for operands that convert exactly. *)
Lemma truediv_scaled_exact_operands (k n : Z) :
  0 < k < 2 ^ 53 -> 0 < n < 2 ^ 53 ->
  exists f, truediv k n = inr f
            /\ scaled f = round_scaled (k * 2 ^ scale) n
            /\ match f with
               | S754_zero s => s = false
               | S754_finite s m e =>
                   s = false /\ -1074 <= e /\ Zdigits2 (Z.pos m) + e <= 54
               | _ => False
               end.
Proof.
  intros Hk Hn. rewrite truediv_pos by lia.
  set (d1 := Zdigits2 k). set (d2 := Zdigits2 n).
  assert (Hd1 : 1 <= d1) by (apply Zdigits2_ge; simpl; lia).
  assert (Hd2 : 1 <= d2) by (apply Zdigits2_ge; simpl; lia).
  assert (Hd1' : d1 <= 53) by (apply Zdigits2_le; lia).
  assert (Hd2' : d2 <= 53) by (apply Zdigits2_le; lia).
  assert (He : div_exp k n = d1 - d2 - 53).
  { unfold div_exp. rewrite fexp_eq. fold d1 d2. lia. }
  set (e' := div_exp k n) in *.
  pose proof (pow2_pos (- e') ltac:(lia)) as Ps.
  set (q := k * 2 ^ (- e') / n).
  assert (Hq : 0 <= q) by (apply Z.div_pos; nia).
  assert (Hqle : q <= k * 2 ^ (- e')) by (apply Z.div_le_upper_bound; nia).
  assert (Hdq : Zdigits2 q <= d1 - e').
  { apply Zdigits2_le; try lia.
    pose proof (Zdigits2_upper k ltac:(lia)) as Hu. fold d1 in Hu.
    replace (d1 - e') with (d1 + - e') by lia.
    rewrite Z.pow_add_r by lia. nia. }
  assert (H52 : 2 ^ 52 <= q).
  { apply Z.div_le_lower_bound; [lia|].
    pose proof (Zdigits2_bounds k ltac:(lia)) as [Hkl _]. fold d1 in Hkl.
    pose proof (Zdigits2_upper n ltac:(lia)) as Hnu. fold d2 in Hnu.
    assert (Es : - e' = 52 + d2 - (d1 - 1)) by lia. rewrite Es.
    assert (E3 : 2 ^ (d1 - 1) * 2 ^ (52 + d2 - (d1 - 1)) = 2 ^ 52 * 2 ^ d2).
    { rewrite <- !Z.pow_add_r by lia. f_equal. lia. }
    pose proof (pow2_pos (52 + d2 - (d1 - 1)) ltac:(lia)).
    pose proof (pow2_pos (d1 - 1) ltac:(lia)).
    assert (0 < 2 ^ 52) by reflexivity.
    nia. }
  assert (H53 : 53 <= Zdigits2 q).
  { apply Zdigits2_ge; [|assumption]. assert (0 < 2 ^ 52) by reflexivity. lia. }
  assert (Hcanon : e' <= fexp prec emax (Zdigits2 q + e'))
    by (rewrite fexp_eq; lia).
  destruct (round_result_scaled (k * 2 ^ (- e')) n e'
              ltac:(nia) ltac:(lia) ltac:(unfold scale; lia) Hcanon
              ltac:(fold q; lia)) as [Hsc Hshape].
  pose proof (round_result_bound false (k * 2 ^ (- e')) n e' d1
                ltac:(nia) ltac:(lia) ltac:(fold q; lia) ltac:(lia)
                ltac:(lia) ltac:(lia)) as Hb.
  assert (Hkk : k * 2 ^ (- e') * 2 ^ (e' + scale) = k * 2 ^ scale).
  { rewrite <- Z.mul_assoc, <- Z.pow_add_r by (unfold scale; lia).
    do 2 f_equal. lia. }
  rewrite Hkk in Hsc.
  destruct (round_result false (k * 2 ^ (- e')) n e') as [s|s| |s m e];
    try contradiction.
  - exists (S754_zero s). split; [reflexivity|]. split; [exact Hsc|exact Hb].
  - exists (S754_finite s m e). split; [reflexivity|]. split; [exact Hsc|].
    destruct Hshape as [-> He1]. destruct Hb as (_ & Hb & _).
    split; [reflexivity|]. split; [exact He1|lia].
Qed.

Lemma mul_44100_scaled (m : positive) (e : Z) :
  -1074 <= e -> Zdigits2 (Z.pos m) + e <= 54 ->
  scaled (mul_int (S754_finite false m e) 44100)
  = round_scaled (44100 * scaled (S754_finite false m e)) 1
  /\ match mul_int (S754_finite false m e) 44100 with
     | S754_zero _ => True
     | S754_finite s m' e' => s = false /\ -1074 <= e'
     | _ => False
     end.
Proof.
  intros He Hd. rewrite mul_int_44100_finite.
  set (N := Z.pos m * 6061057848115200).
  assert (HN : 2 ^ 52 <= N).
  { unfold N.
    assert (2 ^ 52 <= 6061057848115200) by (apply Z.leb_le; reflexivity).
    nia. }
  assert (P52 : 0 < 2 ^ 52) by reflexivity.
  assert (Hlo : 53 <= Zdigits2 N) by (apply Zdigits2_ge; [lia|assumption]).
  assert (Hhi : Zdigits2 N <= Zdigits2 (Z.pos m) + 53).
  { pose proof (Zdigits2_upper (Z.pos m) ltac:(lia)) as Hu.
    pose proof (Zdigits2_nonneg (Z.pos m) ltac:(lia)).
    apply Zdigits2_le; try lia.
    rewrite Z.pow_add_r by lia.
    assert (6061057848115200 < 2 ^ 53) by reflexivity. unfold N. nia. }
  destruct (round_result_scaled N 1 (e - 37)) as [Hsc Hshape];
    try (rewrite ?Z.div_1_r, ?fexp_eq; unfold scale; lia).
  split; [|exact Hshape].
  rewrite Hsc. f_equal. unfold N, scaled, scale.
  replace (e + 1120) with (37 + (e - 37 + 1120)) by lia.
  rewrite (Z.pow_add_r 2 37) by lia.
  change 6061057848115200 with (44100 * 2 ^ 37). ring.
Qed.

(** The sample index in integer arithmetic. *)
Lemma sample_index_scaled (p : Z) :
  0 < p < 2 ^ 53 ->
  sample_index p
  = inr (round_scaled (44100 * round_scaled (p * 2 ^ scale) 1000) 1
         / 2 ^ scale).
Proof.
  intros H. unfold sample_index.
  destruct (truediv_scaled_exact_operands p 1000 H)
    as (f & -> & Hsc & Hshape).
  { split; [lia|reflexivity]. }
  rewrite <- Hsc.
  destruct f as [s|s| |s m e]; try contradiction.
  - subst s. reflexivity.
  - destruct Hshape as (-> & He & Hd).
    destruct (mul_44100_scaled m e He Hd) as [Hm Hs2].
    rewrite to_int_scaled.
    + rewrite Hm. reflexivity.
    + destruct (mul_int (S754_finite false m e) 44100) as [s2|s2| |s2 m2 e2];
        try contradiction; auto.
      destruct Hs2 as [-> ?]. unfold scale. split; [reflexivity|lia].
Qed.

Lemma sample_index_zero : sample_index 0 = inr 0.
Proof. reflexivity. Qed.

Lemma rne_int (c : Z) : rne c 1 = c.
Proof. unfold rne. rewrite Z.mod_1_r, Z.div_1_r. reflexivity. Qed.

(** A multiple of the divisor whose quotient has at most 53 significant
    bits is divided exactly. *)
Lemma round_scaled_exact (c D : Z) :
  0 < c < 2 ^ 53 -> 0 < D ->
  round_scaled (c * 2 ^ scale * D) D = c * 2 ^ scale.
Proof.
  intros Hc HD. unfold round_scaled.
  rewrite Z.div_mul by lia. rewrite grain_eq.
  assert (Hdig : Zdigits2 (c * 2 ^ scale) = Zdigits2 c + scale).
  { pose proof (Zdigits2_mul_pow2 c 1 scale ltac:(lia)
                  ltac:(unfold scale; lia)) as H.
    rewrite !Z.div_1_r in H. apply H. lia. }
  rewrite Hdig.
  assert (Hd1 : 1 <= Zdigits2 c) by (apply Zdigits2_ge; simpl; lia).
  assert (Hd2 : Zdigits2 c <= 53) by (apply Zdigits2_le; lia).
  unfold scale in *.
  set (g := Z.max (Zdigits2 c + 1120 - 53) 46).
  assert (Hg : 46 <= g <= 1120) by (unfold g; lia).
  pose proof (pow2_pos g ltac:(lia)) as Pg.
  pose proof (pow2_pos (1120 - g) ltac:(lia)) as Pg'.
  assert (E : 2 ^ 1120 = 2 ^ (1120 - g) * 2 ^ g).
  { rewrite <- Z.pow_add_r by lia. f_equal. lia. }
  rewrite E.
  replace (c * (2 ^ (1120 - g) * 2 ^ g) * D)
    with (c * 2 ^ (1120 - g) * (D * 2 ^ g)) by ring.
  replace (D * 2 ^ g) with (1 * (D * 2 ^ g)) at 2 by ring.
  rewrite rne_scale by nia. rewrite rne_int. ring.
Qed.

End PositionLemmas.

(** X18. For a player position within the range of the slider, the sample
    index [int(position / 1000 * 44100)] is computed without an exception,
    is not negative, and does not decrease when the position grows: the
    two roundings of the division and the product never reorder two
    positions. *)
Theorem sample_index_monotone (p1 p2 : Z) :
  0 <= p1 <= p2 -> p2 < 2 ^ 31 ->
  exists a b : Z,
    Visualization.sample_index p1 = inr a
    /\ Visualization.sample_index p2 = inr b
    /\ 0 <= a <= b.
Proof.
  intros H12 H2.
  assert (P31 : 2 ^ 31 < 2 ^ 53) by reflexivity.
  pose proof (pow2_pos FloatFacts.scale ltac:(unfold FloatFacts.scale; lia))
    as Ps.
  assert (Hval : forall p, 0 < p < 2 ^ 53 ->
             0 <= FloatFacts.round_scaled (p * 2 ^ FloatFacts.scale) 1000).
  { intros p Hp. apply round_scaled_nonneg; [|lia].
    apply Z.mul_nonneg_nonneg; lia. }
  assert (Hidx : forall p, 0 < p < 2 ^ 53 ->
             0 <= FloatFacts.round_scaled
                    (44100 * FloatFacts.round_scaled
                               (p * 2 ^ FloatFacts.scale) 1000) 1
                  / 2 ^ FloatFacts.scale).
  { intros p Hp. apply Z.div_pos; [|exact Ps].
    apply round_scaled_nonneg; [|lia]. specialize (Hval p Hp). lia. }
  destruct (Z.eq_dec p2 0) as [E2|N2].
  - assert (p1 = 0) as -> by lia. subst p2.
    exists 0, 0. rewrite sample_index_zero. repeat split; lia.
  - destruct (Z.eq_dec p1 0) as [E1|N1].
    + subst p1. rewrite sample_index_zero, sample_index_scaled by lia.
      eexists _, _. split; [reflexivity|]. split; [reflexivity|].
      split; [lia|]. apply Hidx. lia.
    + rewrite !sample_index_scaled by lia.
      eexists _, _. split; [reflexivity|]. split; [reflexivity|].
      split; [apply Hidx; lia|].
      apply Z.div_le_mono; [exact Ps|].
      assert (HW : FloatFacts.round_scaled (p1 * 2 ^ FloatFacts.scale) 1000
                   <= FloatFacts.round_scaled (p2 * 2 ^ FloatFacts.scale) 1000).
      { apply round_scaled_mono.
        - apply Z.mul_nonneg_nonneg; lia.
        - lia.
        - lia.
        - apply Z.mul_le_mono_nonneg_r; [lia|].
          apply Z.mul_le_mono_nonneg_r; lia. }
      pose proof (Hval p1 ltac:(lia)).
      apply round_scaled_mono; lia.
Qed.

Lemma sample_index_monotone_witness :
  (0 <= 1999 <= 2001 /\ 2001 < 2 ^ 31)
  /\ exists a b : Z,
       Visualization.sample_index 1999 = inr a
       /\ Visualization.sample_index 2001 = inr b
       /\ 0 <= a <= b.
Proof.
  split; [split; [lia|reflexivity]|].
  apply (sample_index_monotone 1999 2001); [lia|reflexivity].
Defined.

(** X19. At a whole number of seconds the sample index is exact: for a
    position of [1000 * s] milliseconds within the range of the slider it is
    [44100 * s], neither rounding losing anything. *)
Theorem sample_index_whole_seconds (s : Z) :
  0 <= s -> 1000 * s < 2 ^ 31 ->
  Visualization.sample_index (1000 * s) = inr (44100 * s).
Proof.
  intros Hs Hb.
  assert (P31 : 2 ^ 31 < 2 ^ 53) by reflexivity.
  assert (E31 : 2 ^ 31 = 2147483648) by reflexivity.
  assert (E53 : 2 ^ 53 = 9007199254740992) by reflexivity.
  destruct (Z.eq_dec s 0) as [->|Hn]; [reflexivity|].
  rewrite sample_index_scaled by lia.
  replace (1000 * s * 2 ^ FloatFacts.scale)
    with (s * 2 ^ FloatFacts.scale * 1000) by ring.
  rewrite round_scaled_exact by lia.
  replace (44100 * (s * 2 ^ FloatFacts.scale))
    with (44100 * s * 2 ^ FloatFacts.scale * 1) by ring.
  rewrite round_scaled_exact by lia.
  rewrite Z.div_mul; [reflexivity|].
  apply Z.pow_nonzero; unfold FloatFacts.scale; lia.
Qed.

Lemma sample_index_whole_seconds_witness :
  (0 <= 7 /\ 1000 * 7 < 2 ^ 31)
  /\ Visualization.sample_index (1000 * 7) = inr (44100 * 7).
Proof.
  split; [split; [lia|reflexivity]|].
  apply (sample_index_whole_seconds 7); [lia|reflexivity].
Defined.

(** ** One thread under any schedule *)

Section ScheduleLemmas.
Import App.
Variable lib : Pydub.
Variable qt : bool.

Lemma worker_steps_snoc (n : nat) :
  forall (w : Worker) (f : Fs),
    worker_steps lib (S n) w f
    = let r := worker_steps lib n w f in
      let r' := worker_step lib r.1.1 r.1.2 in
      (r'.1.1, r'.1.2, r.2 ++ r'.2).
Proof.
  induction n as [|n IH]; intros w f.
  - cbv zeta. cbn [worker_steps fst snd].
    destruct (worker_step lib w f) as [[w1 f1] s1].
    cbn [fst snd app]. rewrite app_nil_r. reflexivity.
  - change (worker_steps lib (S (S n)) w f)
      with (let '(w1, fs1, sigs1) := worker_step lib w f in
            let '(w2, fs2, sigs2) := worker_steps lib (S n) w1 fs1 in
            (w2, fs2, sigs1 ++ sigs2)).
    change (worker_steps lib (S n) w f)
      with (let '(w1, fs1, sigs1) := worker_step lib w f in
            let '(w2, fs2, sigs2) := worker_steps lib n w1 fs1 in
            (w2, fs2, sigs1 ++ sigs2)).
    destruct (worker_step lib w f) as [[w1 f1] s1].
    rewrite (IH w1 f1). cbv zeta.
    destruct (worker_steps lib n w1 f1) as [[w2 f2] s2]. cbn [fst snd].
    destruct (worker_step lib w2 f2) as [[w3 f3] s3]. cbn [fst snd].
    rewrite app_assoc. reflexivity.
Qed.

(** The state of a lone thread and of the window after any schedule of
    worker steps and deliveries. *)
Lemma exec_lone_thread (th : ConversionThread.t) (s0 : t)
    (sched : list Action) :
  workers s0 = [spawn th] ->
  mailbox s0 = [] ->
  Forall (fun a => a = Work 0 \/ a = Deliver) sched ->
  let r := worker_steps lib
             (length (List.filter (fun a => negb (is_gui a)) sched))
             (spawn th) (files s0) in
  let s := exec lib qt sched s0 in
  workers s = [r.1.1] /\ files s = r.1.2
  /\ exists delivered,
       delivered ++ mailbox s
       = r.2 ++ (if is_running r.1.1 then [] else thread_exit qt)
       /\ window s = MainWindow.handle_all delivered (window s0).
Proof.
  intros Hw Hm. cbv zeta.
  induction sched as [|a sched IH] using rev_ind; intros Hf.
  - cbn. split; [exact Hw|]. split; [reflexivity|].
    exists []. rewrite Hm. auto.
  - apply Forall_app in Hf as [Hf Ha].
    destruct (IH Hf) as (IHw & IHf & delivered & IHd & IHwin).
    rewrite exec_snoc, List.filter_app, length_app.
    apply Forall_cons in Ha as [[->| ->] _].
    + cbn [List.filter is_gui negb length].
      rewrite Nat.add_1_r, worker_steps_snoc. cbv zeta.
      set (r := worker_steps lib _ (spawn th) (files s0)) in *.
      cbn [step]. rewrite IHw. cbn [lookup list_lookup].
      rewrite IHf. unfold exit_signals.
      destruct (is_running r.1.1) eqn:Er.
      * destruct (worker_step lib r.1.1 r.1.2) as [[w' f'] sg].
        cbn [workers files mailbox window fst snd andb].
        split; [reflexivity|]. split; [reflexivity|].
        exists delivered. split; [|exact IHwin].
        rewrite app_assoc, IHd, app_nil_r, <- app_assoc.
        destruct (is_running w'); reflexivity.
      * rewrite (worker_step_stopped lib _ _ Er).
        cbn [workers files mailbox window fst snd andb].
        rewrite Er, !app_nil_r.
        split; [reflexivity|]. split; [reflexivity|].
        exists delivered. split; [exact IHd|exact IHwin].
    + cbn [List.filter is_gui negb length]. rewrite Nat.add_0_r.
      cbn [step].
      destruct (mailbox (exec lib qt sched s0)) as [|sig rest] eqn:Emb.
      * split; [exact IHw|]. split; [exact IHf|].
        exists delivered. rewrite Emb. auto.
      * cbn [workers files mailbox window].
        split; [exact IHw|]. split; [exact IHf|].
        exists (delivered ++ [sig]). split.
        -- rewrite <- app_assoc. exact IHd.
        -- rewrite IHwin. unfold MainWindow.handle_all.
           rewrite fold_left_app. reflexivity.
Qed.

Lemma exec_deliver_all (n : nat) :
  forall s : t,
    (length (mailbox s) <= n)%nat ->
    let s' := exec lib qt (repeat Deliver n) s in
    window s' = MainWindow.handle_all (mailbox s) (window s)
    /\ mailbox s' = [] /\ workers s' = workers s /\ files s' = files s.
Proof.
  induction n as [|n IH]; intros s Hl; cbv zeta.
  - destruct (mailbox s) eqn:E; [|cbn in Hl; lia].
    cbn. rewrite E. auto.
  - cbn [repeat]. change (exec lib qt (Deliver :: repeat Deliver n) s)
      with (exec lib qt (repeat Deliver n) (step lib qt Deliver s)).
    cbn [step]. destruct (mailbox s) as [|sig rest] eqn:E.
    + destruct (IH s ltac:(rewrite E; cbn; lia)) as (H1 & H2 & H3 & H4).
      rewrite E in H1. auto.
    + cbn [length] in Hl.
      destruct (IH {| window := MainWindow.handle sig (window s);
                      workers := workers s; files := files s;
                      mailbox := rest |} ltac:(cbn; lia))
        as (H1 & H2 & H3 & H4).
      cbn [window mailbox workers files] in *. auto.
Qed.

Lemma worker_steps_enough (th : ConversionThread.t) (f : Fs) (n : nat) :
  (S (length (ConversionThread.input_files th)) <= n)%nat ->
  worker_steps lib n (spawn th) f
  = worker_steps lib (S (length (ConversionThread.input_files th)))
      (spawn th) f.
Proof.
  intros Hn.
  pose proof (worker_steps_from lib th (ConversionThread.input_files th) 0 f
                (n - S (length (ConversionThread.input_files th))) eq_refl)
    as H1.
  pose proof (worker_steps_from lib th (ConversionThread.input_files th) 0 f
                0 eq_refl) as H0.
  rewrite Nat.add_0_r in H0.
  replace (S (length (ConversionThread.input_files th))
           + (n - S (length (ConversionThread.input_files th))))%nat
    with n in H1 by lia.
  unfold spawn. rewrite H1, H0. reflexivity.
Qed.

Lemma length_batch_signals (dir : string) (total : Z) (l : list string) :
  forall i,
    length (ConversionThread.batch_signals dir total i l)
    = (2 * length l)%nat.
Proof.
  induction l as [|x l IH]; intros i; [reflexivity|].
  cbn [ConversionThread.batch_signals ConversionThread.job_signals app length].
  rewrite IH. lia.
Qed.

End ScheduleLemmas.

(** X20. A lone thread gives the same result under every schedule. From a
    state in which one thread has just been started and no signal is queued,
    let the scheduler interleave steps of the thread and deliveries of queued
    signals in any order, with at least one step per file and one more, and
    let the GUI thread then empty its queue. The window is then the one that
    handled, in order, the signals of [run] followed by Qt's own
    [finished()] if that reaches the window; the files are those [run]
    leaves, nothing is queued, and the thread has returned or, if [run]
    raised, has ended with that exception. *)
Theorem lone_thread_schedules_agree (lib : Pydub) (qt_finished : bool)
    (th : ConversionThread.t) (s0 : App.t) (sched : list App.Action) :
  App.workers s0 = [App.spawn th] ->
  App.mailbox s0 = [] ->
  Forall (fun a => a = App.Work 0 \/ a = App.Deliver) sched ->
  (S (length (ConversionThread.input_files th))
   <= length (List.filter (fun a => negb (App.is_gui a)) sched))%nat ->
  let n := (2 * length (ConversionThread.input_files th) + 2)%nat in
  let s := App.exec lib qt_finished (sched ++ repeat App.Deliver n) s0 in
  let r := ConversionThread.run lib (ConversionThread.start th (App.files s0)) in
  App.window s
  = MainWindow.handle_all
      (ConversionThread.emitted (snd r) ++ App.thread_exit qt_finished)
      (App.window s0)
  /\ App.files s = ConversionThread.fs (snd r)
  /\ App.mailbox s = []
  /\ App.workers s
     = [{| App.thread := th;
           App.pc := match fst r with
                     | inl e => App.Crashed e
                     | inr _ => App.Returned
                     end |}].
Proof.
  cbv zeta. intros Hw Hm Hf Hn.
  destruct (exec_lone_thread lib qt_finished th s0 sched Hw Hm Hf)
    as (H1 & H2 & delivered & Hd & Hwin).
  rewrite (worker_steps_enough lib th (App.files s0) _ Hn) in H1, H2, Hd.
  rewrite worker_steps_run in H1, H2, Hd.
  destruct th as [inputs dir].
  destruct (run_outcome lib inputs dir (App.files s0))
    as (k & f' & failure & _ & Hem & Hr & Hfs & Hk).
  change (ConversionThread.init inputs dir)
    with {| ConversionThread.input_files := inputs;
            ConversionThread.output_dir := dir |} in Hem, Hr, Hfs.
  destruct (ConversionThread.run lib _) as [res st'] eqn:Erun.
  cbn [fst snd] in *.
  assert (Hself : ConversionThread.self st'
                  = {| ConversionThread.input_files := inputs;
                       ConversionThread.output_dir := dir |}).
  { pose proof (worker_steps_run lib
                  {| ConversionThread.input_files := inputs;
                     ConversionThread.output_dir := dir |} (App.files s0))
      as Hrun.
    rewrite Erun in Hrun.
    pose proof (worker_steps_from lib
                  {| ConversionThread.input_files := inputs;
                     ConversionThread.output_dir := dir |} inputs 0
                  (App.files s0) 0 eq_refl) as Hfrom.
    rewrite Nat.add_0_r in Hfrom. unfold App.spawn in Hrun.
    cbn [ConversionThread.input_files] in Hrun.
    rewrite Hfrom in Hrun. cbv zeta in Hrun.
    destruct (ConversionThread.transcode_all lib _ _ _) as [[k0 f0] r0].
    apply (f_equal (fun x => App.thread x.1.1)) in Hrun.
    cbn [fst snd App.thread] in Hrun. symmetry. exact Hrun. }
  assert (Hstop : App.is_running
                    {| App.thread := ConversionThread.self st';
                       App.pc := match res with
                                 | inl e => App.Crashed e
                                 | inr _ => App.Returned
                                 end |} = false)
    by (destruct res; reflexivity).
  rewrite Hstop in Hd.
  assert (Hlen : (length (App.mailbox (App.exec lib qt_finished sched s0))
                  <= 2 * length inputs + 2)%nat).
  { assert (Hle : (length (ConversionThread.emitted st'
                             ++ App.thread_exit qt_finished)
                   <= 2 * length inputs + 2)%nat).
    { rewrite Hem, !length_app, length_batch_signals, length_take.
      destruct failure; destruct qt_finished; cbn [length App.thread_exit];
        lia. }
    rewrite <- Hd, length_app in Hle. lia. }
  cbn [ConversionThread.input_files]. rewrite exec_app.
  destruct (exec_deliver_all lib qt_finished (2 * length inputs + 2)
              (App.exec lib qt_finished sched s0) Hlen)
    as (E1 & E2 & E3 & E4).
  rewrite E1, E2, E3, E4, H1, H2, Hwin, Hself.
  split; [|auto].
  rewrite <- Hd. unfold MainWindow.handle_all. rewrite fold_left_app.
  reflexivity.
Qed.

Lemma lone_thread_schedules_agree_witness :
  let files : Fs := {[ "a.m4a"%string := [1]; "b.m4a"%string := [2] ]} in
  let th := ConversionThread.init ["a.m4a"; "b.m4a"]%string "/out" in
  let s0 := App.exec plain_pydub true
              [App.SelectOutputDir "/out";
               App.SelectFiles ["a.m4a"; "b.m4a"]%string] (App.init files) in
  let sched := [App.Work 0; App.Deliver; App.Deliver; App.Deliver;
                App.Work 0; App.Work 0; App.Deliver; App.Work 0] in
  let s := App.exec plain_pydub true (sched ++ repeat App.Deliver 6) s0 in
  let r := ConversionThread.run plain_pydub
             (ConversionThread.start th (App.files s0)) in
  (App.workers s0 = [App.spawn th] /\ App.mailbox s0 = [])
  /\ App.window s
     = MainWindow.handle_all
         (ConversionThread.emitted (snd r) ++ App.thread_exit true)
         (App.window s0)
  /\ App.files s = ConversionThread.fs (snd r)
  /\ App.mailbox s = []
  /\ App.workers s
     = [{| App.thread := th;
           App.pc := match fst r with
                     | inl e => App.Crashed e
                     | inr _ => App.Returned
                     end |}].
Proof.
  cbv zeta. split; [split; vm_compute; reflexivity|].
  apply (lone_thread_schedules_agree plain_pydub true
           (ConversionThread.init ["a.m4a"; "b.m4a"]%string "/out")
           (App.exec plain_pydub true
              [App.SelectOutputDir "/out";
               App.SelectFiles ["a.m4a"; "b.m4a"]%string]
              (App.init {[ "a.m4a"%string := [1]; "b.m4a"%string := [2] ]}))
           [App.Work 0; App.Deliver; App.Deliver; App.Deliver;
            App.Work 0; App.Work 0; App.Deliver; App.Work 0]).
  - vm_compute; reflexivity.
  - vm_compute; reflexivity.
  - repeat (constructor; [first [left; reflexivity|right; reflexivity]|]).
    constructor.
  - vm_compute. lia.
Defined.

(** ** The files a drop accepts *)

Section FilterLemmas.
Import PyStr.

Lemma lower_length (s : string) : String.length (lower s) = String.length s.
Proof. induction s as [|a s IH]; [reflexivity|]. simpl. rewrite IH. reflexivity. Qed.

Lemma lower_drop (n : nat) :
  forall s, lower (drop n s) = drop n (lower s).
Proof.
  induction n as [|n IH]; intros [|a s]; try reflexivity.
  simpl. apply IH.
Qed.

End FilterLemmas.

(** X21. The files a drop accepts are exactly the paths that end in a
    four-character extension which is ".m4a" once its letters are lowered:
    ".m4a", ".M4A", ".m4A" and so on. Nothing before the extension
    matters. *)
Theorem drop_filter_accepts (file_path : string) :
  MainWindow.is_m4a file_path = true
  <-> exists stem ext : string,
        file_path = stem +:+ ext /\ PyStr.lower ext = ".m4a"%string.
Proof.
  unfold MainWindow.is_m4a. split.
  - unfold PyStr.endswith_str. intros H.
    apply andb_true_iff in H as [He _]. apply String.eqb_eq in He.
    rewrite lower_length in He. rewrite <- lower_drop in He.
    exists (PyStr.take (String.length file_path - String.length ".m4a")
              file_path),
           (PyStr.drop (String.length file_path - String.length ".m4a")
              file_path).
    split; [|exact He]. symmetry. apply str_take_drop.
  - intros (stem & ext & -> & He).
    rewrite lower_app, He. apply endswith_str_app.
Qed.

